(** * VetAI triage: session orchestration and token endpoint

    A shallow embedding of the conversation handler (the browser side:
    [startVetConvoAI], [stopConvoAI], [leaveChannel], [endConversation],
    [startOpenAIQuestioningSequence], [waitForUserResponse],
    [generateTriageSummary]) and of the Express handler behind
    [GET /api/token], together with the properties the specification
    states about them.  The other endpoints of the server (the proxies
    to the Agora REST API, the cleanup of stale agents, the client
    configuration and the vet call queue) and the rest of the page's
    handlers follow, with further properties of the code and of the
    page run against this server.

    JavaScript values are an inductive type, the module-level [let]
    variables of the handler are the fields of a record, and every
    interaction with the outside (fetch, timers, SDK calls, console) is
    an event a computation adds to the history.  What the outside
    answers is read from an oracle over that history, so a theorem
    quantified over the oracle covers every run.  Each function is
    followed as one flow of control, from its call to its return;
    callbacks of the SDK that may fire in between are not part of it. *)

From Stdlib Require Import ZArith List String Ascii Bool Lia.
From Stdlib Require Import DecimalString.
From Stdlib Require Decimal DecimalPos.
From Stdlib Require Sorted Permutation.
Import ListNotations.

Local Set Warnings "-register-all".

Open Scope string_scope.
Open Scope list_scope.
Open Scope Z_scope.

(** ** JavaScript values *)

Module Js.

Inductive JsVal : Type :=
| JUndefined
| JNull
| JBool (b : bool)
| JNum (n : Z)
| JStr (s : string)
| JArr (items : list JsVal)
| JObj (fields : list (string * JsVal)).

(** Numbers are restricted to integers: the handler only ever inspects
    status codes, counters and identifiers. *)

(** ToBoolean. *)
Definition truthy (v : JsVal) : bool :=
  match v with
  | JUndefined | JNull => false
  | JBool b => b
  | JNum n => negb (n =? 0)
  | JStr s => negb (s =? "")%string
  | JArr _ | JObj _ => true
  end.

Fixpoint assoc (k : string) (fields : list (string * JsVal)) : JsVal :=
  match fields with
  | [] => JUndefined
  | (k', v) :: rest => if (k =? k')%string then v else assoc k rest
  end.

(** [v.k] for a key that is not an own property of strings, arrays,
    numbers or booleans ([agent_id], [token]): [None] is the TypeError
    raised on [null] and [undefined]. *)
Definition get_prop (v : JsVal) (k : string) : option JsVal :=
  match v with
  | JUndefined | JNull => None
  | JObj fields => Some (assoc k fields)
  | _ => Some JUndefined
  end.

Definition string_of_Z (n : Z) : string :=
  NilZero.string_of_int (Z.to_int n).

(** ToString, as a template literal applies it. *)
Fixpoint to_string (v : JsVal) : string :=
  match v with
  | JUndefined => "undefined"
  | JNull => "null"
  | JBool true => "true"
  | JBool false => "false"
  | JNum n => string_of_Z n
  | JStr s => s
  | JArr items =>
      (fix join (l : list JsVal) : string :=
         match l with
         | [] => ""
         | x :: rest =>
             let sx := match x with
                       | JUndefined | JNull => ""
                       | _ => to_string x
                       end in
             match rest with
             | [] => sx
             | _ :: _ => (sx ++ "," ++ join rest)%string
             end
         end) items
  | JObj _ => "[object Object]"
  end.

(** [a || b] on strings. *)
Definition str_or (a b : string) : string :=
  if (a =? "")%string then b else a.

(** *** parseInt

    [parseInt(x)] with no radix: ToString, leading white space skipped,
    an optional sign, an optional [0x] prefix, then the longest run of
    digits of the radix; [None] is NaN.  Strings are byte strings, so
    the white space recognised is the ASCII part of the JavaScript set.
    The result is the integer the digits denote; JavaScript gives the
    nearest double, which is the same number below 2^53. *)

Definition is_white_space (c : ascii) : bool :=
  let n := Z.of_nat (nat_of_ascii c) in
  ((9 <=? n) && (n <=? 13)) || (n =? 32).

Fixpoint skip_white_space (s : string) : string :=
  match s with
  | String c rest => if is_white_space c then skip_white_space rest else s
  | EmptyString => s
  end.

Definition digit_value (radix : Z) (c : ascii) : option Z :=
  let n := Z.of_nat (nat_of_ascii c) in
  let d :=
    if (48 <=? n) && (n <=? 57) then n - 48
    else if (97 <=? n) && (n <=? 122) then n - 87
    else if (65 <=? n) && (n <=? 90) then n - 55
    else radix in
  if d <? radix then Some d else None.

Fixpoint parse_digits (radix : Z) (s : string) (acc : option Z) : option Z :=
  match s with
  | EmptyString => acc
  | String c rest =>
      match digit_value radix c with
      | Some d =>
          parse_digits radix rest
            (Some (radix * match acc with Some a => a | None => 0 end + d))
      | None => acc
      end
  end.

Definition parseInt (input : option string) : option Z :=
  let s := skip_white_space
             (match input with Some s => s | None => "undefined" end) in
  let '(sign, s1) :=
    match s with
    | String "-" rest => (-1, rest)
    | String "+" rest => (1, rest)
    | _ => (1, s)
    end in
  let '(radix, s2) :=
    match s1 with
    | String "0" (String "x" rest) => (16, rest)
    | String "0" (String "X" rest) => (16, rest)
    | _ => (10, s1)
    end in
  match parse_digits radix s2 None with
  | Some m => Some (sign * m)
  | None => None
  end.

End Js.

(** ** The token endpoint (server) *)

Module Server.

Import Js.

(** [process.env]: a variable is a string or is not set. *)
Record Env : Type := {
  AGORA_APPID : option string;
  AGORA_APPCERTIFICATE : option string
}.

(** [req.query] of [GET /api/token]: each parameter is a string or is
    absent.  (Repeated and bracketed parameters, which Express turns
    into arrays and objects, are not modelled.) *)
Record Query : Type := {
  channelName : option string;
  uid : option string;
  role : option string
}.

Inductive RtcRole : Type := PUBLISHER | SUBSCRIBER.

Inductive Body : Type :=
| ErrorBody (error : string)
| TokenBody (token : string).

Record HttpResponse : Type := {
  status : Z;
  body : Body
}.

(** Truthiness of a string-or-undefined. *)
Definition present (o : option string) : bool :=
  match o with
  | Some s => negb (s =? "")%string
  | None => false
  end.

Definition value (o : option string) : string :=
  match o with Some s => s | None => "" end.

(** [parseInt(uid) || 0]: NaN and 0 both give 0. *)
Definition userUid_of (uid : option string) : Z :=
  match parseInt uid with
  | Some n => n
  | None => 0
  end.

(** [role === "subscriber" ? SUBSCRIBER : PUBLISHER]. *)
Definition tokenRole_of (role : option string) : RtcRole :=
  match role with
  | Some r => if (r =? "subscriber")%string then SUBSCRIBER else PUBLISHER
  | None => PUBLISHER
  end.

Definition expirationTimeInSeconds : Z := 3600.

(** [Math.floor(Date.now() / 1000)]. *)
Definition currentTimestamp (now_ms : Z) : Z := now_ms / 1000.

Section TokenEndpoint.

(** [RtcTokenBuilder.buildTokenWithUid] of the agora-token package:
    app id, certificate, channel, uid, role, privilege expiry. *)
Variable buildTokenWithUid :
  string -> string -> string -> Z -> RtcRole -> Z -> string.

Definition token_handler (env : Env) (now_ms : Z) (q : Query)
  : HttpResponse :=
  let appId := AGORA_APPID env in
  let appCertificate := AGORA_APPCERTIFICATE env in
  if negb (present appId) || negb (present appCertificate) then
    {| status := 500; body := ErrorBody "Missing Agora credentials" |}
  else if negb (present (channelName q)) then
    {| status := 400; body := ErrorBody "channelName is required" |}
  else
    let userUid := userUid_of (uid q) in
    let tokenRole := tokenRole_of (role q) in
    let privilegeExpiredTs :=
      currentTimestamp now_ms + expirationTimeInSeconds in
    let token :=
      buildTokenWithUid (value appId) (value appCertificate)
        (value (channelName q)) userUid tokenRole privilegeExpiredTs in
    {| status := 200; body := TokenBody token |}.

End TokenEndpoint.

End Server.

(** ** The conversation handler (browser) *)

Module Conversation.

Import Js.

(** *** Responses, requests, events *)

Record Response : Type := {
  status : Z;
  statusText : string;
  text : string;            (* the body, as [response.text()] gives it *)
  json : option JsVal       (* the body parsed; [None] when it is not JSON *)
}.

(** [response.ok]. *)
Definition ok (r : Response) : bool :=
  (200 <=? status r) && (status r <=? 299).

Inductive FetchResult : Type :=
| NetworkError                 (* the fetch promise rejects *)
| Responded (r : Response).

Inductive TrackKind : Type := audioTrack | videoTrack.

(** One captured answer, as [responses.push] builds it. *)
Record Turn : Type := {
  question : string;
  timestamp : Z;
  response : string
}.

(** The body of the create-agent request.  The pipeline literals (llm,
    tts, asr, avatar) are constants of the source and are left out; the
    fields below are the ones that vary or that the specification
    names. *)
Record RequestData : Type := {
  name : string;
  channel : string;
  token : JsVal;
  agent_rtc_uid : string;
  remote_rtc_uids : list string;
  idle_timeout : Z;
  silence_timeout_ms : Z
}.

Inductive Request : Type :=
| GetToken (channelName uid role : string)       (* GET /api/token?... *)
| PostCleanup (channel : string)                 (* /api/convo-ai/cleanup/:channel *)
| PostStart (body : RequestData)                 (* /api/convo-ai/start *)
| PostAgentLeave (agentId : string)              (* /api/convo-ai/agents/:id/leave *)
| PostAnalyzeTriage (answers : string) (responses : list Turn)
| PostOpenAITTS (text : string).

Inductive Resolution : Type := TimedOut | VoiceCompleted.

Inductive Event : Type :=
| Fetch (rq : Request) (res : FetchResult)
| Sleep (ms : Z)                       (* an awaited [setTimeout] *)
| ConsoleLog (msg : string)
| ConsoleError (msg : string)
| Toast (msg : string)
| ShowLoading (msg : string)
| HideLoading
| UpdateStatus (status msg : string)
| AudioIndicator (state : string)
| TrackStop (k : TrackKind)
| TrackClose (k : TrackKind)
| TrackClear (k : TrackKind)           (* [localTracks.k = null] *)
| SetTaskID (v : JsVal)                (* [agoraConvoTaskID = v] *)
| SetStartTime (t : Z)                 (* [conversationStartTime = new Date()] *)
| ClientLeave (resolved : bool)        (* [client.leave()] *)
| ClearRemoteUsers
| ClearRemotePlayerList
| AudioPlay (ended : bool)             (* an [Audio] element played to its end, or failed *)
| Speak (text : string)                (* browser speech synthesis *)
| Listen (questionNumber : Z) (how : Resolution) (polls : nat)
| PushResponse (t : Turn)
| StoreItem (key : string) (v : JsVal) (* [sessionStorage.setItem] *)
| DisplaySummary (v : JsVal)
| ScheduleRedirect (url : string) (ms : Z).

(** What one listening window meets: whether setting up the analyser
    throws, and the frequency data each poll of [checkAudio] reads, for
    the polls that run before the 15 s timer fires. *)
Record Listening : Type := {
  monitor_throws : bool;
  frames : list (list Z)
}.

(** The outside, as a function of what has happened so far (the most
    recent event first). *)
Record World : Type := {
  fetch : list Event -> Request -> FetchResult;
  now : list Event -> Z;                      (* [Date.now()] *)
  client_leave : list Event -> bool;          (* does [client.leave()] resolve *)
  audio_ends : list Event -> bool;            (* does playback reach [onended] *)
  listening : list Event -> Listening;
  speechSynthesis : bool;                     (* [window.speechSynthesis] exists *)
  remote_playerlist : bool                    (* the element exists *)
}.

(** The module-level variables. *)
Record Vars : Type := {
  client : bool;                         (* [client] is not null *)
  localTracks : TrackKind -> bool;       (* the handle is held *)
  options_channel : option string;       (* [options.channel] *)
  agoraConvoTaskID : JsVal;
  conversationStartTime : option Z;
  petInfo : JsVal;
  remoteUsers : list Z;
  sessionStorage : list (string * JsVal);
  responses : list Turn                  (* the array of the running sequence *)
}.

Inductive JsError : Type :=
| Error (message : string)
| TypeError
| FetchFailed
| SyntaxError
| MediaError
| TransportError.

(** *** Completions and the monad

    A statement completes normally, returns from the enclosing function,
    or throws.  [Rejected] is the fourth way an async function ends: it
    returned a promise that later rejects, which no [catch] of the
    function sees and which reaches whoever awaits the call. *)

Inductive Completion (A : Type) : Type :=
| Normal (a : A)
| Returned (v : JsVal)
| Thrown (e : JsError)
| Rejected (e : JsError).

Arguments Normal {A} a.
Arguments Returned {A} v.
Arguments Thrown {A} e.
Arguments Rejected {A} e.

(** A computation reads the world and the history so far, and yields a
    completion, the variables, and the events it added.  Histories and
    added events are kept most recent first; [rev] puts the events of a
    run in the order they happened. *)
Definition M (A : Type) : Type :=
  World -> list Event -> Vars -> Completion A * Vars * list Event.

Definition ret {A} (a : A) : M A :=
  fun _ _ v => (Normal a, v, []).

Definition bind {A B} (m : M A) (k : A -> M B) : M B :=
  fun w h v =>
    match m w h v with
    | (Normal a, v1, d1) =>
        match k a w (d1 ++ h) v1 with
        | (c, v2, d2) => (c, v2, d2 ++ d1)
        end
    | (Returned r, v1, d1) => (Returned r, v1, d1)
    | (Thrown e, v1, d1) => (Thrown e, v1, d1)
    | (Rejected e, v1, d1) => (Rejected e, v1, d1)
    end.

Notation "x <- m ;; k" := (bind m (fun x => k))
  (at level 61, m at next level, right associativity).
Notation "m ;; k" := (bind m (fun _ => k))
  (at level 61, right associativity).

Definition throw {A} (e : JsError) : M A :=
  fun _ _ v => (Thrown e, v, []).

Definition return_ {A} (r : JsVal) : M A :=
  fun _ _ v => (Returned r, v, []).

(** [try { m } catch (e) { handler e }]. *)
Definition try_catch {A} (m : M A) (handler : JsError -> M A) : M A :=
  fun w h v =>
    match m w h v with
    | (Thrown e, v1, d1) =>
        match handler e w (d1 ++ h) v1 with
        | (c, v2, d2) => (c, v2, d2 ++ d1)
        end
    | other => other
    end.

(** [await f(...)]: the value the function returned ([undefined] when it
    ran off its end), or its exception. *)
Definition call (body : M unit) : M JsVal :=
  fun w h v =>
    match body w h v with
    | (Normal _, v1, d1) => (Normal JUndefined, v1, d1)
    | (Returned r, v1, d1) => (Normal r, v1, d1)
    | (Thrown e, v1, d1) => (Thrown e, v1, d1)
    | (Rejected e, v1, d1) => (Thrown e, v1, d1)
    end.

(** [return p] where [p] is a promise: the function is left at once and
    its result is the outcome of [p]. *)
Definition return_promise {A} (p : M JsVal) : M A :=
  fun w h v =>
    match p w h v with
    | (Normal r, v1, d1) => (Returned r, v1, d1)
    | (Returned r, v1, d1) => (Returned r, v1, d1)
    | (Thrown e, v1, d1) => (Rejected e, v1, d1)
    | (Rejected e, v1, d1) => (Rejected e, v1, d1)
    end.

Definition emit (e : Event) : M unit :=
  fun _ _ v => (Normal tt, v, [e]).

Definition read {A} (f : Vars -> A) : M A :=
  fun _ _ v => (Normal (f v), v, []).

Definition write (f : Vars -> Vars) : M unit :=
  fun _ _ v => (Normal tt, f v, []).

Definition when (b : bool) (m : M unit) : M unit :=
  if b then m else ret tt.

(** *** Assignments to the module-level variables *)

Definition set_localTrack (k : TrackKind) (held : bool) (v : Vars) : Vars :=
  {| client := client v;
     localTracks := fun k' =>
       match k, k' with
       | audioTrack, audioTrack | videoTrack, videoTrack => held
       | _, _ => localTracks v k'
       end;
     options_channel := options_channel v;
     agoraConvoTaskID := agoraConvoTaskID v;
     conversationStartTime := conversationStartTime v;
     petInfo := petInfo v;
     remoteUsers := remoteUsers v;
     sessionStorage := sessionStorage v;
     responses := responses v |}.

Definition set_agoraConvoTaskID (x : JsVal) (v : Vars) : Vars :=
  {| client := client v;
     localTracks := localTracks v;
     options_channel := options_channel v;
     agoraConvoTaskID := x;
     conversationStartTime := conversationStartTime v;
     petInfo := petInfo v;
     remoteUsers := remoteUsers v;
     sessionStorage := sessionStorage v;
     responses := responses v |}.

Definition set_conversationStartTime (t : option Z) (v : Vars) : Vars :=
  {| client := client v;
     localTracks := localTracks v;
     options_channel := options_channel v;
     agoraConvoTaskID := agoraConvoTaskID v;
     conversationStartTime := t;
     petInfo := petInfo v;
     remoteUsers := remoteUsers v;
     sessionStorage := sessionStorage v;
     responses := responses v |}.

Definition set_remoteUsers (l : list Z) (v : Vars) : Vars :=
  {| client := client v;
     localTracks := localTracks v;
     options_channel := options_channel v;
     agoraConvoTaskID := agoraConvoTaskID v;
     conversationStartTime := conversationStartTime v;
     petInfo := petInfo v;
     remoteUsers := l;
     sessionStorage := sessionStorage v;
     responses := responses v |}.

Definition set_sessionStorage (l : list (string * JsVal)) (v : Vars) : Vars :=
  {| client := client v;
     localTracks := localTracks v;
     options_channel := options_channel v;
     agoraConvoTaskID := agoraConvoTaskID v;
     conversationStartTime := conversationStartTime v;
     petInfo := petInfo v;
     remoteUsers := remoteUsers v;
     sessionStorage := l;
     responses := responses v |}.

Definition set_responses (l : list Turn) (v : Vars) : Vars :=
  {| client := client v;
     localTracks := localTracks v;
     options_channel := options_channel v;
     agoraConvoTaskID := agoraConvoTaskID v;
     conversationStartTime := conversationStartTime v;
     petInfo := petInfo v;
     remoteUsers := remoteUsers v;
     sessionStorage := sessionStorage v;
     responses := l |}.

(** *** Primitive effects *)

(** [await fetch(...)]. *)
Definition do_fetch (rq : Request) : M Response :=
  fun w h v =>
    match fetch w h rq with
    | NetworkError => (Thrown FetchFailed, v, [Fetch rq NetworkError])
    | Responded r => (Normal r, v, [Fetch rq (Responded r)])
    end.

(** [await response.json()] and [JSON.parse(await response.text())]. *)
Definition response_json (r : Response) : M JsVal :=
  match json r with
  | Some d => ret d
  | None => throw SyntaxError
  end.

(** [o.k]. *)
Definition prop (o : JsVal) (k : string) : M JsVal :=
  match get_prop o k with
  | Some x => ret x
  | None => throw TypeError
  end.

(** [await new Promise(resolve => setTimeout(resolve, ms))]. *)
Definition sleep (ms : Z) : M unit := emit (Sleep ms).

Definition Date_now : M Z :=
  fun w h v => (Normal (now w h), v, []).

Definition assign_agoraConvoTaskID (x : JsVal) : M unit :=
  write (set_agoraConvoTaskID x) ;; emit (SetTaskID x).

Definition assign_conversationStartTime : M unit :=
  t <- Date_now ;;
  write (set_conversationStartTime (Some t)) ;; emit (SetStartTime t).

Definition present (o : option string) : bool :=
  match o with
  | Some s => negb (s =? "")%string
  | None => false
  end.

Definition value (o : option string) : string :=
  match o with Some s => s | None => "undefined" end.

Definition showToast (msg : string) : M unit := emit (Toast msg).
Definition showLoading (msg : string) : M unit := emit (ShowLoading msg).
Definition hideLoading : M unit := emit HideLoading.
Definition updateStatus (status msg : string) : M unit :=
  emit (UpdateStatus status msg).
Definition updateAudioIndicator (state : string) : M unit :=
  emit (AudioIndicator state).

(** *** startVetConvoAI *)

Definition requestData_of (channel : string) (aiAgentToken : JsVal)
  : RequestData :=
  {| name := channel;
     channel := channel;
     token := aiAgentToken;
     agent_rtc_uid := "10001";
     remote_rtc_uids := ["0"];
     idle_timeout := 120;
     silence_timeout_ms := 15000 |}.

(** The prompt builders are pure and cannot throw; they do not appear. *)
Definition startVetConvoAI_body : M unit :=
  try_catch
    (has_client <- read client ;;
     options_channel <- read options_channel ;;
     when (negb has_client || negb (present options_channel))
       (throw (Error "Client not initialized")) ;;
     let channel := value options_channel in
     aiTokenRes <- do_fetch (GetToken channel "10001" "publisher") ;;
     aiTokenData <- response_json aiTokenRes ;;
     aiAgentToken <- prop aiTokenData "token" ;;
     emit (ConsoleLog "Checking for existing AI agents...") ;;
     try_catch
       (cleanupRes <- do_fetch (PostCleanup channel) ;;
        when (ok cleanupRes)
          (emit (ConsoleLog "Cleaned up existing AI agent") ;;
           sleep 1000))
       (fun e => emit (ConsoleLog "No existing agent to clean up")) ;;
     let requestData := requestData_of channel aiAgentToken in
     emit (ConsoleLog "Starting Vet Convo AI...") ;;
     response <- do_fetch (PostStart requestData) ;;
     when (negb (ok response))
       (let err := text response in
        when (status response =? 409)
          (emit (ConsoleLog
                   "Detected conflicting agent, attempting to stop it...") ;;
           try_catch
             (errorData <- response_json response ;;
              agent_id <- prop errorData "agent_id" ;;
              when (truthy agent_id)
                (_ <- do_fetch (PostAgentLeave (to_string agent_id)) ;;
                 emit (ConsoleLog
                         "Stopped conflicting agent, retrying in 2 seconds...") ;;
                 sleep 2000 ;;
                 retryResponse <- do_fetch (PostStart requestData) ;;
                 when (negb (ok retryResponse))
                   (throw (Error (str_or (text retryResponse)
                                         (statusText retryResponse)))) ;;
                 retryData <- response_json retryResponse ;;
                 new_id <- prop retryData "agent_id" ;;
                 assign_agoraConvoTaskID new_id ;;
                 assign_conversationStartTime ;;
                 emit (ConsoleLog
                         "Vet Convo AI started successfully after retry!") ;;
                 return_ (JBool true)))
             (fun retryError => emit (ConsoleError "Retry failed:"))) ;;
        throw (Error (str_or err (statusText response)))) ;;
     responseData <- response_json response ;;
     new_id <- prop responseData "agent_id" ;;
     assign_agoraConvoTaskID new_id ;;
     assign_conversationStartTime ;;
     emit (ConsoleLog "Vet Convo AI started successfully!") ;;
     return_ (JBool true))
    (fun error =>
       emit (ConsoleError "Convo AI error:") ;;
       showToast "Failed to start AI assistant. Please try again." ;;
       return_ (JBool false)).

Definition startVetConvoAI : M JsVal := call startVetConvoAI_body.

(** *** stopConvoAI *)

Definition stopConvoAI_body : M unit :=
  try_catch
    (agoraConvoTaskID <- read agoraConvoTaskID ;;
     when (negb (truthy agoraConvoTaskID))
       (emit (ConsoleLog "No active agent to stop") ;;
        return_ JUndefined) ;;
     emit (ConsoleLog "Stopping Convo AI...") ;;
     res <- do_fetch (PostAgentLeave (to_string agoraConvoTaskID)) ;;
     when (negb (ok res))
       (throw (Error (str_or (text res) (statusText res)))) ;;
     emit (ConsoleLog "Convo AI stopped successfully") ;;
     assign_agoraConvoTaskID (JStr ""))
    (fun error => emit (ConsoleError "Error stopping Convo AI:")).

Definition stopConvoAI : M JsVal := call stopConvoAI_body.

(** *** leaveChannel

    [track.stop()] and [track.close()] are synchronous SDK calls that do
    not throw. *)

Definition release_track (k : TrackKind) : M unit :=
  held <- read (fun v => localTracks v k) ;;
  when held
    (emit (TrackStop k) ;;
     emit (TrackClose k) ;;
     write (set_localTrack k false) ;;
     emit (TrackClear k)).

(** [await client.leave()]. *)
Definition do_client_leave : M unit :=
  fun w h v =>
    if client_leave w h
    then (Normal tt, v, [ClientLeave true])
    else (Thrown TransportError, v, [ClientLeave false]).

Definition leaveChannel_body : M unit :=
  try_catch
    (release_track audioTrack ;;
     release_track videoTrack ;;
     _ <- stopConvoAI ;;
     has_client <- read client ;;
     when has_client do_client_leave ;;
     write (set_remoteUsers []) ;;
     emit ClearRemoteUsers ;;
     (fun w => when (remote_playerlist w) (emit ClearRemotePlayerList) w) ;;
     emit (ConsoleLog "Left channel successfully"))
    (fun error => emit (ConsoleError "Error leaving channel:")).

Definition leaveChannel : M JsVal := call leaveChannel_body.

(** *** endConversation *)

(** [o?.k]. *)
Definition opt_prop (o : JsVal) (k : string) : JsVal :=
  match get_prop o k with
  | Some x => x
  | None => JUndefined
  end.

(** [a || b]. *)
Definition js_or (a b : JsVal) : JsVal := if truthy a then a else b.

Definition generateMockSummary (petInfo : JsVal) : JsVal :=
  let petName := to_string (js_or (opt_prop petInfo "name") (JStr "Your pet")) in
  JObj
    [("symptoms",
      JArr [JStr "Decreased appetite for 2 days";
            JStr "Lethargy and less playful than usual";
            JStr "Occasional vomiting (twice in 24 hours)"]);
     ("assessment",
      JStr ("Based on the symptoms described, " ++ petName ++
            " appears to be experiencing mild gastrointestinal discomfort. While not immediately life-threatening, these symptoms warrant attention.")%string);
     ("urgency", JStr "medium");
     ("recommendations",
      JArr [JStr ("Monitor " ++ petName ++ "'s eating and drinking closely")%string;
            JStr "Offer small amounts of bland food (boiled chicken and rice)";
            JStr "Ensure fresh water is always available";
            JStr "Schedule a vet appointment within 24-48 hours if symptoms persist";
            JStr "Seek immediate care if vomiting becomes more frequent or contains blood"]);
     ("followUp",
      JStr "A veterinarian has been notified and will review this case. You can expect a response within 24 hours for non-urgent cases.")].

(** [sessionStorage] holds the values that were stringified into it;
    [getItem] of a missing key is [null]. *)
Definition getItem (key : string) (store : list (string * JsVal)) : JsVal :=
  match assoc key store with
  | JUndefined => JNull
  | x => x
  end.

Definition setItem (key : string) (x : JsVal) : M unit :=
  store <- read sessionStorage ;;
  write (set_sessionStorage ((key, x) :: store)) ;;
  emit (StoreItem key x).

(** [Math.round(ms / 1000)]. *)
Definition round_seconds (ms : Z) : Z := (ms + 500) / 1000.

Definition endConversation_body : M unit :=
  showLoading "Ending session..." ;;
  try_catch
    (_ <- leaveChannel ;;
     updateStatus "ended" "Session Ended" ;;
     updateAudioIndicator "inactive" ;;
     store <- read sessionStorage ;;
     let triageSummary := getItem "vetai_triage_summary" store in
     petInfo <- read petInfo ;;
     conversationStartTime <- read conversationStartTime ;;
     t <- Date_now ;;
     let sessionData :=
       JObj
         [("petInfo", petInfo);
          ("startTime",
           match conversationStartTime with
           | Some t0 => JNum t0
           | None => JUndefined
           end);
          ("endTime", JNum t);
          ("duration",
           match conversationStartTime with
           | Some t0 => JNum (round_seconds (t - t0))
           | None => JNum 0
           end);
          ("triageSummary", triageSummary);
          ("mockSummary",
           if truthy triageSummary then JNull
           else generateMockSummary petInfo)] in
     setItem "vetai_session_data" sessionData ;;
     when (truthy triageSummary) (setItem "vetai_triage_ready" (JStr "true")) ;;
     emit (ScheduleRedirect "summary.html" 1000))
    (fun error =>
       emit (ConsoleError "Error ending conversation:") ;;
       hideLoading ;;
       showToast "Error ending session. Please try again.").

Definition endConversation : M JsVal := call endConversation_body.

(** *** generateTriageSummary *)

Definition turn_to_js (t : Turn) : JsVal :=
  JObj [("question", JStr (question t));
        ("timestamp", JNum (timestamp t));
        ("response", JStr (response t))].

Fixpoint join (sep : string) (l : list string) : string :=
  match l with
  | [] => ""
  | x :: rest =>
      match rest with
      | [] => x
      | _ :: _ => (x ++ sep ++ join sep rest)%string
      end
  end.

Fixpoint indexed (i : Z) (l : list JsVal) : list (string * JsVal) :=
  match l with
  | [] => []
  | x :: rest => (string_of_Z i, x) :: indexed (i + 1) rest
  end.

(** The own enumerable properties [{...x}] copies; a field listed
    earlier takes precedence in [assoc]. *)
Definition spread (x : JsVal) : list (string * JsVal) :=
  match x with
  | JObj fields => fields
  | JArr items => indexed 0 items
  | JStr s => indexed 0 (map (fun c => JStr (String c "")) (list_ascii_of_string s))
  | _ => []
  end.

Definition fallback_summary (t : Z) (petInfo : JsVal) (responses : list Turn)
  : JsVal :=
  JObj
    [("timestamp", JNum t);
     ("petInfo", petInfo);
     ("responses", JArr (map turn_to_js responses));
     ("urgencyLevel", JStr "Medium");
     ("urgencyReason",
      JStr "Unable to analyze - recommend veterinary consultation");
     ("keyFindings",
      JArr [JStr "Triage information collected";
            JStr "Analysis system unavailable"]);
     ("recommendations",
      JArr [JStr "Contact your veterinarian for proper assessment"]);
     ("followUpActions",
      JArr [JStr "Schedule veterinary appointment";
            JStr "Monitor pet closely"]);
     ("spokenSummary",
      JStr "I have collected your information but cannot provide a detailed analysis at this time. I recommend contacting your veterinarian for a proper assessment of your pet's condition.")].

Definition answers_of (responses : list Turn) : string :=
  join " | "
    (map (fun r => str_or (response r) "No response provided") responses).

(** The analysis prompt is a fixed text around [answers]; the request
    carries [answers] in its place. *)
Definition generateTriageSummary_body (responses : list Turn) : M unit :=
  try_catch
    (let answers := answers_of responses in
     response <- do_fetch (PostAnalyzeTriage answers responses) ;;
     when (negb (ok response)) (throw (Error "Triage analysis failed")) ;;
     analysis <- response_json response ;;
     t <- Date_now ;;
     petInfo <- read petInfo ;;
     return_
       (JObj (spread analysis ++
              [("timestamp", JNum t);
               ("petInfo", petInfo);
               ("responses", JArr (map turn_to_js responses))])))
    (fun error =>
       emit (ConsoleError "Error generating triage summary:") ;;
       t <- Date_now ;;
       petInfo <- read petInfo ;;
       return_ (fallback_summary t petInfo responses)).

Definition generateTriageSummary (responses : list Turn) : M JsVal :=
  call (generateTriageSummary_body responses).

(** *** Speaking *)

(** [playTTSMessage]: the promise resolves when the utterance ends or
    errors, or at once when speech synthesis is missing. *)
Definition playTTSMessage_body (text : JsVal) : M unit :=
  fun w =>
    (if speechSynthesis w
     then emit (Speak (to_string text))
     else emit (ConsoleLog "TTS not supported, using console output:")) w.

Definition playTTSMessage (text : JsVal) : M JsVal :=
  call (playTTSMessage_body text).

Fixpoint all_white_space (s : string) : bool :=
  match s with
  | EmptyString => true
  | String c rest => is_white_space c && all_white_space rest
  end.

(** The promise around the [Audio] element: resolved by [onended],
    rejected by [onerror] or by a rejected [audio.play()]. *)
Definition audio_playback : M JsVal :=
  fun w h v =>
    if audio_ends w h
    then (Normal JUndefined, v, [AudioPlay true])
    else (Thrown MediaError, v, [AudioPlay false]).

(** The playback promise is returned, not awaited, inside the [try]:
    its rejection is not caught there.  [response.blob()] is taken to
    succeed. *)
Definition playOpenAITTS_body (text : JsVal) : M unit :=
  try_catch
    (when (negb (truthy text)) (return_ JUndefined) ;;
     s <- match text with
          | JStr s => ret s
          | _ => throw TypeError          (* [text.trim] is not a function *)
          end ;;
     when (all_white_space s) (return_ JUndefined) ;;
     response <- do_fetch (PostOpenAITTS s) ;;
     when (negb (ok response)) (throw (Error "TTS request failed")) ;;
     return_promise audio_playback)
    (fun error =>
       emit (ConsoleError "OpenAI TTS error:") ;;
       return_promise (playTTSMessage text)).

Definition playOpenAITTS (text : JsVal) : M JsVal :=
  call (playOpenAITTS_body text).

(** *** waitForUserResponse *)

(** [analyser.frequencyBinCount], half of [fftSize = 256]. *)
Definition bufferLength : Z := 128.

Definition sum (dataArray : list Z) : Z := fold_left Z.add dataArray 0.

(** [average > 25] with [average = sum / bufferLength]; dividing by 128
    is exact, so this is a comparison of integers. *)
Definition voice (dataArray : list Z) : bool :=
  25 * bufferLength <? sum dataArray.

(** [checkAudio], one call per element of the list: the polls that run
    before the timer fires.  When the list is used up the timer
    resolves the promise.  The result carries the number of polls
    run. *)
Fixpoint checkAudio (frames : list (list Z)) (voiceDetected : bool)
  (silenceCount : Z) (polls : nat) : Resolution * nat :=
  match frames with
  | [] => (TimedOut, polls)
  | dataArray :: rest =>
      if voice dataArray then
        checkAudio rest true 0 (S polls)
      else if voiceDetected then
        let silenceCount := silenceCount + 1 in
        if silenceCount >? 50 then (VoiceCompleted, S polls)
        else checkAudio rest true silenceCount (S polls)
      else
        checkAudio rest false silenceCount (S polls)
  end.

Definition listen_window (hasTrack : bool) (l : Listening)
  : Resolution * nat :=
  if hasTrack && negb (monitor_throws l)
  then checkAudio (frames l) false 0 0%nat
  else (TimedOut, 0%nat).

Definition response_text (how : Resolution) (questionNumber : Z) : string :=
  match how with
  | TimedOut =>
      ("Response received for question " ++ string_of_Z questionNumber)%string
  | VoiceCompleted =>
      ("Voice response completed for question " ++
       string_of_Z questionNumber)%string
  end.

(** The promise only ever resolves.  The toasts of voiced polls and the
    console line of a failed analyser set-up are not recorded. *)
Definition waitForUserResponse (questionNumber : Z) : M string :=
  fun w h v =>
    let r := listen_window (localTracks v audioTrack) (listening w h) in
    (Normal (response_text (fst r) questionNumber), v,
     [Listen questionNumber (fst r) (snd r)]).

(** **** The window in time

    [requestAnimationFrame] runs [checkAudio] once per display frame.
    With frames every [frame_ms] milliseconds, poll [k] runs at
    [k * frame_ms], and the polls that precede the timer are those
    before [timeout_ms]. *)

Definition timeout_ms : Z := 15000.

Record Cadence : Type := {
  frame_ms : Z;
  energy : nat -> list Z         (* the data the k-th poll reads *)
}.

Definition polls_before_timeout (frame_ms : Z) : nat :=
  Z.to_nat ((timeout_ms + frame_ms - 1) / frame_ms).

Definition frames_of (c : Cadence) : list (list Z) :=
  map (energy c) (seq 0 (polls_before_timeout (frame_ms c))).

(** When the promise resolves, in milliseconds from the start of the
    window: the time of the last poll run, or the timer. *)
Definition resolved_at_ms (frame_ms : Z) (r : Resolution * nat) : Z :=
  match r with
  | (TimedOut, _) => timeout_ms
  | (VoiceCompleted, polls) => (Z.of_nat polls - 1) * frame_ms
  end.

(** *** startOpenAIQuestioningSequence *)

Definition questions : list string :=
  ["Hello! I'm your AI veterinary triage assistant. I'll ask you 5 important questions about your pet to better understand their health concerns.";
   "Question 1: What is your pet's name and breed?";
   "Question 2: Is your pet spayed or neutered?";
   "Question 3: Does your pet have any existing medical conditions?";
   "Question 4: Is your pet currently taking any medications or supplements?";
   "Question 5: What is the main issue you are concerned about with your pet? Can you describe the symptoms?"].

(** One iteration of the [for] loop. *)
Definition ask (i : Z) (question : string) : M unit :=
  let questionNumber := i in
  try_catch
    ((if i =? 0
      then showToast "Welcome! Starting triage assessment..."
      else showToast ("Question " ++ string_of_Z i ++ " of 5")%string) ;;
     updateAudioIndicator "speaking" ;;
     _ <- playOpenAITTS (JStr question) ;;
     if i =? 0 then
       sleep 2000                       (* then [continue] *)
     else
       (sleep 1000 ;;
        updateAudioIndicator "listening" ;;
        showToast "Listening for your answer..." ;;
        response <- waitForUserResponse questionNumber ;;
        t <- Date_now ;;
        let turn := {| question := question;
                       timestamp := t;
                       response := response |} in
        captured <- read responses ;;
        write (set_responses (captured ++ [turn])) ;;
        emit (PushResponse turn) ;;
        updateAudioIndicator "speaking" ;;
        _ <- playOpenAITTS (JStr "Thank you.") ;;
        sleep 1000))
    (fun error =>
       emit (ConsoleError
               ("Error with question " ++ string_of_Z questionNumber ++ ":")%string)).

Fixpoint ask_from (i : Z) (qs : list string) : M unit :=
  match qs with
  | [] => ret tt
  | question :: rest => ask i question ;; ask_from (i + 1) rest
  end.

Definition displayTriageSummary (summary : JsVal) : M unit :=
  emit (DisplaySummary summary).

Definition startOpenAIQuestioningSequence_body : M unit :=
  write (set_responses []) ;;
  ask_from 0 questions ;;
  updateAudioIndicator "speaking" ;;
  _ <- playOpenAITTS
         (JStr "Thank you for providing that information. Let me analyze your responses and create a triage summary for you.") ;;
  captured <- read responses ;;
  triageSummary <- generateTriageSummary captured ;;
  setItem "vetai_triage_responses" (JArr (map turn_to_js captured)) ;;
  setItem "vetai_triage_summary" triageSummary ;;
  spokenSummary <- prop triageSummary "spokenSummary" ;;
  _ <- playOpenAITTS spokenSummary ;;
  updateAudioIndicator "listening" ;;
  showToast "Triage assessment complete! You can continue the conversation or end the session." ;;
  displayTriageSummary triageSummary ;;
  updateAudioIndicator "listening" ;;
  showToast "Triage complete! You can now ask additional questions.".

Definition startOpenAIQuestioningSequence : M JsVal :=
  call startOpenAIQuestioningSequence_body.

End Conversation.

(** ** Reading a run *)

Module Observe.

Import Js Conversation.

(** The events of a run, in the order they happened. *)
Definition events {A} (r : Completion A * Vars * list Event) : list Event :=
  rev (snd r).

Definition completion {A} (r : Completion A * Vars * list Event)
  : Completion A := fst (fst r).

Definition vars {A} (r : Completion A * Vars * list Event) : Vars :=
  snd (fst r).

Definition is_some {A} (o : option A) : bool :=
  match o with Some _ => true | None => false end.

Definition is_fetch (e : Event) : bool :=
  match e with Fetch _ _ => true | _ => false end.

(** A request that was answered with a 2xx status. *)
Definition succeeded (res : FetchResult) : bool :=
  match res with
  | Responded r => ok r
  | NetworkError => false
  end.

(** *** Teardown *)

Definition release_events_of (k : TrackKind) (v : Vars) : list Event :=
  if localTracks v k then [TrackStop k; TrackClose k; TrackClear k] else [].

(** What releasing the local media adds, for the handles held in [v]. *)
Definition release_events (v : Vars) : list Event :=
  release_events_of audioTrack v ++ release_events_of videoTrack v.

Definition is_track_event (e : Event) : bool :=
  match e with
  | TrackStop _ | TrackClose _ | TrackClear _ => true
  | _ => false
  end.

Definition is_client_leave (e : Event) : bool :=
  match e with
  | ClientLeave _ => true
  | _ => false
  end.

Inductive Phase : Type := StopAgent | ReleaseMedia | LeaveTransport.

Definition phase_of (e : Event) : option Phase :=
  match e with
  | Fetch (PostAgentLeave _) _ => Some StopAgent
  | TrackStop _ | TrackClose _ | TrackClear _ => Some ReleaseMedia
  | ClientLeave _ => Some LeaveTransport
  | _ => None
  end.

Fixpoint phases (l : list Event) : list Phase :=
  match l with
  | [] => []
  | e :: rest =>
      match phase_of e with
      | Some p => p :: phases rest
      | None => phases rest
      end
  end.

(** The phases come in non-decreasing rank. *)
Fixpoint in_order (rank : Phase -> nat) (l : list Phase) : bool :=
  match l with
  | p :: (q :: _) as rest => (rank p <=? rank q)%nat && in_order rank rest
  | _ => true
  end.

(** Agent, then media, then transport. *)
Definition agent_first (p : Phase) : nat :=
  match p with
  | StopAgent => 0
  | ReleaseMedia => 1
  | LeaveTransport => 2
  end.

(** Media, then agent, then transport. *)
Definition media_first (p : Phase) : nat :=
  match p with
  | ReleaseMedia => 0
  | StopAgent => 1
  | LeaveTransport => 2
  end.

(** The steps a teardown takes, for the handles held in [v]: the media
    of each track held, the agent when a handle is recorded, the
    transport when there is a client. *)
Definition teardown_phases (v : Vars) : list Phase :=
  phases (release_events v)
  ++ (if truthy (agoraConvoTaskID v) then [StopAgent] else [])
  ++ (if client v then [LeaveTransport] else []).

(** *** Starting the agent *)

Definition is_create (e : Event) : bool :=
  match e with Fetch (PostStart _) _ => true | _ => false end.

Definition is_stop (e : Event) : bool :=
  match e with Fetch (PostAgentLeave _) _ => true | _ => false end.

Definition is_network_step (e : Event) : bool :=
  match e with Fetch _ _ | Sleep _ => true | _ => false end.

(** The events from the first create request on. *)
Fixpoint from_first_create (l : list Event) : list Event :=
  match l with
  | [] => []
  | e :: rest => if is_create e then l else from_first_create rest
  end.

(** The first create request was answered with status 409. *)
Definition conflict (l : list Event) : bool :=
  match from_first_create l with
  | Fetch _ (Responded r) :: _ => status r =? 409
  | _ => false
  end.

(** [errorData.agent_id] of the conflict body, when it is there and
    truthy. *)
Definition conflict_agent_id (r : Response) : option JsVal :=
  match json r with
  | Some errorData =>
      match get_prop errorData "agent_id" with
      | Some a => if truthy a then Some a else None
      | None => None
      end
  | None => None
  end.

(** [retryData.agent_id] when the retry is answered with a 2xx status
    and a body that parses to something with properties. *)
Definition retry_handle (res : FetchResult) : option JsVal :=
  match res with
  | Responded r =>
      if ok r then
        match json r with
        | Some retryData => get_prop retryData "agent_id"
        | None => None
        end
      else None
  | NetworkError => None
  end.

(** After the conflict: one stop call, a wait of at least a second, one
    more create request, and nothing else on the network. *)
Definition one_retry_cycle (l : list Event) : bool :=
  match filter is_network_step (from_first_create l) with
  | [Fetch (PostStart _) _; Fetch (PostAgentLeave _) _; Sleep ms;
     Fetch (PostStart _) _] => 1000 <=? ms
  | _ => false
  end.

(** The values written to [agoraConvoTaskID], in order. *)
Fixpoint assignments (l : list Event) : list JsVal :=
  match l with
  | [] => []
  | SetTaskID x :: rest => x :: assignments rest
  | _ :: rest => assignments rest
  end.

(** *** Summary *)


Definition analysis_request (responses : list Turn) : Request :=
  PostAnalyzeTriage (answers_of responses) responses.

(** *** Sequencer *)

(** A question of the loop about to be asked: its number, its text, and
    the history and the variables the run has reached. *)
Record Asked : Type := {
  asked_number : Z;
  asked_question : string;
  asked_history : list Event;
  asked_vars : Vars
}.

(** The question has been announced. *)
Definition announced (a : Asked) : list Event :=
  AudioIndicator "speaking"
  :: Toast ("Question " ++ string_of_Z (asked_number a) ++ " of 5")%string
  :: asked_history a.

(** Its prompt, spoken. *)
Definition prompt (w : World) (a : Asked)
  : Completion JsVal * Vars * list Event :=
  playOpenAITTS (JStr (asked_question a)) w (announced a) (asked_vars a).

Definition prompt_plays (w : World) (a : Asked) : bool :=
  match completion (prompt w a) with
  | Normal _ => true
  | _ => false
  end.

(** The history when its listening window opens: the prompt has played,
    a second has passed, the indicator and the toast say listening. *)
Definition window_opens (w : World) (a : Asked) : list Event :=
  Toast "Listening for your answer..."
  :: AudioIndicator "listening"
  :: Sleep 1000
  :: snd (prompt w a) ++ announced a.

(** Its own listening window: what the microphone gives from then on,
    read with the handle the loop holds. *)
Definition own_window (w : World) (a : Asked) : Resolution * nat :=
  listen_window (localTracks (asked_vars a) audioTrack)
    (listening w (window_opens w a)).

(** The turn pushed for it: its text, the text its own window resolved
    with, and the clock read when the window has closed. *)
Definition own_turn (w : World) (a : Asked) : Turn :=
  {| question := asked_question a;
     timestamp :=
       now w (Listen (asked_number a) (fst (own_window w a))
                (snd (own_window w a))
              :: window_opens w a);
     response := response_text (fst (own_window w a)) (asked_number a) |}.

(** A question whose prompt does not play gets no turn. *)
Definition turn_of (w : World) (a : Asked) : option Turn :=
  if prompt_plays w a then Some (own_turn w a) else None.

(** Where the loop stands at each of the questions [qs], the first of
    which has number [i], when it starts from [h] and [v]. *)
Fixpoint asked_from (w : World) (i : Z) (qs : list string)
  (h : list Event) (v : Vars) : list Asked :=
  match qs with
  | [] => []
  | q :: rest =>
      {| asked_number := i; asked_question := q;
         asked_history := h; asked_vars := v |}
      :: asked_from w (i + 1) rest (snd (ask i q w h v) ++ h)
           (vars (ask i q w h v))
  end.

(** The questions of a run of the sequencer: those after the welcome,
    which is spoken with the turns emptied. *)
Definition asked (w : World) (h : list Event) (v : Vars) : list Asked :=
  let welcome := ask 0 (hd "" questions) w h (set_responses [] v) in
  asked_from w 1 (tl questions) (snd welcome ++ h) (vars welcome).

Fixpoint somes {A} (l : list (option A)) : list A :=
  match l with
  | [] => []
  | Some x :: rest => x :: somes rest
  | None :: rest => somes rest
  end.

Definition timed_out (r : Resolution * nat) : bool :=
  match fst r with
  | TimedOut => true
  | VoiceCompleted => false
  end.

(** *** Listening *)

Definition silent (dataArray : list Z) : Prop := voice dataArray = false.

(** *** Decimal digits *)

(** The number a run of decimal digits denotes, after the digits
    already read. *)
Fixpoint uint_value (d : Decimal.uint) (acc : Z) : Z :=
  match d with
  | Decimal.Nil => acc
  | Decimal.D0 l => uint_value l (10 * acc)
  | Decimal.D1 l => uint_value l (10 * acc + 1)
  | Decimal.D2 l => uint_value l (10 * acc + 2)
  | Decimal.D3 l => uint_value l (10 * acc + 3)
  | Decimal.D4 l => uint_value l (10 * acc + 4)
  | Decimal.D5 l => uint_value l (10 * acc + 5)
  | Decimal.D6 l => uint_value l (10 * acc + 6)
  | Decimal.D7 l => uint_value l (10 * acc + 7)
  | Decimal.D8 l => uint_value l (10 * acc + 8)
  | Decimal.D9 l => uint_value l (10 * acc + 9)
  end.

End Observe.

(** ** Concrete sessions and worlds *)

Module Scenario.

Import Js Conversation Observe.

Definition reply (status : Z) (text : string) (body : JsVal) : FetchResult :=
  Responded {| status := status; statusText := ""; text := text;
               json := Some body |}.

(** Every request is answered with 200 and an empty object, playback
    works, nobody speaks. *)
Definition calm_world : World :=
  {| fetch := fun _ _ => reply 200 "{}" (JObj []);
     now := fun _ => 0;
     client_leave := fun _ => true;
     audio_ends := fun _ => true;
     listening := fun _ => {| monitor_throws := false; frames := [] |};
     speechSynthesis := true;
     remote_playerlist := true |}.

(** Joined and published, no agent yet. *)
Definition joined_session : Vars :=
  {| client := true;
     localTracks := fun _ => true;
     options_channel := Some "vet-triage";
     agoraConvoTaskID := JStr "";
     conversationStartTime := None;
     petInfo := JNull;
     remoteUsers := [];
     sessionStorage := [];
     responses := [] |}.

(** The same with an agent running. *)
Definition active_session : Vars :=
  set_conversationStartTime (Some 0)
    (set_agoraConvoTaskID (JStr "agent-1") joined_session).

Definition with_fetch (f : list Event -> Request -> FetchResult) (w : World)
  : World :=
  {| fetch := f;
     now := now w;
     client_leave := client_leave w;
     audio_ends := audio_ends w;
     listening := listening w;
     speechSynthesis := speechSynthesis w;
     remote_playerlist := remote_playerlist w |}.

Definition token_reply : FetchResult :=
  reply 200 "" (JObj [("token", JStr "006abc")]).

(** The first create request meets a conflict that names the agent in
    the way; the second is accepted. *)
Definition conflict_then_accepted : World :=
  with_fetch
    (fun h rq =>
       match rq with
       | GetToken _ _ _ => token_reply
       | PostStart _ =>
           if existsb is_create h
           then reply 200 "" (JObj [("agent_id", JStr "fresh")])
           else reply 409 "conflict" (JObj [("agent_id", JStr "stale")])
       | _ => reply 200 "{}" (JObj [])
       end)
    calm_world.

(** The conflict body does not name an agent. *)
Definition conflict_unnamed : World :=
  with_fetch
    (fun h rq =>
       match rq with
       | GetToken _ _ _ => token_reply
       | PostStart _ =>
           reply 409 "conflict" (JObj [("reason", JStr "TaskConflict")])
       | _ => reply 200 "{}" (JObj [])
       end)
    calm_world.

(** The stop request is refused. *)
Definition stop_refused : World :=
  with_fetch
    (fun h rq =>
       match rq with
       | PostAgentLeave _ => reply 500 "upstream error" (JObj [])
       | _ => reply 200 "{}" (JObj [])
       end)
    calm_world.

(** No request gets through. *)
Definition offline : World :=
  with_fetch (fun _ _ => NetworkError) calm_world.

(** The audio fetched for the third question cannot be played. *)
Definition third_prompt_unplayable : World :=
  {| fetch := fetch calm_world;
     now := now calm_world;
     client_leave := client_leave calm_world;
     audio_ends := fun h =>
       match h with
       | Fetch (PostOpenAITTS s) _ :: _ =>
           negb (s =? nth 3 questions "")%string
       | _ => true
       end;
     listening := listening calm_world;
     speechSynthesis := speechSynthesis calm_world;
     remote_playerlist := remote_playerlist calm_world |}.

(** One loud poll, then nothing, on a display that draws a frame every
    17 ms (60 Hz, rounded up). *)
Definition burst_then_quiet : Cadence :=
  {| frame_ms := 17;
     energy := fun k =>
       match k with
       | O => repeat 255 128
       | S _ => repeat 0 128
       end |}.

Definition display_rate_window : Listening :=
  {| monitor_throws := false; frames := frames_of burst_then_quiet |}.

(** The server with its credentials, and a request for the agent's
    token. *)
Definition configured : Server.Env :=
  {| Server.AGORA_APPID := Some "app";
     Server.AGORA_APPCERTIFICATE := Some "cert" |}.



Definition odd_query : Server.Query :=
  {| Server.channelName := Some "vet-triage";
     Server.uid := Some "abc";
     Server.role := Some "moderator" |}.

(** A stand-in for the token builder that shows its arguments. *)
Definition show_token (appId cert channel : string) (uid : Z)
  (role : Server.RtcRole) (expire : Z) : string :=
  (channel ++ ":" ++ string_of_Z uid ++ ":" ++
   match role with
   | Server.PUBLISHER => "publisher"
   | Server.SUBSCRIBER => "subscriber"
   end ++ ":" ++ string_of_Z expire)%string.

End Scenario.

(** ** Reading a run, continued *)

Module Probe.

Import Js Conversation Observe.

(** The requests of a run with their answers, in order. *)
Fixpoint fetches (l : list Event) : list (Request * FetchResult) :=
  match l with
  | [] => []
  | Fetch rq res :: rest => (rq, res) :: fetches rest
  | _ :: rest => fetches rest
  end.

(** Every answer in the run is the oracle's, at some history. *)
Definition answered_by (w : World) (l : list Event) : Prop :=
  Forall (fun p => exists h, snd p = fetch w h (fst p)) (fetches l).

(** [aiTokenData.token], when the token request is answered with a body
    that parses to something with properties. *)
Definition token_of (res : FetchResult) : option JsVal :=
  match res with
  | Responded r =>
      match json r with
      | Some aiTokenData => get_prop aiTokenData "token"
      | None => None
      end
  | NetworkError => None
  end.

(** The run waited [ms] milliseconds at some point. *)
Definition slept (ms : Z) (l : list Event) : bool :=
  existsb (fun e => match e with Sleep m => m =? ms | _ => false end) l.

Definition is_conflict (res : FetchResult) : bool :=
  match res with
  | Responded r => negb (ok r) && (status r =? 409)
  | NetworkError => false
  end.

Definition is_failed_leave (e : Event) : bool :=
  match e with ClientLeave false => true | _ => false end.

Definition is_store (key : string) (e : Event) : bool :=
  match e with StoreItem k _ => (k =? key)%string | _ => false end.

Definition is_redirect (e : Event) : bool :=
  match e with ScheduleRedirect _ _ => true | _ => false end.

(** The values stored under [key], in order. *)
Fixpoint stored (key : string) (l : list Event) : list JsVal :=
  match l with
  | [] => []
  | StoreItem k x :: rest =>
      if (k =? key)%string then x :: stored key rest else stored key rest
  | _ :: rest => stored key rest
  end.

Definition is_display (e : Event) : bool :=
  match e with DisplaySummary _ => true | _ => false end.

(** Neither a write to the session storage nor the summary display. *)
Definition plain (e : Event) : bool :=
  match e with
  | StoreItem _ _ | DisplaySummary _ => false
  | _ => true
  end.

Definition voiced (dataArray : list Z) : Prop := voice dataArray = true.

(** The text of an answer nobody was heard to give. *)
Definition timed_out_text (questionNumber : Z) : string :=
  ("Response received for question " ++ string_of_Z questionNumber)%string.

Definition completed_text (questionNumber : Z) : string :=
  ("Voice response completed for question "
   ++ string_of_Z questionNumber)%string.

(** How the questioning sequence ends. *)
Inductive SequenceEnd : Type :=
| Completed (summary : JsVal)
| ClosingUnplayable            (* the closing message failed to play *)
| SummaryUnplayable (summary : JsVal).

(** The storage after the sequence has stored the turns and the
    summary. *)
Definition storage_with (summary : JsVal) (captured : list Turn)
  (store : list (string * JsVal)) : list (string * JsVal) :=
  ("vetai_triage_summary", summary)
  :: ("vetai_triage_responses", JArr (map turn_to_js captured))
  :: store.

(** What a run of the sequence from [v] looks like, by its ending. *)
Definition ended (w : World) (v : Vars) (ending : SequenceEnd)
  (r : Completion JsVal * Vars * list Event) : Prop :=
  match ending with
  | Completed summary =>
      completion r = Normal JUndefined
      /\ stored "vetai_triage_summary" (events r) = [summary]
      /\ filter is_display (events r) = [DisplaySummary summary]
      /\ stored "vetai_triage_responses" (events r)
         = [JArr (map turn_to_js (responses (vars r)))]
      /\ sessionStorage (vars r)
         = storage_with summary (responses (vars r)) (sessionStorage v)
      /\ truthy summary = true
      /\ hd_error (snd r)
         = Some (Toast "Triage complete! You can now ask additional questions.")
  | ClosingUnplayable =>
      completion r = Thrown MediaError
      /\ stored "vetai_triage_summary" (events r) = []
      /\ filter is_display (events r) = []
      /\ sessionStorage (vars r) = sessionStorage v
      /\ exists h, audio_ends w h = false
  | SummaryUnplayable summary =>
      completion r = Thrown MediaError
      /\ stored "vetai_triage_summary" (events r) = [summary]
      /\ filter is_display (events r) = []
      /\ sessionStorage (vars r)
         = storage_with summary (responses (vars r)) (sessionStorage v)
      /\ truthy summary = true
      /\ exists h, audio_ends w h = false
  end.

(** What [playWelcomeSequence] adds after a sequence that ended with
    [c]. *)
Definition welcome_fallback (c : Completion JsVal) : list Event :=
  match c with
  | Normal _ => []
  | _ => [ConsoleError "Error in welcome sequence:";
          Toast "Voice assistant ready! Please speak your concerns.";
          AudioIndicator "listening"]
  end.

Definition is_speech (e : Event) : bool :=
  match e with Speak _ => true | _ => false end.

Definition is_playback (e : Event) : bool :=
  match e with AudioPlay _ => true | _ => false end.

(** The character is neither a decimal digit nor, after a lone zero,
    the [x] of a hexadecimal prefix. *)
Definition ends_number (n : Z) (c : ascii) : Prop :=
  digit_value 10 c = None
  /\ (n = 0 -> c <> "x"%char /\ c <> "X"%char).


(** The analysis the server sent, when the call succeeded. *)
Definition analysis_of (res : FetchResult) : option JsVal :=
  match res with
  | Responded r => if ok r then json r else None
  | NetworkError => None
  end.

Definition has_key (k : string) (fields : list (string * JsVal)) : bool :=
  existsb (fun kv => (k =? fst kv)%string) fields.

(** The three fields [generateTriageSummary] writes itself. *)
Definition own_fields (t : Z) (petInfo : JsVal) (responses : list Turn)
  : list (string * JsVal) :=
  [("timestamp", JNum t);
   ("petInfo", petInfo);
   ("responses", JArr (map turn_to_js responses))].

Definition is_toast (e : Event) : bool :=
  match e with Toast _ => true | _ => false end.

(** The kinds of event [leaveChannel] can add. *)
Definition teardown_event (e : Event) : bool :=
  match e with
  | TrackStop _ | TrackClose _ | TrackClear _
  | ConsoleLog _ | ConsoleError _
  | Fetch (PostAgentLeave _) _ | SetTaskID _
  | ClientLeave _ | ClearRemoteUsers | ClearRemotePlayerList => true
  | _ => false
  end.

Definition is_registry_clear (e : Event) : bool :=
  match e with
  | ClearRemoteUsers | ClearRemotePlayerList => true
  | _ => false
  end.

(** The history [leaveChannel] has added to when it calls
    [stopConvoAI]. *)
Definition after_release (h : list Event) (v : Vars) : list Event :=
  rev (release_events v) ++ h.

(** The session record [endConversation] builds at time [t] from the
    variables [v]. *)
Definition session_record (t : Z) (v : Vars) : JsVal :=
  let triageSummary := getItem "vetai_triage_summary" (sessionStorage v) in
  JObj
    [("petInfo", petInfo v);
     ("startTime",
      match conversationStartTime v with
      | Some t0 => JNum t0
      | None => JUndefined
      end);
     ("endTime", JNum t);
     ("duration",
      match conversationStartTime v with
      | Some t0 => JNum (round_seconds (t - t0))
      | None => JNum 0
      end);
     ("triageSummary", triageSummary);
     ("mockSummary",
      if truthy triageSummary then JNull else generateMockSummary (petInfo v))].

(** The history when [endConversation] reads the clock for its record:
    the channel has been left, the status and the indicator updated. *)
Definition record_history (w : World) (h : list Event) (v : Vars)
  : list Event :=
  AudioIndicator "inactive"
  :: UpdateStatus "ended" "Session Ended"
  :: snd (leaveChannel w (ShowLoading "Ending session..." :: h) v)
  ++ ShowLoading "Ending session..." :: h.

Definition record_time (w : World) (h : list Event) (v : Vars) : Z :=
  now w (record_history w h v).

End Probe.

(** ** More sessions and worlds *)

Module Cases.

Import Js Conversation Observe.

(** [client.leave()] rejects. *)
Definition leave_rejected : World :=
  {| fetch := fetch Scenario.calm_world;
     now := now Scenario.calm_world;
     client_leave := fun _ => false;
     audio_ends := audio_ends Scenario.calm_world;
     listening := listening Scenario.calm_world;
     speechSynthesis := speechSynthesis Scenario.calm_world;
     remote_playerlist := remote_playerlist Scenario.calm_world |}.

(** A running session that has seen two remote users and has a stored
    summary. *)
Definition busy_session : Vars :=
  set_sessionStorage [("vetai_triage_summary", JObj [("urgencyLevel", JStr "Low")])]
    (set_remoteUsers [10001; 7]
       (set_conversationStartTime (Some 1000) Scenario.active_session)).

(** A display that draws a frame every 17 ms, in front of a user who
    makes one sound and falls silent. *)
Definition display_rate_world : World :=
  {| fetch := fetch Scenario.calm_world;
     now := now Scenario.calm_world;
     client_leave := client_leave Scenario.calm_world;
     audio_ends := audio_ends Scenario.calm_world;
     listening := fun _ => Scenario.display_rate_window;
     speechSynthesis := speechSynthesis Scenario.calm_world;
     remote_playerlist := remote_playerlist Scenario.calm_world |}.


(** The audio of the acknowledgement cannot be played; every other
    playback works. *)
Definition acknowledgement_unplayable : World :=
  {| fetch := fetch Scenario.calm_world;
     now := now Scenario.calm_world;
     client_leave := client_leave Scenario.calm_world;
     audio_ends := fun h =>
       match h with
       | Fetch (PostOpenAITTS s) _ :: _ => negb (s =? "Thank you.")%string
       | _ => true
       end;
     listening := listening Scenario.calm_world;
     speechSynthesis := speechSynthesis Scenario.calm_world;
     remote_playerlist := remote_playerlist Scenario.calm_world |}.

(** Before [createClient]. *)
Definition no_client : Vars :=
  {| client := false;
     localTracks := fun _ => false;
     options_channel := None;
     agoraConvoTaskID := JStr "";
     conversationStartTime := None;
     petInfo := JNull;
     remoteUsers := [];
     sessionStorage := [];
     responses := [] |}.

End Cases.

(** ** The other endpoints of the server *)

Module Backend.

Import Js.

(** [process.env], by variable name. *)
Definition ProcessEnv : Type := string -> option string.

(** The variables [GET /api/token] reads. *)
Definition token_env (env : ProcessEnv) : Server.Env :=
  {| Server.AGORA_APPID := env "AGORA_APPID";
     Server.AGORA_APPCERTIFICATE := env "AGORA_APPCERTIFICATE" |}.

(** [res.status(statusCode).json(sent)]; [res.json] leaves the status
    at 200. *)
Record Reply : Type := {
  statusCode : Z;
  sent : JsVal
}.

Definition res_json (x : JsVal) : Reply :=
  {| statusCode := 200; sent := x |}.

Definition res_status_json (code : Z) (x : JsVal) : Reply :=
  {| statusCode := code; sent := x |}.

(** *** /config *)

(** [process.env.X || null]. *)
Definition or_null (o : option string) : JsVal :=
  match o with
  | Some s => if (s =? "")%string then JNull else JStr s
  | None => JNull
  end.

Definition config_handler (env : ProcessEnv) : Reply :=
  res_json
    (JObj
       [("AGORA_APPID", or_null (env "AGORA_APPID"));
        ("AGORA_TOKEN", or_null (env "AGORA_TOKEN"));
        ("LLM_AWS_BEDROCK_KEY", or_null (env "LLM_AWS_BEDROCK_KEY"));
        ("LLM_AWS_BEDROCK_ACCESS_KEY",
         or_null (env "LLM_AWS_BEDROCK_ACCESS_KEY"));
        ("LLM_AWS_BEDROCK_SECRET_KEY",
         or_null (env "LLM_AWS_BEDROCK_SECRET_KEY"));
        ("OPENAI_KEY", or_null (env "OPENAI_KEY"));
        ("GROQ_KEY", or_null (env "GROQ_KEY"));
        ("TTS_MINIMAX_KEY", or_null (env "TTS_MINIMAX_KEY"));
        ("TTS_MINIMAX_GROUPID", or_null (env "TTS_MINIMAX_GROUPID"));
        ("AVATAR_AKOOL_KEY", or_null (env "AVATAR_AKOOL_KEY"))]).

(** *** The calls to the Agora REST API *)

Inductive Method : Type := GET | POST.

(** A request made with axios.  [credentials] is the text
    [apiKey:apiSecret]; the header carries it base64-encoded after
    [Basic]. *)
Record Upstream : Type := {
  method : Method;
  url : string;
  credentials : string;
  data : JsVal
}.

(** axios resolves on a 2xx status and rejects otherwise: with
    [err.response] when the API answered, without it when it could not
    be reached. *)
Inductive AxiosResult : Type :=
| Resolved (data : JsVal)
| Failed (response : option (Z * JsVal)) (message : string).

(** The API, as a function of the calls the handler has made so far
    (most recent first). *)
Definition Axios : Type := list Upstream -> Upstream -> AxiosResult.

Definition is_set (o : option string) : bool := Server.present o.

Definition value (o : option string) : string :=
  match o with Some s => s | None => "undefined" end.

Definition api : string :=
  "https://api.agora.io/api/conversational-ai-agent/v2/projects/".

Definition basicAuth (apiKey apiSecret : option string) : string :=
  (value apiKey ++ ":" ++ value apiSecret)%string.

Definition misconfigured : Reply :=
  res_status_json 500
    (JObj [("error",
            JStr "Server misconfigured: missing Agora credentials")]).

(** The end of a proxy: [res.json(response.data)], or the
    [catch] that passes on what the API answered, or 500 with the
    message. *)
Definition relay (r : AxiosResult) : Reply :=
  match r with
  | Resolved d => res_json d
  | Failed (Some (status, d)) _ => res_status_json status d
  | Failed None message =>
      res_status_json 500 (JObj [("error", JStr message)])
  end.

(** The calls of the proxies. *)
Definition join_call (env : ProcessEnv) (body : JsVal) : Upstream :=
  {| method := POST;
     url := (api ++ value (env "AGORA_APPID") ++ "/join")%string;
     credentials := basicAuth (env "AGORA_REST_KEY") (env "AGORA_REST_SECRET");
     data := body |}.

Definition leave_call (env : ProcessEnv) (agentId : string) : Upstream :=
  {| method := POST;
     url := (api ++ value (env "AGORA_APPID") ++ "/agents/" ++ agentId
             ++ "/leave")%string;
     credentials := basicAuth (env "AGORA_REST_KEY") (env "AGORA_REST_SECRET");
     data := JObj [] |}.

(** Each handler gives its reply and the calls it made, in the order it
    made them.  Console output is not recorded. *)

(** [POST /api/convo-ai/start]. *)
Definition start_handler (env : ProcessEnv) (axios : Axios) (body : JsVal)
  : Reply * list Upstream :=
  let appid := env "AGORA_APPID" in
  let apiKey := env "AGORA_REST_KEY" in
  let apiSecret := env "AGORA_REST_SECRET" in
  if negb (is_set appid) || negb (is_set apiKey) || negb (is_set apiSecret) then
    (misconfigured, [])
  else
    (relay (axios [] (join_call env body)), [join_call env body]).

(** [POST /api/convo-ai/agents/:agentId/leave]. *)
Definition leave_handler (env : ProcessEnv) (axios : Axios) (agentId : string)
  : Reply * list Upstream :=
  let appid := env "AGORA_APPID" in
  let apiKey := env "AGORA_REST_KEY" in
  let apiSecret := env "AGORA_REST_SECRET" in
  if negb (is_set appid) || negb (is_set apiKey) || negb (is_set apiSecret) then
    (misconfigured, [])
  else
    (relay (axios [] (leave_call env agentId)), [leave_call env agentId]).

(** *** /api/convo-ai/cleanup/:channelName *)

Inductive Found : Type :=
| Raised                  (* the callback threw a TypeError *)
| NotFound
| FoundAgent (a : JsVal).

(** [a.channel === channelName]; [None] is the TypeError on [null] and
    [undefined]. *)
Definition on_channel (channelName : string) (a : JsVal) : option bool :=
  match get_prop a "channel" with
  | Some (JStr c) => Some (c =? channelName)%string
  | Some _ => Some false
  | None => None
  end.

(** [agents.find(a => a.channel === channelName)]. *)
Fixpoint find (channelName : string) (agents : list JsVal) : Found :=
  match agents with
  | [] => NotFound
  | a :: rest =>
      match on_channel channelName a with
      | None => Raised
      | Some true => FoundAgent a
      | Some false => find channelName rest
      end
  end.

Definition not_cleaned : Reply :=
  res_json (JObj [("cleaned", JBool false)]).

(** The two calls of the cleanup: list the agents, stop one. *)
Definition list_call (env : ProcessEnv) : Upstream :=
  {| method := GET;
     url := (api ++ value (env "AGORA_APPID") ++ "/agents")%string;
     credentials := basicAuth (env "AGORA_REST_KEY") (env "AGORA_REST_SECRET");
     data := JUndefined |}.

Definition stop_call (env : ProcessEnv) (agent_id : JsVal) : Upstream :=
  leave_call env (to_string agent_id).

(** [staleAgent.agent_id]. *)
Definition agent_id_of (staleAgent : JsVal) : JsVal :=
  match get_prop staleAgent "agent_id" with
  | Some x => x
  | None => JUndefined
  end.

(** The inner [try] catches everything that follows the credentials
    check, so the outer [catch] has nothing left to catch. *)
Definition cleanup_handler (env : ProcessEnv) (axios : Axios)
  (channelName : string) : Reply * list Upstream :=
  let appid := env "AGORA_APPID" in
  let apiKey := env "AGORA_REST_KEY" in
  let apiSecret := env "AGORA_REST_SECRET" in
  if negb (is_set appid) || negb (is_set apiKey) || negb (is_set apiSecret) then
    (misconfigured, [])
  else
    match axios [] (list_call env) with
    | Failed _ _ => (not_cleaned, [list_call env])
    | Resolved listData =>
        match get_prop listData "agents" with
        | None => (not_cleaned, [list_call env])          (* TypeError *)
        | Some listed =>
            match (if truthy listed then listed else JArr []) with
            | JArr agents =>
                match find channelName agents with
                | Raised => (not_cleaned, [list_call env])
                | NotFound => (not_cleaned, [list_call env])
                | FoundAgent staleAgent =>
                    (* found by its [channel], so an object: truthy *)
                    let stopRq := stop_call env (agent_id_of staleAgent) in
                    match axios [list_call env] stopRq with
                    | Resolved _ =>
                        (res_json
                           (JObj [("cleaned", JBool true);
                                  ("agent_id", agent_id_of staleAgent)]),
                         [list_call env; stopRq])
                    | Failed _ _ =>
                        (not_cleaned, [list_call env; stopRq])
                    end
                end
            | _ =>
                (not_cleaned, [list_call env])  (* [find] is not a function *)
            end
        end
    end.

End Backend.

(** ** The vet call queue (server) *)

Module VetCalls.

Import Js.

(** An entry of [vetCallQueue].  The channel name and the request time
    are the values the request body held, whatever their type. *)
Record Call : Type := {
  channelName : JsVal;
  petInfo : JsVal;
  triageSummary : JsVal;
  requestTime : JsVal;
  status : string;
  vetJoined : bool;
  acceptedAt : option Z
}.

(** The keys of a [Map] are compared by SameValueZero: undefined, null,
    booleans, numbers and strings by value, arrays and objects by
    identity.  An array or an object is a key only as the channel name
    parsed from the body of one request, so it is the same object as no
    key the map holds and as no key that is looked up. *)
Definition same_key (a b : JsVal) : bool :=
  match a, b with
  | JUndefined, JUndefined => true
  | JNull, JNull => true
  | JBool x, JBool y => Bool.eqb x y
  | JNum n, JNum m => n =? m
  | JStr s, JStr t => (s =? t)%string
  | _, _ => false
  end.

(** [vetCallQueue]: a [Map], so its entries come in the order their
    keys were first set, one entry per key. *)
Definition Queue : Type := list (JsVal * Call).

Fixpoint Map_get (key : JsVal) (q : Queue) : option Call :=
  match q with
  | [] => None
  | (k, c) :: rest => if same_key key k then Some c else Map_get key rest
  end.

(** Setting a key that is there replaces its value where it is. *)
Fixpoint Map_set (key : JsVal) (c : Call) (q : Queue) : Queue :=
  match q with
  | [] => [(key, c)]
  | (k, c') :: rest =>
      if same_key key k then (k, c) :: rest
      else (k, c') :: Map_set key c rest
  end.

Fixpoint Map_delete (key : JsVal) (q : Queue) : Queue :=
  match q with
  | [] => []
  | (k, c) :: rest =>
      if same_key key k then rest else (k, c) :: Map_delete key rest
  end.

Definition or_empty (x : JsVal) : JsVal :=
  if truthy x then x else JObj [].

(** [requestTime || Date.now()]. *)
Definition or_now (t : JsVal) (now : Z) : JsVal :=
  if truthy t then t else JNum now.

Definition not_found : Backend.Reply :=
  Backend.res_status_json 404 (JObj [("error", JStr "Call not found")]).

(** [POST /api/vet-calls/request].  [body] is [req.body], whatever the
    body parsers left there; reading its properties throws a TypeError
    when it is undefined or null, and the handler then gives no answer
    of its own ([None]). *)
Definition request_handler (now : Z) (body : JsVal) (q : Queue)
  : option Backend.Reply * Queue :=
  match get_prop body "channelName", get_prop body "petInfo",
        get_prop body "triageSummary", get_prop body "requestTime" with
  | Some channelName, Some petInfo, Some triageSummary, Some requestTime =>
      if truthy channelName then
        let callRequest :=
          {| channelName := channelName;
             petInfo := or_empty petInfo;
             triageSummary := or_empty triageSummary;
             requestTime := or_now requestTime now;
             status := "pending";
             vetJoined := false;
             acceptedAt := None |} in
        (Some (Backend.res_json (JObj [("success", JBool true);
                                       ("channelName", channelName)])),
         Map_set channelName callRequest q)
      else
        (Some (Backend.res_status_json 400
                 (JObj [("error", JStr "Channel name required")])), q)
  | _, _, _, _ => (None, q)
  end.

(** The request times are used as numbers, in two subtractions.  Only
    those that are numbers are modelled: what the subtraction makes of
    another value (a string, an array), and the order the sort leaves
    when its comparator gives NaN, are left out. *)
Definition time_of (x : JsVal) : option Z :=
  match x with
  | JNum n => Some n
  | _ => None
  end.

(** An element of the [pending] array. *)
Record Pending : Type := {
  pending_channelName : JsVal;
  pending_petInfo : JsVal;
  pending_triageSummary : JsVal;
  pending_requestTime : Z;
  waitTime : Z
}.

(** The [forEach] over the queue; [None] when the request time of a
    pending call is not a number. *)
Fixpoint pending_of (now : Z) (q : Queue) : option (list Pending) :=
  match q with
  | [] => Some []
  | (channelName, call) :: rest =>
      if (status call =? "pending")%string then
        match time_of (requestTime call), pending_of now rest with
        | Some t, Some l =>
            Some ({| pending_channelName := channelName;
                     pending_petInfo := petInfo call;
                     pending_triageSummary := triageSummary call;
                     pending_requestTime := t;
                     waitTime := (now - t) / 1000 |} :: l)
        | _, _ => None
        end
      else pending_of now rest
  end.

(** [pending.sort((a, b) => a.requestTime - b.requestTime)]: the sort
    is stable, as every [Array.prototype.sort] has been since
    ES2019. *)
Fixpoint insert (a : Pending) (sorted : list Pending) : list Pending :=
  match sorted with
  | [] => [a]
  | b :: rest =>
      if pending_requestTime a - pending_requestTime b <=? 0
      then a :: sorted
      else b :: insert a rest
  end.

Fixpoint sort (l : list Pending) : list Pending :=
  match l with
  | [] => []
  | a :: rest => insert a (sort rest)
  end.

Definition pending_to_js (p : Pending) : JsVal :=
  JObj [("channelName", pending_channelName p);
        ("petInfo", pending_petInfo p);
        ("triageSummary", pending_triageSummary p);
        ("requestTime", JNum (pending_requestTime p));
        ("waitTime", JNum (waitTime p))].

Definition pending_calls (now : Z) (q : Queue) : option (list Pending) :=
  option_map sort (pending_of now q).

(** [GET /api/vet-calls/pending]; [None] where the request times are
    not modelled. *)
Definition pending_handler (now : Z) (q : Queue) : option Backend.Reply :=
  option_map
    (fun pending =>
       Backend.res_json (JObj [("calls", JArr (map pending_to_js pending))]))
    (pending_calls now q).

(** [GET /api/vet-calls/status/:channelName].  A route parameter is a
    string. *)
Definition status_handler (channelName : string) (q : Queue)
  : Backend.Reply :=
  match Map_get (JStr channelName) q with
  | None => not_found
  | Some call =>
      Backend.res_json
        (JObj [("channelName", JStr channelName);
               ("status", JStr (status call));
               ("vetJoined", JBool (vetJoined call))])
  end.

(** [POST /api/vet-calls/accept/:channelName]: the entry is changed
    where it is. *)
Definition accept_handler (now : Z) (channelName : string) (q : Queue)
  : Backend.Reply * Queue :=
  match Map_get (JStr channelName) q with
  | None => (not_found, q)
  | Some call =>
      let call :=
        {| channelName := VetCalls.channelName call;
           petInfo := petInfo call;
           triageSummary := triageSummary call;
           requestTime := requestTime call;
           status := "accepted";
           vetJoined := true;
           acceptedAt := Some now |} in
      (Backend.res_json (JObj [("success", JBool true);
                               ("channelName", JStr channelName)]),
       Map_set (JStr channelName) call q)
  end.

(** [POST /api/vet-calls/cancel/:channelName]. *)
Definition cancel_handler (channelName : string) (q : Queue)
  : Backend.Reply * Queue :=
  (Backend.res_json (JObj [("success", JBool true)]),
   Map_delete (JStr channelName) q).

(** The requests of the call queue API, each with the clock reading of
    its handler, and the queue they leave. *)
Inductive Api : Type :=
| PostRequest (now : Z) (body : JsVal)
| GetPending (now : Z)
| GetStatus (channelName : string)
| PostAccept (now : Z) (channelName : string)
| PostCancel (channelName : string).

Definition handle (rq : Api) (q : Queue) : Queue :=
  match rq with
  | PostRequest now body => snd (request_handler now body q)
  | GetPending now => q
  | GetStatus channelName => q
  | PostAccept now channelName => snd (accept_handler now channelName q)
  | PostCancel channelName => snd (cancel_handler channelName q)
  end.

(** The queue after a series of requests, starting from the empty
    queue the server starts with. *)
Definition serve (rqs : list Api) : Queue :=
  fold_left (fun q rq => handle rq q) rqs [].

End VetCalls.

(** ** Reading the server's answers *)

Module ServerObserve.

Import Js Backend VetCalls.

(** The three variables the calls to the Agora REST API need. *)
Definition configured (env : ProcessEnv) : bool :=
  is_set (env "AGORA_APPID") && is_set (env "AGORA_REST_KEY")
  && is_set (env "AGORA_REST_SECRET").

(** [env] with the variable [name] set to [x]. *)
Definition with_variable (name : string) (x : option string)
  (env : ProcessEnv) : ProcessEnv :=
  fun k => if (k =? name)%string then x else env k.

(** The variables the client must not see. *)
Definition secrets : list string :=
  ["AGORA_APPCERTIFICATE"; "AGORA_REST_KEY"; "AGORA_REST_SECRET"].

Definition fields_of (x : JsVal) : list (string * JsVal) :=
  match x with JObj fields => fields | _ => [] end.

Definition cleaned (agent_id : JsVal) : Reply :=
  res_json (JObj [("cleaned", JBool true); ("agent_id", agent_id)]).

Definition keys (q : Queue) : list JsVal := map fst q.

(** A value that is compared by what it holds: anything but an array
    or an object. *)
Definition primitive (x : JsVal) : bool :=
  match x with
  | JArr _ | JObj _ => false
  | _ => true
  end.

(** What holds of every entry the handlers store. *)
Definition entry_ok (kc : JsVal * Call) : Prop :=
  channelName (snd kc) = fst kc
  /\ truthy (fst kc) = true
  /\ ((status (snd kc) = "pending"
       /\ vetJoined (snd kc) = false /\ acceptedAt (snd kc) = None)
      \/ (status (snd kc) = "accepted"
          /\ vetJoined (snd kc) = true /\ acceptedAt (snd kc) <> None)).

Definition well_formed (q : Queue) : Prop :=
  NoDup (filter primitive (keys q)) /\ Forall entry_ok q.

(** The channels a route can name: the keys that are strings. *)
Fixpoint string_keys (q : Queue) : list string :=
  match q with
  | [] => []
  | (JStr s, _) :: rest => s :: string_keys rest
  | _ :: rest => string_keys rest
  end.

(** A pending call whose request time is not a number. *)
Definition untimed (kc : JsVal * Call) : bool :=
  (status (snd kc) =? "pending")%string
  && match time_of (requestTime (snd kc)) with
     | Some _ => false
     | None => true
     end.

Definition by_time (a b : Pending) : Prop :=
  pending_requestTime a <= pending_requestTime b.

Definition pending_status (channelName : string) : Reply :=
  res_json (JObj [("channelName", JStr channelName);
                  ("status", JStr "pending");
                  ("vetJoined", JBool false)]).

Definition accepted_status (channelName : string) : Reply :=
  res_json (JObj [("channelName", JStr channelName);
                  ("status", JStr "accepted");
                  ("vetJoined", JBool true)]).

(** Everything but the named channel. *)
Definition other_than (channelName : string) (p : Pending) : bool :=
  negb (same_key (JStr channelName) (pending_channelName p)).

Definition requested_at (t : Z) (p : Pending) : bool :=
  pending_requestTime p =? t.

End ServerObserve.

(** ** The rest of the page *)

Module Page.

Import Js Conversation.

(** *** playWelcomeSequence *)

Definition playWelcomeSequence_body : M unit :=
  try_catch
    (showToast "Starting AI triage with voice assistant..." ;;
     updateAudioIndicator "speaking" ;;
     _ <- startOpenAIQuestioningSequence ;;
     ret tt)
    (fun error =>
       emit (ConsoleError "Error in welcome sequence:") ;;
       showToast "Voice assistant ready! Please speak your concerns." ;;
       updateAudioIndicator "listening").

Definition playWelcomeSequence : M JsVal := call playWelcomeSequence_body.

(** *** The [beforeunload] listener *)

Definition beforeunload_body : M unit :=
  agoraConvoTaskID <- read agoraConvoTaskID ;;
  when (truthy agoraConvoTaskID)
    (_ <- stopConvoAI ;; ret tt).

Definition beforeunload : M JsVal := call beforeunload_body.

End Page.

(** ** The page against this server *)

Module Deployment.

Import Js Conversation.

Section Served.

Variable buildTokenWithUid :
  string -> string -> string -> Z -> Server.RtcRole -> Z -> string.

(** [JSON.stringify], the reason phrase of a status code, and the JSON
    value of the create request's body. *)
Variable stringify : JsVal -> string.
Variable reason : Z -> string.
Variable body_of : RequestData -> JsVal.

(** The server's environment and clock, the Agora REST API, and whatever
    answers the requests for which this server has no route; all may
    depend on what the page has done so far. *)
Variable env : Backend.ProcessEnv.
Variable clock : list Event -> Z.
Variable axios : list Event -> Backend.Axios.
Variable elsewhere : list Event -> Request -> FetchResult.

(** The reply as [fetch] hands it to the page.  [res.json(undefined)]
    sends an empty body.  Parsing the text drops the fields that are
    [undefined], which reads the same through [get_prop]. *)
Definition response_of (r : Backend.Reply) : Response :=
  {| status := Backend.statusCode r;
     statusText := reason (Backend.statusCode r);
     text := match Backend.sent r with
             | JUndefined => ""
             | x => stringify x
             end;
     json := match Backend.sent r with
             | JUndefined => None
             | x => Some x
             end |}.

(** [res.status(...).json({ error })] and [res.json({ token })]. *)
Definition token_reply_of (r : Server.HttpResponse) : Backend.Reply :=
  {| Backend.statusCode := Server.status r;
     Backend.sent :=
       match Server.body r with
       | Server.ErrorBody error => JObj [("error", JStr error)]
       | Server.TokenBody token => JObj [("token", JStr token)]
       end |}.

(** The routes, for names and ids that need no escaping in a URL. *)
Definition served_fetch (h : list Event) (rq : Request) : FetchResult :=
  match rq with
  | GetToken channelName uid role =>
      Responded
        (response_of
           (token_reply_of
              (Server.token_handler buildTokenWithUid (Backend.token_env env)
                 (clock h)
                 {| Server.channelName := Some channelName;
                    Server.uid := Some uid;
                    Server.role := Some role |})))
  | PostCleanup channel =>
      Responded
        (response_of (fst (Backend.cleanup_handler env (axios h) channel)))
  | PostStart body =>
      Responded
        (response_of
           (fst (Backend.start_handler env (axios h) (body_of body))))
  | PostAgentLeave agentId =>
      Responded
        (response_of (fst (Backend.leave_handler env (axios h) agentId)))
  | other => elsewhere h other
  end.

(** The world in which every request of the page reaches this server. *)
Definition served (w : World) : World :=
  Scenario.with_fetch served_fetch w.

(** The token the server mints for the agent when the page asks at
    history [h], or [undefined] when it answers with an error. *)
Definition agent_token (channel : string) (h : list Event) : JsVal :=
  if Server.present (env "AGORA_APPID")
     && Server.present (env "AGORA_APPCERTIFICATE")
  then JStr (buildTokenWithUid
               (Server.value (env "AGORA_APPID"))
               (Server.value (env "AGORA_APPCERTIFICATE"))
               channel 10001 Server.PUBLISHER
               (Server.currentTimestamp (clock h) + 3600))
  else JUndefined.

(** 2xx. *)
Definition accepted (r : Backend.AxiosResult) : bool :=
  match r with
  | Backend.Resolved _ => true
  | Backend.Failed (Some (s, _)) _ => (200 <=? s) && (s <=? 299)
  | Backend.Failed None _ => false
  end.

End Served.

End Deployment.

(** ** Server scenarios *)

Module ServerCases.

Import Js Backend VetCalls.

Definition env_of (l : list (string * string)) : ProcessEnv :=
  fun k =>
    match List.find (fun kv => (fst kv =? k)%string) l with
    | Some kv => Some (snd kv)
    | None => None
    end.

Definition rest_env : ProcessEnv :=
  env_of [("AGORA_APPID", "app"); ("AGORA_APPCERTIFICATE", "cert");
          ("AGORA_REST_KEY", "key"); ("AGORA_REST_SECRET", "secret")].

(** Two agents on the channel, behind one on another channel. *)
Definition two_stale : JsVal :=
  JObj [("agents",
         JArr [JObj [("agent_id", JStr "a0"); ("channel", JStr "lobby")];
               JObj [("agent_id", JStr "a1"); ("channel", JStr "vet-triage")];
               JObj [("agent_id", JStr "a2"); ("channel", JStr "vet-triage")]])].

Definition lists_two_stale : Axios :=
  fun made rq =>
    match method rq with
    | GET => Resolved two_stale
    | POST => Resolved (JObj [])
    end.

(** The body of a call request: a channel name and a request time. *)
Definition call_for (channelName requestTime : JsVal) : JsVal :=
  JObj [("channelName", channelName); ("requestTime", requestTime)].

Definition anonymous_call : JsVal := JObj [].

(** Two calls, the first of them accepted. *)
Definition busy_day : list Api :=
  [PostRequest 1000 (call_for (JStr "rex") JUndefined);
   PostRequest 2000 (call_for (JStr "tom") (JNum 500));
   PostAccept 3000 "rex"].

(** Then a call named by the number 5, and twice a call named by an
    array. *)
Definition odd_names : list Api :=
  busy_day ++
  [PostRequest 4000 (call_for (JNum 5) JUndefined);
   PostRequest 5000 (call_for (JArr [JStr "rex"]) JUndefined);
   PostRequest 6000 (call_for (JArr [JStr "rex"]) JUndefined)].

(** A call whose request time is a text. *)
Definition text_time : list Api :=
  busy_day ++ [PostRequest 4000 (call_for (JStr "ann") (JStr "noon"))].

(** The page, with every request of its start reaching the server of
    [rest_env]; speech and analysis are not on this server. *)
Definition deployed_calm : Conversation.World :=
  Deployment.served Scenario.show_token (fun _ => "") (fun _ => "")
    (fun _ => JObj []) rest_env (fun _ => 0) (fun _ => lists_two_stale)
    (fun _ _ => Conversation.NetworkError) Scenario.calm_world.

End ServerCases.

(** ** Proof tools *)

Ltac unfold_monad :=
  unfold Conversation.call, Conversation.try_catch, Conversation.bind,
    Conversation.ret, Conversation.throw, Conversation.return_,
    Conversation.return_promise, Conversation.emit, Conversation.read,
    Conversation.write, Conversation.when, Conversation.do_fetch,
    Conversation.sleep, Conversation.assign_agoraConvoTaskID,
    Conversation.assign_conversationStartTime, Conversation.Date_now,
    Conversation.response_json, Conversation.prop, Conversation.showToast,
    Conversation.showLoading, Conversation.hideLoading,
    Conversation.updateStatus, Conversation.updateAudioIndicator.

Ltac eval_white_space :=
  repeat match goal with
         | |- context [Js.is_white_space ?c] =>
             let b := eval vm_compute in (Js.is_white_space c) in
             change (Js.is_white_space c) with b
         end.

Ltac eval_digit :=
  match goal with
  | |- context [Js.digit_value 10 ?c] =>
      let v := eval vm_compute in (Js.digit_value 10 c) in
      change (Js.digit_value 10 c) with v
  end.

(** ** parseInt on decimal numerals *)

Module ParseIntProps.

Import Js Observe.

Lemma parse_digits_uint d : forall acc a,
  match acc with Some x => x | None => 0 end = a ->
  (d <> Decimal.Nil \/ acc <> None) ->
  parse_digits 10 (NilEmpty.string_of_uint d) acc = Some (uint_value d a).
Proof.
  induction d; intros acc a Ha Hne;
    cbn [NilEmpty.string_of_uint parse_digits uint_value].
  1: { destruct acc; [now subst | destruct Hne; congruence]. }
  all: eval_digit; rewrite Ha; apply IHd;
    [ cbn [uint_value]; lia | right; discriminate ].
Qed.

Lemma of_uint_acc_value d : forall acc,
  Zpos (Pos.of_uint_acc d acc) = uint_value d (Zpos acc).
Proof.
  induction d; intros acc; cbn [Pos.of_uint_acc uint_value]; try reflexivity;
    rewrite IHd; f_equal; lia.
Qed.

Lemma of_uint_value d : Z.of_N (Pos.of_uint d) = uint_value d 0.
Proof.
  induction d; cbn [Pos.of_uint uint_value Z.of_N]; try reflexivity;
    try (rewrite of_uint_acc_value; reflexivity).
  change (10 * 0) with 0. exact IHd.
Qed.

Lemma parseInt_digits d :
  d <> Decimal.Nil ->
  parseInt (Some (NilEmpty.string_of_uint d)) = Some (uint_value d 0).
Proof.
  intros Hd.
  assert (P : parse_digits 10 (NilEmpty.string_of_uint d) None
              = Some (uint_value d 0))
    by (apply parse_digits_uint; [reflexivity | now left]).
  unfold parseInt.
  destruct d as [|l|l|l|l|l|l|l|l|l|l]; try congruence;
    try (cbn [NilEmpty.string_of_uint skip_white_space] in *;
         eval_white_space; cbv iota beta;
         rewrite P; f_equal; lia).
  destruct l; cbn [NilEmpty.string_of_uint skip_white_space] in *;
    eval_white_space; cbv iota beta;
    rewrite P; f_equal; lia.
Qed.

(** A number written in decimal is read back as itself. *)
Lemma parseInt_string_of_Z n :
  0 <= n -> parseInt (Some (string_of_Z n)) = Some n.
Proof.
  intros Hn. unfold string_of_Z.
  destruct n as [|p|p]; [reflexivity | | lia].
  cbn [Z.to_int NilZero.string_of_int].
  pose proof (DecimalPos.Unsigned.to_uint_nonnil p) as NN.
  assert (S : NilZero.string_of_uint (Pos.to_uint p)
              = NilEmpty.string_of_uint (Pos.to_uint p))
    by (destruct (Pos.to_uint p); [contradiction | reflexivity..]).
  rewrite S, parseInt_digits by exact NN.
  rewrite <- of_uint_value, DecimalPos.Unsigned.of_to. reflexivity.
Qed.

End ParseIntProps.

(** ** The token endpoint *)

Module TokenProps.

Import Js Server.

Lemma tokenRole_subscriber_iff r :
  tokenRole_of r = SUBSCRIBER <-> r = Some "subscriber".
Proof.
  unfold tokenRole_of. destruct r as [s|].
  - destruct (String.eqb_spec s "subscriber") as [-> | N]; split;
      try reflexivity; try discriminate.
    intros [= E]. contradiction.
  - split; discriminate.
Qed.

Lemma tokenRole_publisher_otherwise r :
  r <> Some "subscriber" -> tokenRole_of r = PUBLISHER.
Proof.
  intros N. destruct (tokenRole_of r) eqn:E; [reflexivity|].
  apply tokenRole_subscriber_iff in E. contradiction.
Qed.

Section Handler.

Variable buildTokenWithUid :
  string -> string -> string -> Z -> RtcRole -> Z -> string.

Lemma handler_missing_credentials env now_ms q :
  present (AGORA_APPID env) = false \/
  present (AGORA_APPCERTIFICATE env) = false ->
  token_handler buildTokenWithUid env now_ms q =
    {| status := 500; body := ErrorBody "Missing Agora credentials" |}.
Proof.
  unfold token_handler.
  intros [E | E]; rewrite E; cbn; [reflexivity|].
  now rewrite orb_true_r.
Qed.

Lemma handler_mints env now_ms q :
  present (AGORA_APPID env) = true ->
  present (AGORA_APPCERTIFICATE env) = true ->
  present (channelName q) = true ->
  token_handler buildTokenWithUid env now_ms q =
    {| status := 200;
       body := TokenBody
                 (buildTokenWithUid
                    (value (AGORA_APPID env))
                    (value (AGORA_APPCERTIFICATE env))
                    (value (channelName q))
                    (userUid_of (uid q))
                    (tokenRole_of (role q))
                    (currentTimestamp now_ms + 3600)) |}.
Proof.
  unfold token_handler.
  intros -> -> ->. reflexivity.
Qed.

(** C10.  With credentials set and a non-empty channelName the
    endpoint answers 200 with a token whatever the role and uid are:
    a role other than exactly "subscriber" (absent included) gives
    the publisher role, a uid that parseInt reads as a number is used
    as that number, and any other uid (absent included) gives 0. *)
Theorem token_role_and_uid_defaults env now_ms q :
  present (AGORA_APPID env) = true ->
  present (AGORA_APPCERTIFICATE env) = true ->
  present (channelName q) = true ->
  exists token,
    token_handler buildTokenWithUid env now_ms q =
      {| status := 200; body := TokenBody token |}
    /\ token =
         buildTokenWithUid
           (value (AGORA_APPID env))
           (value (AGORA_APPCERTIFICATE env))
           (value (channelName q))
           (userUid_of (uid q))
           (tokenRole_of (role q))
           (currentTimestamp now_ms + 3600)
    /\ (role q <> Some "subscriber" -> tokenRole_of (role q) = PUBLISHER)
    /\ (role q = Some "subscriber" -> tokenRole_of (role q) = SUBSCRIBER)
    /\ (forall n, parseInt (uid q) = Some n -> userUid_of (uid q) = n)
    /\ (parseInt (uid q) = None -> userUid_of (uid q) = 0)
    /\ parseInt None = None
    /\ parseInt (Some "") = None
    /\ parseInt (Some "abc") = None.
Proof.
  intros Ha Hc Hn. eexists. split; [now apply handler_mints|].
  split; [reflexivity|].
  split; [apply tokenRole_publisher_otherwise|].
  split; [now intros ->|].
  unfold userUid_of.
  split; [now intros n ->|]. split; [now intros ->|].
  repeat split.
Qed.

End Handler.


(** A request with an unknown role and a uid that is not a number. *)
Lemma token_role_and_uid_defaults_witness :
  exists token,
    token_handler Scenario.show_token Scenario.configured 1700000000999
      Scenario.odd_query = {| status := 200; body := TokenBody token |}
    /\ token = "vet-triage:0:publisher:1700003600".
Proof.
  destruct (token_role_and_uid_defaults Scenario.show_token
              Scenario.configured 1700000000999 Scenario.odd_query
              eq_refl eq_refl eq_refl)
    as (token & E & -> & _).
  eexists. split; [exact E | reflexivity].
Defined.

End TokenProps.

(** ** Teardown: stopConvoAI, leaveChannel, endConversation *)

Module TeardownProps.

Import Js Conversation Observe.

Lemma stopConvoAI_run w h v :
  stopConvoAI w h v =
    if truthy (agoraConvoTaskID v) then
      let rq := PostAgentLeave (to_string (agoraConvoTaskID v)) in
      let res := fetch w (ConsoleLog "Stopping Convo AI..." :: h) rq in
      if succeeded res then
        (Normal JUndefined, set_agoraConvoTaskID (JStr "") v,
         [SetTaskID (JStr ""); ConsoleLog "Convo AI stopped successfully";
          Fetch rq res; ConsoleLog "Stopping Convo AI..."])
      else
        (Normal JUndefined, v,
         [ConsoleError "Error stopping Convo AI:";
          Fetch rq res; ConsoleLog "Stopping Convo AI..."])
    else
      (Normal JUndefined, v, [ConsoleLog "No active agent to stop"]).
Proof.
  unfold stopConvoAI, stopConvoAI_body. unfold_monad.
  destruct (truthy (agoraConvoTaskID v)); cbn; [|reflexivity].
  destruct (fetch w _ _) as [|r]; cbn; [reflexivity|].
  destruct (ok r); reflexivity.
Qed.

Ltac split_run :=
  repeat match goal with
         | |- context [localTracks ?v ?k] =>
             is_var v; destruct (localTracks v k) eqn:?
         | |- context [truthy (agoraConvoTaskID ?v)] =>
             is_var v; destruct (truthy (agoraConvoTaskID v)) eqn:?
         | |- context [succeeded (fetch ?w ?h ?rq)] =>
             destruct (succeeded (fetch w h rq)) eqn:?
         | |- context [if client ?v then _ else _] =>
             is_var v; destruct (client v) eqn:?
         | |- context [client_leave ?w ?h] =>
             destruct (client_leave w h) eqn:?
         | |- context [remote_playerlist ?w] =>
             destruct (remote_playerlist w) eqn:?
         | _ => progress cbn
         end.

(** The shape of every run of [leaveChannel]. *)
Lemma leaveChannel_media_first w h v :
  completion (leaveChannel w h v) = Normal JUndefined
  /\ localTracks (vars (leaveChannel w h v)) audioTrack = false
  /\ localTracks (vars (leaveChannel w h v)) videoTrack = false
  /\ exists rest,
       events (leaveChannel w h v) = release_events v ++ rest
       /\ forallb (fun e => negb (is_track_event e)) rest = true
       /\ (if client v then existsb is_client_leave rest = true else True)
       /\ in_order media_first (phases (release_events v ++ rest)) = true.
Proof.
  unfold completion, vars, events, release_events, release_events_of.
  unfold leaveChannel, leaveChannel_body, release_track, do_client_leave.
  unfold_monad. cbn.
  destruct (localTracks v audioTrack) eqn:Ea;
  destruct (localTracks v videoTrack) eqn:Ev; cbn;
    rewrite ?Ea, ?Ev; cbn; rewrite stopConvoAI_run;
    cbn; split_run.
  all: try congruence.
  all: repeat split; try reflexivity; try assumption.
  all: eexists; split; [reflexivity | repeat split; reflexivity].
Qed.

Lemma phases_app l1 l2 : phases (l1 ++ l2) = phases l1 ++ phases l2.
Proof.
  induction l1 as [|e l1 IH]; cbn; [reflexivity|].
  destruct (phase_of e); cbn; now rewrite IH.
Qed.

(** C3, as the specification words it, fails: with both tracks held and
    an agent running, the tracks are released before the agent is
    stopped. *)
Lemma teardown_not_agent_first :
  phases (events (endConversation Scenario.calm_world []
                    Scenario.active_session)) =
    [ReleaseMedia; ReleaseMedia; ReleaseMedia;
     ReleaseMedia; ReleaseMedia; ReleaseMedia;
     StopAgent; LeaveTransport]
  /\ in_order agent_first
       (phases (events (endConversation Scenario.calm_world []
                          Scenario.active_session)))
     = false.
Proof. split; reflexivity. Qed.

Lemma leaveChannel_phases w h v :
  phases (events (leaveChannel w h v)) = teardown_phases v.
Proof.
  unfold teardown_phases, events, release_events, release_events_of.
  unfold leaveChannel, leaveChannel_body, release_track, do_client_leave.
  unfold_monad. cbn.
  destruct (localTracks v audioTrack) eqn:Ea;
  destruct (localTracks v videoTrack) eqn:Ev; cbn;
    rewrite ?Ea, ?Ev; cbn; rewrite stopConvoAI_run;
    cbn; split_run.
  all: try congruence.
  all: reflexivity.
Qed.

Lemma endConversation_phases w h v :
  phases (events (endConversation w h v)) = teardown_phases v.
Proof.
  rewrite <- (leaveChannel_phases w (ShowLoading "Ending session..." :: h) v).
  destruct (leaveChannel_media_first w (ShowLoading "Ending session..." :: h) v)
    as (Hc & _).
  unfold completion, events in *.
  unfold endConversation, endConversation_body, setItem. unfold_monad.
  cbn.
  destruct (leaveChannel w _ v) as [[c v'] d]. cbn in Hc. subst c.
  cbn.
  destruct (truthy (getItem "vetai_triage_summary" (sessionStorage v')));
    cbn.
  all: rewrite ?rev_app_distr; cbn; rewrite <- ?app_assoc; cbn;
    rewrite ?rev_app_distr; cbn;
    rewrite !phases_app; cbn; rewrite ?app_nil_r; reflexivity.
Qed.

(** C3, amended.  Every run of [leaveChannel] and of [endConversation]
    takes the same teardown steps, in one order: each local media track
    that is held is stopped, closed and cleared, audio then video; then,
    when an agent handle is recorded, the one request that stops the
    agent is sent; then, when there is a client, the transport channel
    is left.  No step is taken twice and none is taken out of that
    order, whatever the stop request and the leave call meet. *)
Theorem teardown_media_agent_transport w h v :
  phases (events (leaveChannel w h v)) = teardown_phases v
  /\ phases (events (endConversation w h v)) = teardown_phases v
  /\ teardown_phases v =
       repeat ReleaseMedia (List.length (release_events v))
       ++ (if truthy (agoraConvoTaskID v) then [StopAgent] else [])
       ++ (if client v then [LeaveTransport] else [])
  /\ in_order media_first (teardown_phases v) = true.
Proof.
  split; [apply leaveChannel_phases|].
  split; [apply endConversation_phases|].
  unfold teardown_phases, release_events, release_events_of.
  destruct (localTracks v audioTrack), (localTracks v videoTrack),
    (truthy (agoraConvoTaskID v)), (client v); split; reflexivity.
Qed.

(** C5.  Every run of [leaveChannel] begins by stopping, closing and
    clearing each local track that is held, audio then video; nothing
    after that touches a track, the call to [client.leave()] comes after
    it, and both handles are clear at the end whether or not that call
    succeeds (and whether or not any track was held). *)
Theorem leaveChannel_releases_media_first w h v :
  completion (leaveChannel w h v) = Normal JUndefined
  /\ localTracks (vars (leaveChannel w h v)) audioTrack = false
  /\ localTracks (vars (leaveChannel w h v)) videoTrack = false
  /\ exists rest,
       events (leaveChannel w h v) = release_events v ++ rest
       /\ forallb (fun e => negb (is_track_event e)) rest = true
       /\ existsb is_client_leave (release_events v) = false
       /\ (if client v then existsb is_client_leave rest = true else True).
Proof.
  destruct (leaveChannel_media_first w h v)
    as (Hc & Ha & Hv & rest & He & Hr & Hl & _).
  repeat split; try assumption.
  exists rest. repeat split; try assumption.
  unfold release_events, release_events_of.
  destruct (localTracks v audioTrack), (localTracks v videoTrack);
    reflexivity.
Qed.

(** C6.  [stopConvoAI] never throws.  With no handle recorded it only
    writes a console line: no request, no change.  With a handle it
    sends one request, the leave call for that handle, clears the handle
    when the answer is 2xx and keeps it otherwise, logging the failure.
    Whatever the stop call meets, [leaveChannel] still calls
    [client.leave()] when there is a client. *)
Theorem stopConvoAI_best_effort w h v :
  completion (stopConvoAI w h v) = Normal JUndefined
  /\ (truthy (agoraConvoTaskID v) = false ->
      stopConvoAI w h v =
        (Normal JUndefined, v, [ConsoleLog "No active agent to stop"]))
  /\ (truthy (agoraConvoTaskID v) = true ->
      exists res,
        filter is_fetch (events (stopConvoAI w h v)) =
          [Fetch (PostAgentLeave (to_string (agoraConvoTaskID v))) res]
        /\ agoraConvoTaskID (vars (stopConvoAI w h v)) =
             (if succeeded res then JStr "" else agoraConvoTaskID v)
        /\ (succeeded res = false ->
            In (ConsoleError "Error stopping Convo AI:")
               (events (stopConvoAI w h v))))
  /\ (client v = true ->
      existsb is_client_leave (events (leaveChannel w h v)) = true).
Proof.
  rewrite stopConvoAI_run. unfold completion, vars, events.
  split; [|split; [|split]].
  - destruct (truthy _); cbn; [destruct (succeeded _)|]; reflexivity.
  - now intros ->.
  - intros ->. cbn.
    exists (fetch w (ConsoleLog "Stopping Convo AI..." :: h)
              (PostAgentLeave (to_string (agoraConvoTaskID v)))).
    destruct (succeeded _) eqn:E; cbn;
      (split; [reflexivity|]); (split; [reflexivity|]);
      intros F; [discriminate | auto].
  - intros Hc.
    destruct (leaveChannel_media_first w h v)
      as (_ & _ & _ & rest & He & _ & Hl & _).
    unfold events in He. rewrite He, Hc in *.
    rewrite existsb_app, Hl. apply orb_true_r.
Qed.

(** A running session whose stop request is refused: the handle stays,
    the channel is still left. *)
Lemma stopConvoAI_best_effort_witness :
  agoraConvoTaskID
    (vars (stopConvoAI Scenario.stop_refused [] Scenario.active_session))
    = JStr "agent-1"
  /\ existsb is_client_leave
       (events (leaveChannel Scenario.stop_refused [] Scenario.active_session))
     = true.
Proof.
  destruct (stopConvoAI_best_effort Scenario.stop_refused []
              Scenario.active_session) as (_ & _ & Hs & Hl).
  split.
  - destruct (Hs eq_refl) as (res & _ & _ & _). reflexivity.
  - apply Hl. reflexivity.
Defined.

End TeardownProps.

(** ** Starting the agent: conflict and retry *)

Module StartProps.

Import Js Conversation Observe.

Lemma ok_not_conflict r : ok r = true -> (status r =? 409) = true -> False.
Proof.
  unfold ok. rewrite andb_true_iff, !Z.leb_le, Z.eqb_eq. lia.
Qed.

Lemma filter_from_first_create l :
  filter is_create (from_first_create l) = filter is_create l.
Proof.
  induction l as [|e l IH]; [reflexivity|].
  cbn [from_first_create]. destruct (is_create e) eqn:E; [reflexivity|].
  cbn [filter]. now rewrite E.
Qed.

Lemma filter_twice {A} (f g : A -> bool) l :
  (forall x, f x = true -> g x = true) ->
  filter f (filter g l) = filter f l.
Proof.
  intros Hfg. induction l as [|x l IH]; [reflexivity|].
  cbn. destruct (g x) eqn:Eg; cbn.
  - destruct (f x); now rewrite IH.
  - destruct (f x) eqn:Ef; [|exact IH].
    apply Hfg in Ef. congruence.
Qed.

Lemma create_is_network_step e : is_create e = true -> is_network_step e = true.
Proof. destruct e; cbn; intros H; try discriminate; reflexivity. Qed.

Lemma stop_is_network_step e : is_stop e = true -> is_network_step e = true.
Proof. destruct e; cbn; intros H; try discriminate; reflexivity. Qed.

Ltac next_branch :=
  match goal with
  | |- context [fetch ?w ?h ?rq] =>
      let r := fresh "r" in destruct (fetch w h rq) as [|r] eqn:?
  | |- context [match json ?r with _ => _ end] =>
      destruct (json r) eqn:?
  | |- context [match get_prop ?d ?k with _ => _ end] =>
      destruct (get_prop d k) eqn:?
  | |- context [if ok ?r then _ else _] => destruct (ok r) eqn:?
  | |- context [if negb (ok ?r) then _ else _] => destruct (ok r) eqn:?
  | |- context [if truthy ?a then _ else _] => destruct (truthy a) eqn:?
  | |- context [status ?r =? 409] => destruct (status r =? 409) eqn:?
  | |- context [if client ?v then _ else _] => destruct (client v) eqn:?
  | |- context [if negb (client ?v) || _ then _ else _] =>
      destruct (client v) eqn:?
  | |- context [present (options_channel ?v)] =>
      destruct (present (options_channel v)) eqn:?
  end.

Ltac run_start :=
  unfold events, completion, vars;
  unfold startVetConvoAI, startVetConvoAI_body; unfold_monad;
  cbn - [Z.eqb to_string];
  repeat (next_branch; cbn - [Z.eqb to_string]).

Ltac use_equations :=
  repeat match goal with
         | H : json _ = _ |- _ => rewrite H
         | H : get_prop _ _ = _ |- _ => rewrite H
         | H : truthy _ = _ |- _ => rewrite H
         | H : ok _ = _ |- _ => rewrite H
         end.

(** Every run whose first create request meets a conflict. *)
Lemma startVetConvoAI_conflict_run w h v :
  conflict (events (startVetConvoAI w h v)) = true ->
  exists body r1 after,
    from_first_create (events (startVetConvoAI w h v)) =
      Fetch (PostStart body) (Responded r1) :: after
    /\ status r1 = 409
    /\ filter is_stop (events (startVetConvoAI w h v)) = filter is_stop after
    /\ match conflict_agent_id r1 with
       | Some a =>
           exists stop_res,
             match stop_res with
             | NetworkError =>
                 filter is_network_step after =
                   [Fetch (PostAgentLeave (to_string a)) NetworkError]
                 /\ completion (startVetConvoAI w h v) = Normal (JBool false)
                 /\ assignments (events (startVetConvoAI w h v)) = []
                 /\ vars (startVetConvoAI w h v) = v
             | Responded _ =>
                 exists retry_res,
                   filter is_network_step after =
                     [Fetch (PostAgentLeave (to_string a)) stop_res;
                      Sleep 2000;
                      Fetch (PostStart body) retry_res]
                   /\ completion (startVetConvoAI w h v) =
                        Normal (JBool (is_some (retry_handle retry_res)))
                   /\ assignments (events (startVetConvoAI w h v)) =
                        match retry_handle retry_res with
                        | Some x => [x]
                        | None => []
                        end
                   /\ agoraConvoTaskID (vars (startVetConvoAI w h v)) =
                        match retry_handle retry_res with
                        | Some x => x
                        | None => agoraConvoTaskID v
                        end
             end
       | None =>
           filter is_network_step after = []
           /\ completion (startVetConvoAI w h v) = Normal (JBool false)
           /\ assignments (events (startVetConvoAI w h v)) = []
           /\ vars (startVetConvoAI w h v) = v
       end.
Proof.
  run_start.
  all: unfold conflict; cbn - [Z.eqb to_string]; intros Hc;
    try discriminate; try congruence.
  all: try (exfalso; eapply ok_not_conflict; eassumption).
  all: do 3 eexists; split; [reflexivity|];
    split; [now apply Z.eqb_eq|]; split; [reflexivity|].
  all: unfold conflict_agent_id; use_equations; try (now repeat split).
  all: match goal with
       | |- context [Fetch (PostAgentLeave _) ?res :: _] => exists res
       end;
    try (now repeat split).
  all: eexists; split; [reflexivity|];
    cbn - [to_string]; use_equations; now repeat split.
Qed.

(** C1, as the specification words it, fails: when the conflict body
    names no agent, nothing is stopped and nothing is retried; the
    start fails after the one create request. *)
Lemma conflict_without_retry :
  conflict (events (startVetConvoAI Scenario.conflict_unnamed []
                      Scenario.joined_session)) = true
  /\ one_retry_cycle (events (startVetConvoAI Scenario.conflict_unnamed []
                                Scenario.joined_session)) = false
  /\ List.length
       (filter is_create (events (startVetConvoAI Scenario.conflict_unnamed []
                                    Scenario.joined_session))) = 1%nat
  /\ filter is_stop (events (startVetConvoAI Scenario.conflict_unnamed []
                               Scenario.joined_session)) = []
  /\ completion (startVetConvoAI Scenario.conflict_unnamed []
                   Scenario.joined_session) = Normal (JBool false).
Proof. repeat split; vm_compute; reflexivity. Qed.

(** C1, amended.  In a run of [startVetConvoAI] whose create request is
    answered 409, at most two create requests are sent.  When the body
    of the 409 parses to an object with a truthy [agent_id], one stop
    request for that id follows; if it is answered (whatever the
    status) the controller waits 2000 ms and sends the same create
    request once more, and the start succeeds exactly when that retry is
    answered 2xx with a body that has properties; if the stop request
    is not answered, no retry is made.  When the body names no agent,
    nothing is stopped or retried.  In every case but the successful
    retry the start returns false. *)
Theorem startVetConvoAI_conflict_bounded_retry w h v :
  conflict (events (startVetConvoAI w h v)) = true ->
  exists body r1 after,
    from_first_create (events (startVetConvoAI w h v)) =
      Fetch (PostStart body) (Responded r1) :: after
    /\ status r1 = 409
    /\ (List.length (filter is_create (events (startVetConvoAI w h v)))
        <= 2)%nat
    /\ match conflict_agent_id r1 with
       | Some a =>
           exists stop_res,
             match stop_res with
             | NetworkError =>
                 filter is_network_step after =
                   [Fetch (PostAgentLeave (to_string a)) NetworkError]
                 /\ completion (startVetConvoAI w h v) = Normal (JBool false)
             | Responded _ =>
                 exists retry_res,
                   filter is_network_step after =
                     [Fetch (PostAgentLeave (to_string a)) stop_res;
                      Sleep 2000;
                      Fetch (PostStart body) retry_res]
                   /\ completion (startVetConvoAI w h v) =
                        Normal (JBool (is_some (retry_handle retry_res)))
             end
       | None =>
           filter is_network_step after = []
           /\ completion (startVetConvoAI w h v) = Normal (JBool false)
       end.
Proof.
  intros Hc.
  destruct (startVetConvoAI_conflict_run w h v Hc)
    as (body & r1 & after & Hf & Hs & _ & Hrest).
  exists body, r1, after. split; [exact Hf|]. split; [exact Hs|].
  assert (Hn : List.length (filter is_create (events (startVetConvoAI w h v)))
               = S (List.length
                      (filter is_create (filter is_network_step after)))).
  { rewrite <- filter_from_first_create, Hf. cbn.
    now rewrite (filter_twice _ _ _ create_is_network_step). }
  destruct (conflict_agent_id r1) as [a|].
  - destruct Hrest as [stop_res Hrest]. split.
    + rewrite Hn.
      destruct stop_res; [destruct Hrest as (-> & _) |
                          destruct Hrest as (retry_res & -> & _)];
        cbn; lia.
    + exists stop_res.
      destruct stop_res; [tauto|].
      destruct Hrest as (retry_res & H1 & H2 & _). now exists retry_res.
  - destruct Hrest as (H1 & H2 & _). split; [|tauto].
    rewrite Hn, H1. cbn. lia.
Qed.

(** A conflict that names the agent in the way, then an accepted
    retry. *)
Lemma startVetConvoAI_conflict_bounded_retry_witness :
  conflict (events (startVetConvoAI Scenario.conflict_then_accepted []
                      Scenario.joined_session)) = true
  /\ (List.length
        (filter is_create
           (events (startVetConvoAI Scenario.conflict_then_accepted []
                      Scenario.joined_session))) <= 2)%nat.
Proof.
  assert (Hc : conflict
                 (events (startVetConvoAI Scenario.conflict_then_accepted []
                            Scenario.joined_session)) = true)
    by (vm_compute; reflexivity).
  split; [exact Hc|].
  destruct (startVetConvoAI_conflict_bounded_retry
              Scenario.conflict_then_accepted [] Scenario.joined_session Hc)
    as (_ & _ & _ & _ & _ & Hn & _).
  exact Hn.
Defined.

(** C9.  In a run of [startVetConvoAI] whose first create request is
    answered 409 and which returns true, two create requests were sent,
    one stop request was sent, for the [agent_id] of the conflict body,
    and [agoraConvoTaskID] was written once: with the [agent_id] of the
    retry response, which is its value at the end. *)
Theorem startVetConvoAI_keeps_retry_handle w h v :
  conflict (events (startVetConvoAI w h v)) = true ->
  completion (startVetConvoAI w h v) = Normal (JBool true) ->
  exists body r1 a stop_res retry_res new_id,
    filter is_create (events (startVetConvoAI w h v)) =
      [Fetch (PostStart body) (Responded r1);
       Fetch (PostStart body) retry_res]
    /\ conflict_agent_id r1 = Some a
    /\ filter is_stop (events (startVetConvoAI w h v)) =
         [Fetch (PostAgentLeave (to_string a)) stop_res]
    /\ retry_handle retry_res = Some new_id
    /\ assignments (events (startVetConvoAI w h v)) = [new_id]
    /\ agoraConvoTaskID (vars (startVetConvoAI w h v)) = new_id.
Proof.
  intros Hc Ht.
  destruct (startVetConvoAI_conflict_run w h v Hc)
    as (body & r1 & after & Hf & Hs & Hstop & Hrest).
  rewrite Ht in Hrest.
  destruct (conflict_agent_id r1) as [a|] eqn:Ea;
    [|destruct Hrest as (_ & F & _); discriminate].
  destruct Hrest as [stop_res Hrest].
  destruct stop_res as [|rs];
    [destruct Hrest as (_ & F & _); discriminate|].
  destruct Hrest as (retry_res & Hsteps & Hres & Hassign & Hfinal).
  destruct (retry_handle retry_res) as [new_id|] eqn:Eh;
    [|discriminate].
  exists body, r1, a, (Responded rs), retry_res, new_id.
  split; [|split; [exact Ea|split; [|repeat split; assumption]]].
  - rewrite <- filter_from_first_create, Hf. cbn.
    rewrite <- (filter_twice _ _ _ create_is_network_step), Hsteps.
    reflexivity.
  - rewrite Hstop, <- (filter_twice _ _ _ stop_is_network_step), Hsteps.
    reflexivity.
Qed.

(** The same run: one handle is written. *)
Lemma startVetConvoAI_keeps_retry_handle_witness :
  conflict (events (startVetConvoAI Scenario.conflict_then_accepted []
                      Scenario.joined_session)) = true
  /\ completion (startVetConvoAI Scenario.conflict_then_accepted []
                   Scenario.joined_session) = Normal (JBool true)
  /\ exists new_id,
       assignments (events (startVetConvoAI Scenario.conflict_then_accepted []
                              Scenario.joined_session)) = [new_id].
Proof.
  assert (Hc : conflict
                 (events (startVetConvoAI Scenario.conflict_then_accepted []
                            Scenario.joined_session)) = true)
    by (vm_compute; reflexivity).
  assert (Ht : completion (startVetConvoAI Scenario.conflict_then_accepted []
                             Scenario.joined_session) = Normal (JBool true))
    by (vm_compute; reflexivity).
  split; [exact Hc|]. split; [exact Ht|].
  destruct (startVetConvoAI_keeps_retry_handle
              Scenario.conflict_then_accepted [] Scenario.joined_session Hc Ht)
    as (_ & _ & _ & _ & _ & new_id & _ & _ & _ & _ & Ha & _).
  exists new_id. exact Ha.
Defined.

End StartProps.

(** ** The triage summary *)

Module SummaryProps.

Import Js Conversation Observe Probe.

Lemma generateTriageSummary_vars responses w h v :
  exists summary d,
    generateTriageSummary responses w h v = (Normal summary, v, d).
Proof.
  unfold generateTriageSummary, generateTriageSummary_body.
  unfold_monad. cbn.
  destruct (fetch w h _) as [|r]; cbn; [eauto|].
  destruct (ok r); cbn; [|eauto].
  destruct (json r); cbn; eauto.
Qed.








End SummaryProps.

(** ** The question sequencer *)

Module SequencerProps.

Import Js Conversation Observe.

(** Speaking either completes, or fails because a playback failed; the
    variables are left as they were. *)
Lemma playOpenAITTS_outcome text w h v :
  exists d,
    playOpenAITTS text w h v = (Normal JUndefined, v, d)
    \/ (playOpenAITTS text w h v = (Thrown MediaError, v, d)
        /\ exists h', audio_ends w h' = false).
Proof.
  unfold playOpenAITTS, playOpenAITTS_body, playTTSMessage,
    playTTSMessage_body, audio_playback.
  unfold_monad.
  destruct (truthy text); cbn;
    repeat match goal with
           | |- context [match ?t with JStr _ => _ | _ => _ end] =>
               is_var t; destruct t
           | |- context [speechSynthesis ?w] => destruct (speechSynthesis w)
           | |- context [all_white_space ?s] => destruct (all_white_space s)
           | |- context [fetch ?w ?h ?rq] =>
               let r := fresh "r" in destruct (fetch w h rq) as [|r]
           | |- context [ok ?r] => destruct (ok r)
           | |- context [audio_ends ?w ?h] => destruct (audio_ends w h) eqn:?
           | _ => progress cbn
           end.
  all: eexists;
    first [ left; reflexivity
          | right; split; [reflexivity | eexists; eassumption] ].
Qed.

Ltac speak :=
  match goal with
  | |- context [playOpenAITTS ?t ?w ?h ?v] =>
      let d := fresh "d" in
      let E := fresh "E" in
      let F := fresh "F" in
      destruct (playOpenAITTS_outcome t w h v) as [d [E | [E F]]];
      rewrite E
  end.

Lemma ask_intro q w h v :
  exists d, ask 0 q w h v = (Normal tt, v, d).
Proof.
  unfold ask. unfold_monad. cbn.
  speak; cbn; eauto.
Qed.

Lemma ask_from_cons i q qs :
  ask_from i (q :: qs) = (ask i q ;; ask_from (i + 1) qs).
Proof. reflexivity. Qed.

(** One question of the loop: the iteration completes, and the turns
    grow by the turn of the question, if it has one. *)
Lemma ask_step i q w h v :
  (i =? 0) = false ->
  exists d,
    ask i q w h v =
      (Normal tt,
       match turn_of w {| asked_number := i; asked_question := q;
                          asked_history := h; asked_vars := v |} with
       | Some t => set_responses (responses v ++ [t]) v
       | None => v
       end,
       d).
Proof.
  intros Hi.
  unfold turn_of, own_turn, prompt_plays, own_window, window_opens, prompt,
    announced, completion.
  cbn [asked_number asked_question asked_history asked_vars].
  unfold ask. unfold_monad. rewrite Hi. cbn.
  speak; cbn; [|eauto].
  unfold waitForUserResponse. cbn.
  speak; cbn; eauto.
Qed.

Lemma ask_from_turns qs : forall i w h v,
  0 < i ->
  exists v' d,
    ask_from i qs w h v = (Normal tt, v', d)
    /\ responses v' =
         responses v ++ somes (map (turn_of w) (asked_from w i qs h v)).
Proof.
  induction qs as [|q rest IH]; intros i w h v Hi.
  - exists v, []. cbn. now rewrite app_nil_r.
  - assert (Hi0 : (i =? 0) = false) by (apply Z.eqb_neq; lia).
    assert (Hi1 : 0 < i + 1) by lia.
    rewrite ask_from_cons. unfold bind. cbn [asked_from map].
    destruct (ask_step i q w h v Hi0) as [d E]. rewrite E.
    unfold vars. cbn [fst snd].
    match goal with
    | |- context [ask_from _ _ _ _ ?v1] =>
        destruct (IH (i + 1) w (d ++ h) v1 Hi1) as (v' & d' & E' & Hr)
    end.
    rewrite E'. exists v', (d' ++ d). split; [reflexivity|].
    rewrite Hr.
    destruct (turn_of w _) as [t|]; cbn [somes responses set_responses];
      [now rewrite <- app_assoc | reflexivity].
Qed.

(** The handle of the microphone is the same at every question. *)
Lemma asked_from_tracks qs : forall i w h v a,
  0 < i ->
  In a (asked_from w i qs h v) ->
  localTracks (asked_vars a) = localTracks v.
Proof.
  induction qs as [|q rest IH]; intros i w h v a Hi Hin; [destruct Hin|].
  assert (Hi0 : (i =? 0) = false) by (apply Z.eqb_neq; lia).
  assert (Hi1 : 0 < i + 1) by lia.
  destruct Hin as [<- | Hin]; [reflexivity|].
  rewrite (IH _ _ _ _ _ Hi1 Hin).
  destruct (ask_step i q w h v Hi0) as [d ->]. unfold vars. cbn [fst snd].
  now destruct (turn_of w _).
Qed.

Lemma asked_from_questions qs : forall i w h v,
  map asked_question (asked_from w i qs h v) = qs.
Proof.
  induction qs as [|q rest IH]; intros i w h v; cbn; [reflexivity|].
  now rewrite IH.
Qed.

Lemma somes_all_play w l :
  forallb (prompt_plays w) l = true ->
  somes (map (turn_of w) l) = map (own_turn w) l.
Proof.
  induction l as [|a l IH]; cbn; [reflexivity|].
  intros H. apply andb_prop in H. destruct H as [Ha Hl].
  unfold turn_of at 1. rewrite Ha. cbn. now rewrite IH.
Qed.

Lemma response_all_timed_out w l :
  forallb (fun a => timed_out (own_window w a)) l = true ->
  map response (map (own_turn w) l) =
    map (response_text TimedOut) (map asked_number l).
Proof.
  induction l as [|a l IH]; cbn [map forallb]; [reflexivity|].
  intros H. apply andb_prop in H. destruct H as [Ha Hl].
  rewrite (IH Hl). f_equal. unfold own_turn, timed_out in *.
  cbn [response]. now destruct (fst (own_window w a)).
Qed.

(** What follows the loop leaves the captured turns alone. *)
Lemma startOpenAIQuestioningSequence_captured w h v :
  responses (vars (startOpenAIQuestioningSequence w h v)) =
    somes (map (turn_of w) (asked w h v)).
Proof.
  unfold asked.
  destruct (ask_intro (hd "" questions) w h (set_responses [] v)) as [d0 E0].
  rewrite E0. unfold vars at 2. cbn [fst snd].
  assert (H1 : 0 < 1) by lia.
  destruct (ask_from_turns (tl questions) 1 w (d0 ++ h)
              (set_responses [] v) H1)
    as (v1 & d1 & E1 & Hr).
  change (responses (set_responses [] v) ++ ?l) with l in Hr.
  rewrite <- Hr. clear Hr.
  cbn [hd questions] in E0. cbn [tl questions] in E1.
  unfold vars, startOpenAIQuestioningSequence,
    startOpenAIQuestioningSequence_body.
  unfold call at 1. unfold bind at 1. unfold write at 1.
  cbn [app]. unfold bind at 1.
  unfold questions at 1. rewrite ask_from_cons. unfold bind at 1.
  rewrite E0. cbv beta iota. change (0 + 1) with 1. rewrite E1.
  unfold bind, setItem, displayTriageSummary. unfold_monad. cbn.
  speak; cbn; [|reflexivity].
  match goal with
  | |- context [generateTriageSummary ?r ?w ?h ?v] =>
      destruct (SummaryProps.generateTriageSummary_vars r w h v)
        as (summary & d2 & E2);
      rewrite E2
  end; cbn.
  destruct (get_prop summary "spokenSummary"); cbn; [|reflexivity].
  speak; cbn; reflexivity.
Qed.

(** C4, as the specification words it, fails: when the audio of the
    third question cannot be played, that question gets no turn, and
    four turns are captured. *)
Lemma third_question_skipped :
  map question
    (responses (vars (startOpenAIQuestioningSequence
                        Scenario.third_prompt_unplayable []
                        Scenario.joined_session))) =
    [nth 1 questions ""; nth 2 questions "";
     nth 4 questions ""; nth 5 questions ""]
  /\ map question
       (responses (vars (startOpenAIQuestioningSequence
                           Scenario.third_prompt_unplayable []
                           Scenario.joined_session))) <> tl questions.
Proof.
  assert (E : map question
                (responses (vars (startOpenAIQuestioningSequence
                                    Scenario.third_prompt_unplayable []
                                    Scenario.joined_session))) =
              [nth 1 questions ""; nth 2 questions "";
               nth 4 questions ""; nth 5 questions ""])
    by (vm_compute; reflexivity).
  split; [exact E|]. rewrite E. vm_compute. discriminate.
Qed.

(** C4, amended.  The sequencer asks questions 1 to 5 of the fixed
    list in that order, with the microphone handle it was called with.
    A question whose prompt fails to play gets no turn; every other
    question gets one turn, holding its text and the text its own
    listening window resolved with.  The turns captured are those
    turns, in the order of the questions.  So in a run where every
    question prompt plays (an acknowledgement may still fail) the turns
    are exactly five, for questions 1 to 5 in that order; and where
    moreover each of the five windows times out, turn k holds the text
    "Response received for question k". *)
Theorem sequencer_turns_in_question_order w h v :
  responses (vars (startOpenAIQuestioningSequence w h v)) =
    somes (map (turn_of w) (asked w h v))
  /\ map asked_number (asked w h v) = [1; 2; 3; 4; 5]
  /\ map asked_question (asked w h v) = tl questions
  /\ (forall a,
        In a (asked w h v) ->
        localTracks (asked_vars a) audioTrack = localTracks v audioTrack
        /\ match turn_of w a with
           | Some t =>
               prompt_plays w a = true
               /\ question t = asked_question a
               /\ response t =
                    response_text (fst (own_window w a)) (asked_number a)
           | None => prompt_plays w a = false
           end)
  /\ (forallb (prompt_plays w) (asked w h v) = true ->
      map question
        (responses (vars (startOpenAIQuestioningSequence w h v)))
      = tl questions
      /\ List.length
           (responses (vars (startOpenAIQuestioningSequence w h v)))
         = 5%nat
      /\ map response
           (responses (vars (startOpenAIQuestioningSequence w h v)))
         = map (fun a =>
                  response_text (fst (own_window w a)) (asked_number a))
             (asked w h v)
      /\ (forallb (fun a => timed_out (own_window w a)) (asked w h v)
          = true ->
          map response
            (responses (vars (startOpenAIQuestioningSequence w h v)))
          = map (response_text TimedOut) [1; 2; 3; 4; 5])).
Proof.
  rewrite startOpenAIQuestioningSequence_captured.
  assert (Hn : map asked_number (asked w h v) = [1; 2; 3; 4; 5])
    by (unfold asked;
        cbn [tl questions asked_from map asked_number]; reflexivity).
  assert (Hq : map asked_question (asked w h v) = tl questions)
    by (unfold asked; apply asked_from_questions).
  split; [reflexivity|]. split; [exact Hn|]. split; [exact Hq|].
  split.
  - intros a Hin. split.
    + unfold asked in Hin.
      destruct (ask_intro (hd "" questions) w h (set_responses [] v))
        as [d0 E0].
      rewrite E0 in Hin. unfold vars in Hin. cbn [fst snd] in Hin.
      assert (H1 : 0 < 1) by lia.
      now rewrite (asked_from_tracks _ _ _ _ _ _ H1 Hin).
    + unfold turn_of. destruct (prompt_plays w a); repeat split.
  - intros Hp. rewrite (somes_all_play _ _ Hp).
    rewrite !map_map. cbn [own_turn question response].
    change (map (fun a => asked_question a) (asked w h v))
      with (map asked_question (asked w h v)).
    rewrite length_map, <- (length_map asked_question), Hq.
    split; [exact Hq|]. split; [reflexivity|]. split; [reflexivity|].
    intros Ht. rewrite <- Hn, <- (response_all_timed_out _ _ Ht).
    now rewrite map_map.
Qed.

(** Two runs in which nobody answers: in one every playback works, in
    the other the acknowledgement after each answer cannot be played.
    Both capture five turns. *)
Lemma sequencer_turns_in_question_order_witness :
  (forallb (prompt_plays Scenario.calm_world)
     (asked Scenario.calm_world [] Scenario.joined_session) = true
   /\ forallb (fun a => timed_out (own_window Scenario.calm_world a))
        (asked Scenario.calm_world [] Scenario.joined_session) = true
   /\ map question
        (responses (vars (startOpenAIQuestioningSequence Scenario.calm_world
                            [] Scenario.joined_session))) = tl questions
   /\ map response
        (responses (vars (startOpenAIQuestioningSequence Scenario.calm_world
                            [] Scenario.joined_session)))
      = map (response_text TimedOut) [1; 2; 3; 4; 5])
  /\ (forallb (prompt_plays Cases.acknowledgement_unplayable)
        (asked Cases.acknowledgement_unplayable [] Scenario.joined_session)
      = true
      /\ audio_ends Cases.acknowledgement_unplayable
           [Fetch (PostOpenAITTS "Thank you.") (Scenario.reply 200 "{}" (JObj []))]
         = false
      /\ map question
           (responses (vars (startOpenAIQuestioningSequence
                               Cases.acknowledgement_unplayable
                               [] Scenario.joined_session))) = tl questions
      /\ List.length
           (responses (vars (startOpenAIQuestioningSequence
                               Cases.acknowledgement_unplayable
                               [] Scenario.joined_session))) = 5%nat).
Proof.
  assert (P1 : forallb (prompt_plays Scenario.calm_world)
                 (asked Scenario.calm_world [] Scenario.joined_session)
               = true) by (vm_compute; reflexivity).
  assert (T1 : forallb (fun a => timed_out (own_window Scenario.calm_world a))
                 (asked Scenario.calm_world [] Scenario.joined_session)
               = true) by (vm_compute; reflexivity).
  assert (P2 : forallb (prompt_plays Cases.acknowledgement_unplayable)
                 (asked Cases.acknowledgement_unplayable []
                    Scenario.joined_session)
               = true) by (vm_compute; reflexivity).
  split.
  - destruct (proj2 (proj2 (proj2 (proj2
                (sequencer_turns_in_question_order Scenario.calm_world []
                   Scenario.joined_session)))) P1)
      as (Hq & _ & _ & Ht).
    split; [exact P1|]. split; [exact T1|]. split; [exact Hq|].
    exact (Ht T1).
  - destruct (proj2 (proj2 (proj2 (proj2
                (sequencer_turns_in_question_order
                   Cases.acknowledgement_unplayable []
                   Scenario.joined_session)))) P2)
      as (Hq & Hl & _).
    split; [exact P2|]. split; [reflexivity|]. split; [exact Hq|].
    exact Hl.
Defined.

End SequencerProps.

(** ** The listening window *)

Module ListeningProps.

Import Js Conversation Observe.

(** A window that ends on silence has seen a voiced poll and then 51
    polls in a row that were not; it ends at the last of them. *)
Lemma checkAudio_voice_completed frames : forall voiceDetected silenceCount n m,
  0 <= silenceCount <= 50 ->
  checkAudio frames voiceDetected silenceCount n = (VoiceCompleted, m) ->
  (voiceDetected = true
   /\ exists quiet post,
        frames = quiet ++ post
        /\ Forall silent quiet
        /\ Z.of_nat (List.length quiet) = 51 - silenceCount
        /\ m = (n + List.length quiet)%nat)
  \/ (exists pre burst quiet post,
        frames = pre ++ burst :: quiet ++ post
        /\ voice burst = true
        /\ Forall silent quiet
        /\ List.length quiet = 51%nat
        /\ m = (n + List.length pre + 52)%nat).
Proof.
  induction frames as [|d rest IH]; intros vd sc n m Hsc; cbn [checkAudio].
  - discriminate.
  - destruct (voice d) eqn:Ed.
    + intros H. right.
      destruct (IH true 0 (S n) m ltac:(lia) H)
        as [(_ & quiet & post & -> & Hq & Hl & ->)
           | (pre & burst & quiet & post & -> & Hb & Hq & Hl & ->)].
      * exists [], d, quiet, post. cbn [List.length app].
        repeat split; auto; lia.
      * exists (d :: pre), burst, quiet, post. cbn [List.length app].
        repeat split; auto; lia.
    + destruct vd.
      * destruct (sc + 1 >? 50) eqn:Ec.
        -- intros [= <-]. left. split; [reflexivity|].
           apply Z.gtb_lt in Ec.
           exists [d], rest. cbn [List.length app].
           repeat split; auto; lia.
        -- intros H.
           assert (Hle : sc + 1 <= 50)
             by (rewrite Z.gtb_ltb in Ec; apply Z.ltb_ge in Ec; lia).
           destruct (IH true (sc + 1) (S n) m ltac:(lia) H)
             as [(_ & quiet & post & -> & Hq & Hl & ->)
                | (pre & burst & quiet & post & -> & Hb & Hq & Hl & ->)].
           ++ left. split; [reflexivity|].
              exists (d :: quiet), post. cbn [List.length app].
              repeat split; auto; lia.
           ++ right. exists (d :: pre), burst, quiet, post.
              cbn [List.length app]. repeat split; auto; lia.
      * intros H.
        destruct (IH false sc (S n) m Hsc H)
          as [(Hf & _) | (pre & burst & quiet & post & -> & Hb & Hq & Hl & ->)];
          [discriminate|].
        right. exists (d :: pre), burst, quiet, post. cbn [List.length app].
        repeat split; auto; lia.
Qed.

Lemma checkAudio_polls frames : forall voiceDetected silenceCount n,
  (n <= snd (checkAudio frames voiceDetected silenceCount n)
     <= n + List.length frames)%nat.
Proof.
  induction frames as [|d rest IH]; intros vd sc n; cbn [checkAudio].
  - cbn. lia.
  - destruct (voice d); [specialize (IH true 0 (S n)); cbn [List.length]; lia|].
    destruct vd; [|specialize (IH false sc (S n)); cbn [List.length]; lia].
    destruct (sc + 1 >? 50);
      [cbn; lia | specialize (IH true (sc + 1) (S n)); cbn [List.length]; lia].
Qed.

Lemma polls_before_timeout_bound f :
  0 < f -> (Z.of_nat (polls_before_timeout f) - 1) * f < timeout_ms.
Proof.
  intros Hf. unfold polls_before_timeout, timeout_ms.
  rewrite Z2Nat.id by (apply Z.div_pos; lia).
  pose proof (Z.mul_div_le (15000 + f - 1) f Hf). nia.
Qed.

(** The promise is settled by the time the timer runs, whatever is
    heard. *)
Lemma window_ends_by_timeout c hasTrack throws :
  0 < frame_ms c ->
  resolved_at_ms (frame_ms c)
    (listen_window hasTrack
       {| monitor_throws := throws; frames := frames_of c |})
    <= timeout_ms.
Proof.
  intros Hf. unfold listen_window. cbn [monitor_throws frames].
  destruct (hasTrack && negb throws); [|cbn; lia].
  pose proof (checkAudio_polls (frames_of c) false 0 0) as [_ Hp].
  destruct (checkAudio (frames_of c) false 0 0) as [[|] m];
    cbn [resolved_at_ms snd] in *; [lia|].
  unfold frames_of in Hp. rewrite length_map, length_seq in Hp.
  pose proof (polls_before_timeout_bound (frame_ms c) Hf).
  nia.
Qed.

Lemma map_seq_split {A} (f : nat -> A) : forall pre s n x post,
  map f (seq s n) = pre ++ x :: post -> x = f (s + List.length pre)%nat.
Proof.
  induction pre as [|p pre IH]; intros s n x post H;
    destruct n as [|n]; cbn in H; try discriminate.
  - injection H as <- _. f_equal. cbn. lia.
  - injection H as _ H. apply IH in H. rewrite H. f_equal. cbn. lia.
Qed.

(** In time: a window that ends on silence ends 51 frames after the
    last voiced poll. *)
Lemma silence_lasts_51_frames c m :
  checkAudio (frames_of c) false 0 0 = (VoiceCompleted, m) ->
  exists k,
    voice (energy c k) = true
    /\ (forall j, (k < j <= k + 51)%nat -> voice (energy c j) = false)
    /\ m = (k + 52)%nat
    /\ resolved_at_ms (frame_ms c) (VoiceCompleted, m)
       = Z.of_nat k * frame_ms c + 51 * frame_ms c.
Proof.
  intros H.
  assert (H0 : 0 <= 0 <= 50) by lia.
  destruct (checkAudio_voice_completed _ _ _ _ _ H0 H)
    as [(F & _) | (pre & burst & quiet & post & E & Hb & Hq & Hl & ->)];
    [discriminate|].
  unfold frames_of in E.
  exists (List.length pre). repeat split.
  - apply map_seq_split in E. cbn in E. now rewrite <- E.
  - intros j Hj.
    assert (Hi : (j - List.length pre - 1 < List.length quiet)%nat) by lia.
    destruct (nth_split quiet [] Hi) as (q1 & q2 & Eq & Hl1).
    assert (Hs : silent (nth (j - List.length pre - 1) quiet [])).
    { rewrite Forall_forall in Hq. apply Hq, nth_In. lia. }
    rewrite Eq in E.
    replace (pre ++ burst :: (q1 ++ nth (j - List.length pre - 1) quiet []
                                 :: q2) ++ post)
      with ((pre ++ burst :: q1)
              ++ nth (j - List.length pre - 1) quiet [] :: (q2 ++ post)) in E
      by (rewrite <- !app_assoc; reflexivity).
    apply map_seq_split in E. rewrite E in Hs.
    rewrite length_app in Hs. cbn [List.length] in Hs.
    replace (0 + (List.length pre + S (List.length q1)))%nat with j in Hs
      by lia.
    exact Hs.
  - cbn [resolved_at_ms]. lia.
Qed.

(** C8, on the code: with the microphone held, one voiced poll and
    silence after it, on a 60 Hz display, the window resolves as a
    completed voice response after 52 polls, 867 ms after it opened and
    51 frames after the voice: well under a second, not the five
    seconds the comment in [checkAudio] and the specification give. *)
Theorem silence_cutoff_at_display_rate :
  listen_window true Scenario.display_rate_window = (VoiceCompleted, 52%nat)
  /\ resolved_at_ms 17 (listen_window true Scenario.display_rate_window) = 867
  /\ 51 * frame_ms Scenario.burst_then_quiet = 867
  /\ 867 < 5000
  /\ response_text (fst (listen_window true Scenario.display_rate_window)) 1
     = "Voice response completed for question 1".
Proof. repeat split; vm_compute; reflexivity. Qed.

End ListeningProps.

(** ** Starting the agent: every run *)

Module StartRunProps.

Import Js Conversation Observe Probe.

Ltac start_branch :=
  match goal with
  | |- context [fetch ?w ?h ?rq] =>
      let r := fresh "r" in destruct (fetch w h rq) as [|r] eqn:?
  | |- context [match json ?r with _ => _ end] =>
      destruct (json r) eqn:?
  | |- context [match get_prop ?d ?k with _ => _ end] =>
      destruct (get_prop d k) eqn:?
  | |- context [if ok ?r then _ else _] => destruct (ok r) eqn:?
  | |- context [if negb (ok ?r) then _ else _] => destruct (ok r) eqn:?
  | |- context [if truthy ?a then _ else _] => destruct (truthy a) eqn:?
  | |- context [if status ?r =? 409 then _ else _] =>
      destruct (status r =? 409) eqn:?
  end.

Ltac rewrite_answers :=
  repeat match goal with
         | H : json _ = _ |- _ => rewrite H
         | H : get_prop _ _ = _ |- _ => rewrite H
         | H : truthy _ = _ |- _ => rewrite H
         | H : ok _ = _ |- _ => rewrite H
         | H : (status _ =? 409) = _ |- _ => rewrite H
         end.

(** The requests of a run and what it returns, for a session with a
    client and a channel. *)
Lemma startVetConvoAI_requests w h v :
  client v = true ->
  present (options_channel v) = true ->
  (exists b,
     completion (startVetConvoAI w h v) = Normal (JBool b)
     /\ if b then
          exists x,
            assignments (events (startVetConvoAI w h v)) = [x]
            /\ agoraConvoTaskID (vars (startVetConvoAI w h v)) = x
        else
          assignments (events (startVetConvoAI w h v)) = []
          /\ vars (startVetConvoAI w h v) = v)
  /\ answered_by w (events (startVetConvoAI w h v))
  /\ exists tok_res after_token,
       fetches (events (startVetConvoAI w h v)) =
         (GetToken (value (options_channel v)) "10001" "publisher", tok_res)
         :: after_token
       /\ match token_of tok_res with
          | None =>
              after_token = []
              /\ completion (startVetConvoAI w h v) = Normal (JBool false)
          | Some tok =>
              exists cl_res res1 rest,
                after_token =
                  (PostCleanup (value (options_channel v)), cl_res)
                  :: (PostStart
                        (requestData_of (value (options_channel v)) tok),
                      res1)
                  :: rest
                /\ slept 1000 (events (startVetConvoAI w h v))
                   = succeeded cl_res
                /\ (is_conflict res1 = false ->
                    rest = []
                    /\ completion (startVetConvoAI w h v) =
                         Normal (JBool (is_some (retry_handle res1)))
                    /\ assignments (events (startVetConvoAI w h v)) =
                         match retry_handle res1 with
                         | Some x => [x]
                         | None => []
                         end)
          end.
Proof.
  intros Hc Hp.
  unfold events, completion, vars.
  unfold startVetConvoAI, startVetConvoAI_body. unfold_monad.
  rewrite Hc, Hp.
  cbn - [Z.eqb to_string].
  repeat (start_branch; cbn - [Z.eqb to_string]).
  all: split;
    [ eexists; split; [reflexivity|]; cbn;
      first [ now split | eexists; now split ] | ].
  all: split;
    [ unfold answered_by; cbn - [Z.eqb to_string];
      repeat (constructor; [eexists; cbn; symmetry; eassumption|]);
      constructor | ].
  all: do 2 eexists; (split; [reflexivity|]);
    cbn - [Z.eqb to_string]; rewrite_answers;
    try (now repeat split).
  all: do 3 eexists; (split; [reflexivity|]);
    (split; [cbn; rewrite_answers; reflexivity|]);
    cbn - [Z.eqb to_string]; rewrite_answers; cbn - [Z.eqb to_string];
    intros Hn; try discriminate; now repeat split.
Qed.

End StartRunProps.

(** ** Starting the agent: what every caller can rely on *)

Module StartUseProps.

Import Js Conversation Observe Probe.

Lemma startVetConvoAI_guard w h v :
  client v = false \/ present (options_channel v) = false ->
  startVetConvoAI w h v =
    (Normal (JBool false), v,
     [Toast "Failed to start AI assistant. Please try again.";
      ConsoleError "Convo AI error:"]).
Proof.
  unfold startVetConvoAI, startVetConvoAI_body. unfold_monad.
  intros [E | E]; rewrite E; [reflexivity|].
  destruct (client v); reflexivity.
Qed.

(** The result and the handle, in every run. *)
Lemma startVetConvoAI_outcome w h v :
  exists b,
    completion (startVetConvoAI w h v) = Normal (JBool b)
    /\ if b then
         exists x,
           assignments (events (startVetConvoAI w h v)) = [x]
           /\ agoraConvoTaskID (vars (startVetConvoAI w h v)) = x
       else
         assignments (events (startVetConvoAI w h v)) = []
         /\ vars (startVetConvoAI w h v) = v.
Proof.
  destruct (client v) eqn:Hc;
    [|rewrite startVetConvoAI_guard by (now left);
      exists false; now repeat split].
  destruct (present (options_channel v)) eqn:Hp;
    [|rewrite startVetConvoAI_guard by (now right);
      exists false; now repeat split].
  exact (proj1 (StartRunProps.startVetConvoAI_requests w h v Hc Hp)).
Qed.

(** X1.  [startVetConvoAI] never rejects: it returns true or false.
    When it returns true it has written [agoraConvoTaskID] exactly
    once and the variable holds that value; when it returns false it
    has written nothing and every variable is as before. *)
Theorem startVetConvoAI_handle_iff_true w h v :
  exists b,
    completion (startVetConvoAI w h v) = Normal (JBool b)
    /\ if b then
         exists x,
           assignments (events (startVetConvoAI w h v)) = [x]
           /\ agoraConvoTaskID (vars (startVetConvoAI w h v)) = x
       else
         assignments (events (startVetConvoAI w h v)) = []
         /\ vars (startVetConvoAI w h v) = v.
Proof. exact (startVetConvoAI_outcome w h v). Qed.

(** X2.  Without a client, or without a channel name, no request is
    sent at all: the start fails at once with its console line and its
    toast, and changes nothing. *)
Theorem startVetConvoAI_needs_client_and_channel w h v :
  client v = false \/ present (options_channel v) = false ->
  fetches (events (startVetConvoAI w h v)) = []
  /\ events (startVetConvoAI w h v) =
       [ConsoleError "Convo AI error:";
        Toast "Failed to start AI assistant. Please try again."]
  /\ completion (startVetConvoAI w h v) = Normal (JBool false)
  /\ vars (startVetConvoAI w h v) = v.
Proof.
  intros H. rewrite (startVetConvoAI_guard w h v H). now repeat split.
Qed.

Lemma startVetConvoAI_needs_client_and_channel_witness :
  (client Cases.no_client = false
   \/ present (options_channel Cases.no_client) = false)
  /\ fetches (events (startVetConvoAI Scenario.calm_world []
                        Cases.no_client)) = [].
Proof.
  split; [left; reflexivity|].
  apply startVetConvoAI_needs_client_and_channel. left. reflexivity.
Defined.

(** X3.  With a client and a channel, the first request is the token
    request for uid 10001 as publisher.  If its answer does not parse
    to something with properties, nothing else is sent and the start
    fails.  Otherwise the token is taken from the answer without a look
    at the status (it may be undefined), the cleanup request follows,
    and whatever the cleanup meets the create request follows it, for
    that channel and token; the run waits 1000 ms in between exactly
    when the cleanup was answered 2xx. *)
Theorem startVetConvoAI_reaches_create w h v :
  client v = true ->
  present (options_channel v) = true ->
  exists tok_res after_token,
    fetches (events (startVetConvoAI w h v)) =
      (GetToken (value (options_channel v)) "10001" "publisher", tok_res)
      :: after_token
    /\ match token_of tok_res with
       | None =>
           after_token = []
           /\ completion (startVetConvoAI w h v) = Normal (JBool false)
       | Some tok =>
           exists cl_res res1 rest,
             after_token =
               (PostCleanup (value (options_channel v)), cl_res)
               :: (PostStart
                     {| name := value (options_channel v);
                        channel := value (options_channel v);
                        token := tok;
                        agent_rtc_uid := "10001";
                        remote_rtc_uids := ["0"];
                        idle_timeout := 120;
                        silence_timeout_ms := 15000 |},
                   res1)
               :: rest
             /\ slept 1000 (events (startVetConvoAI w h v)) = succeeded cl_res
       end.
Proof.
  intros Hc Hp.
  destruct (StartRunProps.startVetConvoAI_requests w h v Hc Hp)
    as (_ & _ & tok_res & after & Hf & Hrest).
  exists tok_res, after. split; [exact Hf|].
  destruct (token_of tok_res) as [tok|]; [|exact Hrest].
  destruct Hrest as (cl_res & res1 & rest & Ha & Hs & _).
  exists cl_res, res1, rest. split; assumption.
Qed.

Lemma startVetConvoAI_reaches_create_witness :
  exists tok_res after_token,
    fetches (events (startVetConvoAI Scenario.conflict_unnamed []
                       Scenario.joined_session)) =
      (GetToken "vet-triage" "10001" "publisher", tok_res) :: after_token.
Proof.
  destruct (startVetConvoAI_reaches_create Scenario.conflict_unnamed []
              Scenario.joined_session eq_refl eq_refl)
    as (tok_res & after & Hf & _).
  exists tok_res, after. exact Hf.
Defined.

(** X4.  When the answer to the first create request is not a 409
    conflict, no further request is sent: the start returns true exactly
    when that answer has a 2xx status and a body that parses to
    something with properties, and the handle written is the
    [agent_id] of that body, whatever it is. *)
Theorem startVetConvoAI_first_attempt w h v :
  client v = true ->
  present (options_channel v) = true ->
  forall tok_res cl_res body res1 rest,
    fetches (events (startVetConvoAI w h v)) =
      (GetToken (value (options_channel v)) "10001" "publisher", tok_res)
      :: (PostCleanup (value (options_channel v)), cl_res)
      :: (PostStart body, res1) :: rest ->
    is_conflict res1 = false ->
    rest = []
    /\ completion (startVetConvoAI w h v) =
         Normal (JBool (is_some (retry_handle res1)))
    /\ assignments (events (startVetConvoAI w h v)) =
         match retry_handle res1 with
         | Some x => [x]
         | None => []
         end.
Proof.
  intros Hc Hp tok_res cl_res body res1 rest Hf Hn.
  destruct (StartRunProps.startVetConvoAI_requests w h v Hc Hp)
    as (_ & _ & tok_res' & after & Hf' & Hrest).
  rewrite Hf in Hf'. injection Hf' as <- <-.
  destruct (token_of tok_res) as [tok|];
    [|destruct Hrest as (F & _); discriminate].
  destruct Hrest as (cl_res' & res1' & rest' & Ha & _ & Hfirst).
  injection Ha as <- _ <- <-. exact (Hfirst Hn).
Qed.

Lemma startVetConvoAI_first_attempt_witness :
  completion (startVetConvoAI Scenario.calm_world [] Scenario.joined_session)
  = Normal (JBool true)
  /\ assignments (events (startVetConvoAI Scenario.calm_world []
                            Scenario.joined_session)) = [JUndefined].
Proof.
  destruct (startVetConvoAI_first_attempt Scenario.calm_world []
              Scenario.joined_session eq_refl eq_refl
              (Scenario.reply 200 "{}" (JObj []))
              (Scenario.reply 200 "{}" (JObj []))
              (requestData_of "vet-triage" JUndefined)
              (Scenario.reply 200 "{}" (JObj []))
              [] eq_refl eq_refl)
    as (_ & Hr & Ha).
  split; [exact Hr | exact Ha].
Defined.

Lemma stopConvoAI_fetches w h v :
  fetches (events (stopConvoAI w h v)) =
    if truthy (agoraConvoTaskID v)
    then [(PostAgentLeave (to_string (agoraConvoTaskID v)),
           fetch w (ConsoleLog "Stopping Convo AI..." :: h)
             (PostAgentLeave (to_string (agoraConvoTaskID v))))]
    else [].
Proof.
  rewrite TeardownProps.stopConvoAI_run. unfold events.
  destruct (truthy _); cbn; [|reflexivity].
  destruct (succeeded _); reflexivity.
Qed.

Lemma stopConvoAI_handle w h v :
  agoraConvoTaskID (vars (stopConvoAI w h v)) =
    if truthy (agoraConvoTaskID v)
       && succeeded (fetch w (ConsoleLog "Stopping Convo AI..." :: h)
                       (PostAgentLeave (to_string (agoraConvoTaskID v))))
    then JStr ""
    else agoraConvoTaskID v.
Proof.
  rewrite TeardownProps.stopConvoAI_run. unfold vars.
  destruct (truthy _); cbn; [|reflexivity].
  destruct (succeeded _); reflexivity.
Qed.

(** X5.  After a start that returned true, [stopConvoAI] sends the
    leave request for the handle the start recorded when that handle is
    truthy, and sends nothing when it is not (a create answer without
    [agent_id] leaves a handle that cannot be stopped).  A stop that
    was answered 2xx clears the handle, so that the next stop sends
    nothing. *)
Theorem stopConvoAI_after_start w h v h1 h2 :
  completion (startVetConvoAI w h v) = Normal (JBool true) ->
  exists x,
    assignments (events (startVetConvoAI w h v)) = [x]
    /\ fetches (events (stopConvoAI w h1 (vars (startVetConvoAI w h v)))) =
         (if truthy x
          then [(PostAgentLeave (to_string x),
                 fetch w (ConsoleLog "Stopping Convo AI..." :: h1)
                   (PostAgentLeave (to_string x)))]
          else [])
    /\ (succeeded (fetch w (ConsoleLog "Stopping Convo AI..." :: h1)
                     (PostAgentLeave (to_string x))) = true ->
        fetches
          (events
             (stopConvoAI w h2
                (vars (stopConvoAI w h1 (vars (startVetConvoAI w h v))))))
        = []).
Proof.
  intros Ht.
  destruct (startVetConvoAI_outcome w h v) as (b & Hb & Hout).
  rewrite Ht in Hb. injection Hb as <-.
  destruct Hout as (x & Ha & Hx). exists x. split; [exact Ha|].
  rewrite !stopConvoAI_fetches, stopConvoAI_handle, Hx.
  split; [reflexivity|]. intros Hs. rewrite Hs.
  destruct (truthy x) eqn:Et; cbn; [reflexivity | now rewrite Et].
Qed.

Lemma stopConvoAI_after_start_witness :
  completion (startVetConvoAI Scenario.conflict_then_accepted []
                Scenario.joined_session) = Normal (JBool true)
  /\ exists x,
       assignments (events (startVetConvoAI Scenario.conflict_then_accepted []
                              Scenario.joined_session)) = [x].
Proof.
  assert (Ht : completion (startVetConvoAI Scenario.conflict_then_accepted []
                             Scenario.joined_session) = Normal (JBool true))
    by (vm_compute; reflexivity).
  split; [exact Ht|].
  destruct (stopConvoAI_after_start Scenario.conflict_then_accepted []
              Scenario.joined_session [] [] Ht) as (x & Ha & _).
  exists x. exact Ha.
Defined.

End StartUseProps.

(** ** Teardown: every run *)

Module TeardownRunProps.

Import Js Conversation Observe Probe.

Lemma fetches_app l1 l2 : fetches (l1 ++ l2) = fetches l1 ++ fetches l2.
Proof.
  induction l1 as [|e l1 IH]; [reflexivity|].
  destruct e; cbn; now rewrite ?IH.
Qed.

Lemma stored_app key l1 l2 :
  stored key (l1 ++ l2) = stored key l1 ++ stored key l2.
Proof.
  induction l1 as [|e l1 IH]; [reflexivity|].
  destruct e; cbn; rewrite ?IH; try reflexivity.
  now destruct (key0 =? key)%string.
Qed.

Ltac split_leave :=
  repeat match goal with
         | |- context [localTracks ?v ?k] =>
             is_var v; destruct (localTracks v k) eqn:?
         | |- context [truthy (agoraConvoTaskID ?v)] =>
             is_var v; destruct (truthy (agoraConvoTaskID v)) eqn:?
         | |- context [succeeded (fetch ?w ?h ?rq)] =>
             destruct (succeeded (fetch w h rq)) eqn:?
         | |- context [if client ?v then _ else _] =>
             is_var v; destruct (client v) eqn:?
         | |- context [client_leave ?w ?h] =>
             destruct (client_leave w h) eqn:?
         | |- context [remote_playerlist ?w] =>
             destruct (remote_playerlist w) eqn:?
         | _ => progress cbn
         end.

(** What [leaveChannel] leaves of the variables, and the one request
    it can send. *)
Lemma leaveChannel_state w h v :
  sessionStorage (vars (leaveChannel w h v)) = sessionStorage v
  /\ petInfo (vars (leaveChannel w h v)) = petInfo v
  /\ conversationStartTime (vars (leaveChannel w h v))
     = conversationStartTime v
  /\ client (vars (leaveChannel w h v)) = client v
  /\ agoraConvoTaskID (vars (leaveChannel w h v))
     = agoraConvoTaskID (vars (stopConvoAI w (after_release h v) v))
  /\ fetches (events (leaveChannel w h v))
     = fetches (events (stopConvoAI w (after_release h v) v))
  /\ forallb teardown_event (events (leaveChannel w h v)) = true
  /\ (if existsb is_failed_leave (events (leaveChannel w h v))
      then remoteUsers (vars (leaveChannel w h v)) = remoteUsers v
           /\ existsb is_registry_clear (events (leaveChannel w h v)) = false
           /\ hd_error (snd (leaveChannel w h v))
              = Some (ConsoleError "Error leaving channel:")
      else remoteUsers (vars (leaveChannel w h v)) = []
           /\ hd_error (snd (leaveChannel w h v))
              = Some (ConsoleLog "Left channel successfully")).
Proof.
  unfold completion, vars, events, after_release, release_events,
    release_events_of.
  unfold leaveChannel, leaveChannel_body, release_track, do_client_leave.
  unfold_monad. cbn.
  destruct (localTracks v audioTrack) eqn:Ea;
  destruct (localTracks v videoTrack) eqn:Ev; cbn;
    rewrite ?Ea, ?Ev; cbn;
    rewrite !TeardownProps.stopConvoAI_run;
    cbn; split_leave.
  all: try congruence.
  all: repeat split; try reflexivity; congruence.
Qed.

(** Every run of [endConversation]: the events of [leaveChannel]
    between the loading notice and the bookkeeping. *)
Lemma endConversation_run w h v :
  completion (endConversation w h v) = Normal JUndefined
  /\ events (endConversation w h v) =
       ShowLoading "Ending session..."
       :: events (leaveChannel w (ShowLoading "Ending session..." :: h) v)
       ++ [UpdateStatus "ended" "Session Ended"; AudioIndicator "inactive";
           StoreItem "vetai_session_data"
             (session_record (record_time w h v) v)]
       ++ (if truthy (getItem "vetai_triage_summary" (sessionStorage v))
           then [StoreItem "vetai_triage_ready" (JStr "true")]
           else [])
       ++ [ScheduleRedirect "summary.html" 1000].
Proof.
  destruct (TeardownProps.leaveChannel_media_first w
              (ShowLoading "Ending session..." :: h) v) as (Hc & _).
  destruct (leaveChannel_state w (ShowLoading "Ending session..." :: h) v)
    as (Hs & Hp & Ht & _).
  unfold completion, events, vars, session_record, record_time,
    record_history in *.
  unfold endConversation, endConversation_body, setItem. unfold_monad.
  cbn.
  destruct (leaveChannel w _ v) as [[c v'] d]. cbn in Hc, Hs, Hp, Ht.
  subst c. rewrite Hs, Hp, Ht. cbn.
  destruct (truthy (getItem "vetai_triage_summary" (sessionStorage v)));
    cbn; (split; [reflexivity|]);
    rewrite ?rev_app_distr; cbn; rewrite <- ?app_assoc; cbn;
    rewrite ?rev_app_distr; cbn; rewrite <- ?app_assoc; reflexivity.
Qed.

Lemma teardown_events_silent key l :
  forallb teardown_event l = true ->
  stored key l = []
  /\ filter is_redirect l = []
  /\ existsb is_toast l = false.
Proof.
  induction l as [|e l IH]; [now repeat split|].
  cbn [forallb]. rewrite andb_true_iff. intros [He Hl].
  destruct (IH Hl) as (H1 & H2 & H3).
  destruct e; try discriminate; cbn; now repeat split.
Qed.

Lemma filter_track_events l :
  forallb (fun e => negb (is_track_event e)) l = true ->
  filter is_track_event l = [].
Proof.
  induction l as [|e l IH]; [reflexivity|].
  cbn. rewrite andb_true_iff. intros [He Hl].
  destruct (is_track_event e); [discriminate | auto].
Qed.

(** X6.  When [client.leave()] rejects, [leaveChannel] still completes
    normally, with the tracks released and the agent stop attempted,
    but it stops there: [remoteUsers] keeps its entries and neither the
    registry nor the remote player list is cleared.  When it does not
    reject (or there is no client), [remoteUsers] is empty
    afterwards. *)
Theorem leaveChannel_after_failed_leave w h v :
  completion (leaveChannel w h v) = Normal JUndefined
  /\ localTracks (vars (leaveChannel w h v)) audioTrack = false
  /\ localTracks (vars (leaveChannel w h v)) videoTrack = false
  /\ (if existsb is_failed_leave (events (leaveChannel w h v))
      then remoteUsers (vars (leaveChannel w h v)) = remoteUsers v
           /\ existsb is_registry_clear (events (leaveChannel w h v)) = false
           /\ hd_error (snd (leaveChannel w h v))
              = Some (ConsoleError "Error leaving channel:")
      else remoteUsers (vars (leaveChannel w h v)) = []
           /\ hd_error (snd (leaveChannel w h v))
              = Some (ConsoleLog "Left channel successfully")).
Proof.
  destruct (TeardownProps.leaveChannel_media_first w h v)
    as (Hc & Ha & Hv & _).
  destruct (leaveChannel_state w h v) as (_ & _ & _ & _ & _ & _ & _ & Hl).
  repeat split; assumption.
Qed.

(** X7.  A second [leaveChannel] after a first one releases no track
    (the handles are already clear), and it sends a request only if the
    first left a handle behind: that is, only if a handle was recorded
    and the first stop request was not answered 2xx. *)
Theorem leaveChannel_again w h v h' :
  filter is_track_event
    (events (leaveChannel w h' (vars (leaveChannel w h v)))) = []
  /\ agoraConvoTaskID (vars (leaveChannel w h v)) =
       (if truthy (agoraConvoTaskID v)
           && succeeded
                (fetch w (ConsoleLog "Stopping Convo AI..." :: after_release h v)
                   (PostAgentLeave (to_string (agoraConvoTaskID v))))
        then JStr ""
        else agoraConvoTaskID v)
  /\ (truthy (agoraConvoTaskID (vars (leaveChannel w h v))) = false ->
      fetches (events (leaveChannel w h' (vars (leaveChannel w h v)))) = []).
Proof.
  destruct (TeardownProps.leaveChannel_media_first w h v)
    as (_ & Ha & Hv & _).
  destruct (TeardownProps.leaveChannel_media_first w h'
              (vars (leaveChannel w h v)))
    as (_ & _ & _ & rest & He & Hr & _).
  destruct (leaveChannel_state w h v) as (_ & _ & _ & _ & Hid & _).
  destruct (leaveChannel_state w h' (vars (leaveChannel w h v)))
    as (_ & _ & _ & _ & _ & Hf & _).
  split; [|split].
  - rewrite He. unfold release_events, release_events_of.
    rewrite Ha, Hv. cbn. now apply filter_track_events.
  - rewrite Hid. rewrite TeardownProps.stopConvoAI_run. unfold vars.
    destruct (truthy _); cbn; [|reflexivity].
    destruct (succeeded _); reflexivity.
  - intros Ht. rewrite Hf, TeardownProps.stopConvoAI_run, Ht.
    reflexivity.
Qed.

Lemma leaveChannel_again_witness :
  truthy (agoraConvoTaskID
            (vars (leaveChannel Scenario.calm_world []
                     Scenario.active_session))) = false
  /\ fetches
       (events (leaveChannel Scenario.calm_world []
                  (vars (leaveChannel Scenario.calm_world []
                           Scenario.active_session)))) = [].
Proof.
  split; [reflexivity|].
  apply (leaveChannel_again Scenario.calm_world [] Scenario.active_session []).
  reflexivity.
Defined.

Lemma endConversation_stores w h v :
  completion (endConversation w h v) = Normal JUndefined
  /\ stored "vetai_session_data" (events (endConversation w h v))
     = [session_record (record_time w h v) v]
  /\ stored "vetai_triage_ready" (events (endConversation w h v))
     = (if truthy (getItem "vetai_triage_summary" (sessionStorage v))
        then [JStr "true"] else [])
  /\ filter is_redirect (events (endConversation w h v))
     = [ScheduleRedirect "summary.html" 1000]
  /\ hd_error (snd (endConversation w h v))
     = Some (ScheduleRedirect "summary.html" 1000)
  /\ existsb is_toast (events (endConversation w h v)) = false.
Proof.
  destruct (endConversation_run w h v) as (Hc & He).
  destruct (leaveChannel_state w (ShowLoading "Ending session..." :: h) v)
    as (_ & _ & _ & _ & _ & _ & Hq & _).
  destruct (teardown_events_silent "vetai_session_data" _ Hq)
    as (S1 & R1 & T1).
  destruct (teardown_events_silent "vetai_triage_ready" _ Hq)
    as (S2 & _ & _).
  split; [exact Hc|].
  assert (Hlast : hd_error (snd (endConversation w h v))
                  = Some (ScheduleRedirect "summary.html" 1000)).
  { unfold events in He. apply (f_equal (@rev Event)) in He.
    rewrite rev_involutive in He. rewrite He.
    cbn [rev]. rewrite !rev_app_distr. reflexivity. }
  rewrite He. cbn [stored filter existsb is_redirect is_toast String.eqb].
  rewrite !stored_app, !filter_app, !existsb_app, S1, S2, R1, T1.
  destruct (truthy (getItem "vetai_triage_summary" (sessionStorage v)));
    repeat split; try reflexivity; exact Hlast.
Qed.



End TeardownRunProps.

(** ** Speaking, listening and the welcome sequence *)

Module DialogueProps.

Import Js Conversation Observe Probe Page.

Lemma plain_events key l :
  forallb plain l = true ->
  stored key l = [] /\ filter is_display l = [].
Proof.
  induction l as [|e l IH]; [now split|].
  cbn [forallb]. rewrite andb_true_iff. intros [He Hl].
  destruct (IH Hl) as [H1 H2].
  destruct e; try discriminate; cbn; now split.
Qed.

Lemma forallb_rev {A} (f : A -> bool) l :
  forallb f (rev l) = forallb f l.
Proof.
  induction l as [|x l IH]; [reflexivity|].
  cbn. rewrite forallb_app, IH. cbn. rewrite andb_true_r. apply andb_comm.
Qed.

(** The run of [playOpenAITTS] on a string. *)
Lemma playOpenAITTS_run s w h v :
  playOpenAITTS (JStr s) w h v =
    if all_white_space s then (Normal JUndefined, v, [])
    else
      let rq := PostOpenAITTS s in
      let res := fetch w h rq in
      if succeeded res then
        if audio_ends w (Fetch rq res :: h)
        then (Normal JUndefined, v, [AudioPlay true; Fetch rq res])
        else (Thrown MediaError, v, [AudioPlay false; Fetch rq res])
      else
        (Normal JUndefined, v,
         [if speechSynthesis w then Speak s
          else ConsoleLog "TTS not supported, using console output:";
          ConsoleError "OpenAI TTS error:"; Fetch rq res]).
Proof.
  unfold playOpenAITTS, playOpenAITTS_body, playTTSMessage,
    playTTSMessage_body, audio_playback. unfold_monad.
  destruct s as [|c s]; [reflexivity|].
  cbn [truthy String.eqb negb].
  destruct (all_white_space (String c s)); cbn; [reflexivity|].
  destruct (fetch w h _) as [|r]; cbn.
  - destruct (speechSynthesis w); reflexivity.
  - destruct (ok r); cbn.
    + destruct (audio_ends w _); reflexivity.
    + destruct (speechSynthesis w); reflexivity.
Qed.

(** Speaking adds neither a store nor a display, and leaves the
    variables alone. *)
Lemma playOpenAITTS_plain text w h v :
  exists d,
    forallb plain d = true
    /\ (playOpenAITTS text w h v = (Normal JUndefined, v, d)
        \/ (playOpenAITTS text w h v = (Thrown MediaError, v, d)
            /\ exists h', audio_ends w h' = false)).
Proof.
  unfold playOpenAITTS, playOpenAITTS_body, playTTSMessage,
    playTTSMessage_body, audio_playback.
  unfold_monad.
  destruct (truthy text); cbn;
    repeat match goal with
           | |- context [match ?t with JStr _ => _ | _ => _ end] =>
               is_var t; destruct t
           | |- context [speechSynthesis ?w] => destruct (speechSynthesis w)
           | |- context [all_white_space ?s] => destruct (all_white_space s)
           | |- context [fetch ?w ?h ?rq] =>
               let r := fresh "r" in destruct (fetch w h rq) as [|r]
           | |- context [ok ?r] => destruct (ok r)
           | |- context [audio_ends ?w ?h] => destruct (audio_ends w h) eqn:?
           | _ => progress cbn
           end.
  all: eexists; (split; [|first [ left; reflexivity
                                | right; split;
                                  [reflexivity | eexists; eassumption] ]]);
    reflexivity.
Qed.

Ltac say :=
  match goal with
  | |- context [playOpenAITTS ?t ?w ?h ?v] =>
      let d := fresh "d" in
      let P := fresh "P" in
      let E := fresh "E" in
      let F := fresh "F" in
      destruct (playOpenAITTS_plain t w h v) as [d [P [E | [E F]]]];
      rewrite E
  end.

Lemma ask_plain i q w h v :
  exists v' d,
    ask i q w h v = (Normal tt, v', d)
    /\ forallb plain d = true
    /\ sessionStorage v' = sessionStorage v
    /\ petInfo v' = petInfo v.
Proof.
  unfold ask. unfold_monad. unfold waitForUserResponse.
  destruct (i =? 0); cbn.
  - say; cbn; do 2 eexists; (split; [reflexivity|]); cbn;
      rewrite ?forallb_app, ?P; now repeat split.
  - say; cbn.
    + say; cbn; do 2 eexists; (split; [reflexivity|]); cbn;
        rewrite ?forallb_app, ?P, ?P0; now repeat split.
    + do 2 eexists; (split; [reflexivity|]); cbn;
        rewrite ?forallb_app, ?P; now repeat split.
Qed.

Lemma ask_from_plain qs : forall i w h v,
  exists v' d,
    ask_from i qs w h v = (Normal tt, v', d)
    /\ forallb plain d = true
    /\ sessionStorage v' = sessionStorage v
    /\ petInfo v' = petInfo v.
Proof.
  induction qs as [|q rest IH]; intros i w h v.
  - exists v, []. now repeat split.
  - rewrite SequencerProps.ask_from_cons. unfold bind.
    destruct (ask_plain i q w h v) as (v1 & d1 & E1 & P1 & S1 & I1).
    rewrite E1.
    destruct (IH (i + 1) w (d1 ++ h) v1) as (v2 & d2 & E2 & P2 & S2 & I2).
    rewrite E2. exists v2, (d2 ++ d1).
    rewrite forallb_app, P1, P2. repeat split; congruence.
Qed.

Lemma generateTriageSummary_plain responses w h v :
  exists fields d,
    generateTriageSummary responses w h v = (Normal (JObj fields), v, d)
    /\ forallb plain d = true.
Proof.
  unfold generateTriageSummary, generateTriageSummary_body.
  unfold_monad. cbn.
  destruct (fetch w h _) as [|r]; cbn; [unfold fallback_summary; eauto|].
  destruct (ok r); cbn; [|unfold fallback_summary; eauto].
  destruct (json r); cbn; unfold fallback_summary; eauto.
Qed.

Lemma stored_rev_plain key d :
  forallb plain d = true -> stored key (rev d) = [].
Proof.
  intros H. apply plain_events. now rewrite forallb_rev.
Qed.

Lemma display_rev_plain d :
  forallb plain d = true -> filter is_display (rev d) = [].
Proof.
  intros H. apply (plain_events "" (rev d)). now rewrite forallb_rev.
Qed.

Ltac read_events :=
  repeat first
    [ rewrite rev_app_distr
    | rewrite app_nil_r
    | rewrite TeardownRunProps.stored_app
    | rewrite filter_app
    | rewrite stored_rev_plain by assumption
    | rewrite display_rev_plain by assumption
    | progress cbn [rev app stored filter is_display String.eqb Ascii.eqb
                    Bool.eqb sessionStorage responses set_sessionStorage
                    set_responses] ].

Lemma sequence_run w h v :
  exists ending, ended w v ending (startOpenAIQuestioningSequence w h v).
Proof.
  unfold startOpenAIQuestioningSequence, startOpenAIQuestioningSequence_body.
  unfold call at 1. unfold bind at 1. unfold write at 1. cbn [app].
  unfold bind at 1.
  destruct (ask_from_plain questions 0 w h (set_responses [] v))
    as (v1 & d1 & E1 & P1 & S1 & I1).
  rewrite E1. cbv beta iota.
  unfold bind, setItem, displayTriageSummary. unfold_monad.
  cbn - [questions].
  say; cbn - [questions].
  2: { exists ClosingUnplayable. unfold ended.
       unfold completion, events, vars; cbn [fst snd]. read_events.
       repeat split; try reflexivity; assumption. }
  match goal with
  | |- context [generateTriageSummary ?r ?w ?h ?v] =>
      destruct (generateTriageSummary_plain r w h v)
        as (fields & d2 & E2 & P2);
      rewrite E2
  end; cbn - [questions].
  say; cbn - [questions].
  - exists (Completed (JObj fields)). unfold ended, storage_with.
    unfold completion, events, vars; cbn [fst snd]. read_events.
    repeat split; try reflexivity; try assumption. now rewrite S1.
  - exists (SummaryUnplayable (JObj fields)). unfold ended, storage_with.
    unfold completion, events, vars; cbn [fst snd]. read_events.
    repeat split; try reflexivity; try assumption. now rewrite S1.
Qed.

(** X9.  The question sequence ends in one of three ways.  It
    completes: the turns and the summary are stored, the summary is
    displayed once, and the last thing it does is the closing toast.
    Or the closing message fails to play: the sequence throws before
    the analysis, and nothing is stored or displayed.  Or the spoken
    summary fails to play: the sequence throws with the summary
    already stored, and the summary is never displayed.  The summary
    is always an object.  A failed playback is the only thing that
    makes the sequence throw. *)
Theorem sequence_ends w h v :
  exists ending, ended w v ending (startOpenAIQuestioningSequence w h v).
Proof. exact (sequence_run w h v). Qed.

Lemma playWelcomeSequence_run w h v :
  let h1 := AudioIndicator "speaking"
            :: Toast "Starting AI triage with voice assistant..." :: h in
  completion (playWelcomeSequence w h v) = Normal JUndefined
  /\ vars (playWelcomeSequence w h v)
     = vars (startOpenAIQuestioningSequence w h1 v)
  /\ events (playWelcomeSequence w h v)
     = [Toast "Starting AI triage with voice assistant...";
        AudioIndicator "speaking"]
       ++ events (startOpenAIQuestioningSequence w h1 v)
       ++ welcome_fallback
            (completion (startOpenAIQuestioningSequence w h1 v)).
Proof.
  intros h1.
  assert (Hc : completion (startOpenAIQuestioningSequence w h1 v)
               = Normal JUndefined
               \/ completion (startOpenAIQuestioningSequence w h1 v)
                  = Thrown MediaError).
  { destruct (sequence_run w h1 v) as [[s| |s] He]; unfold ended in He;
      destruct He as (Hc & _); auto. }
  unfold playWelcomeSequence, playWelcomeSequence_body.
  unfold_monad. unfold emit. cbn [app]. fold h1.
  destruct (startOpenAIQuestioningSequence w h1 v) as [[c v'] d].
  unfold completion in Hc. cbn [fst snd] in Hc.
  unfold completion, vars, events.
  destruct Hc as [-> | ->]; cbn [fst snd welcome_fallback app];
    repeat first [ rewrite rev_app_distr | rewrite app_nil_r
                 | progress cbn [rev app] ];
    rewrite <- ?app_assoc; cbn [app]; repeat split.
Qed.

(** X10.  [playWelcomeSequence] never throws.  It announces the
    triage, runs the question sequence, and when the sequence threw it
    logs the error, shows the fallback toast and sets the indicator to
    listening; when the sequence completed it adds nothing.  The
    variables are the ones the sequence left. *)
Theorem playWelcomeSequence_never_throws w h v :
  let h1 := AudioIndicator "speaking"
            :: Toast "Starting AI triage with voice assistant..." :: h in
  completion (playWelcomeSequence w h v) = Normal JUndefined
  /\ vars (playWelcomeSequence w h v)
     = vars (startOpenAIQuestioningSequence w h1 v)
  /\ events (playWelcomeSequence w h v)
     = [Toast "Starting AI triage with voice assistant...";
        AudioIndicator "speaking"]
       ++ events (startOpenAIQuestioningSequence w h1 v)
       ++ welcome_fallback
            (completion (startOpenAIQuestioningSequence w h1 v)).
Proof. exact (playWelcomeSequence_run w h v). Qed.

Lemma getItem_truthy key x store :
  truthy x = true -> getItem key ((key, x) :: store) = x.
Proof.
  intros H. unfold getItem. cbn [assoc]. rewrite String.eqb_refl.
  destruct x; try reflexivity; discriminate.
Qed.

Lemma welcome_fallback_plain c : forallb plain (welcome_fallback c) = true.
Proof. destruct c; reflexivity. Qed.

(** X11.  A summary the welcome sequence stored is the one a later
    [endConversation] puts into the session record: the record carries
    it as its triage summary, with no mock summary beside it, and the
    ready flag is stored. *)
Theorem stored_summary_reaches_record w h v h' summary :
  stored "vetai_triage_summary" (events (playWelcomeSequence w h v))
    = [summary] ->
  exists data,
    stored "vetai_session_data"
      (events (endConversation w h' (vars (playWelcomeSequence w h v))))
      = [data]
    /\ get_prop data "triageSummary" = Some summary
    /\ get_prop data "mockSummary" = Some JNull
    /\ stored "vetai_triage_ready"
         (events (endConversation w h' (vars (playWelcomeSequence w h v))))
       = [JStr "true"].
Proof.
  intros Hst.
  destruct (playWelcomeSequence_run w h v) as (_ & Hv & He).
  cbv zeta in Hv, He. rewrite He in Hst. rewrite Hv.
  rewrite !TeardownRunProps.stored_app in Hst.
  rewrite (proj1 (plain_events _ _ (welcome_fallback_plain _))) in Hst.
  cbn [stored app] in Hst. rewrite app_nil_r in Hst.
  set (r := startOpenAIQuestioningSequence w _ v) in *.
  assert (Hget : getItem "vetai_triage_summary" (sessionStorage (vars r))
                 = summary /\ truthy summary = true).
  { destruct (sequence_run w
                (AudioIndicator "speaking"
                 :: Toast "Starting AI triage with voice assistant..." :: h) v)
      as [[s| |s] Hend]; fold r in Hend; unfold ended in Hend.
    - destruct Hend as (_ & Hs & _ & _ & Hsto & Ht & _).
      rewrite Hs in Hst. injection Hst as <-.
      rewrite Hsto. unfold storage_with.
      now rewrite getItem_truthy.
    - destruct Hend as (_ & Hs & _). rewrite Hs in Hst. discriminate.
    - destruct Hend as (_ & Hs & _ & Hsto & Ht & _).
      rewrite Hs in Hst. injection Hst as <-.
      rewrite Hsto. unfold storage_with.
      now rewrite getItem_truthy. }
  destruct Hget as [Hget Ht].
  destruct (TeardownRunProps.endConversation_stores w h' (vars r))
    as (_ & Hdata & Hready & _).
  exists (session_record (record_time w h' (vars r)) (vars r)).
  split; [exact Hdata|].
  rewrite Hready. unfold session_record. cbn [get_prop assoc String.eqb].
  rewrite Hget, Ht. cbn. repeat split.
Qed.

Lemma stored_summary_reaches_record_witness :
  exists data,
    stored "vetai_session_data"
      (events (endConversation Scenario.calm_world []
                 (vars (playWelcomeSequence Scenario.calm_world []
                          Scenario.joined_session))))
      = [data]
    /\ get_prop data "mockSummary" = Some JNull.
Proof.
  destruct (stored_summary_reaches_record Scenario.calm_world []
              Scenario.joined_session []
              (JObj [("timestamp", JNum 0); ("petInfo", JNull);
                     ("responses",
                      JArr (map turn_to_js
                              (responses
                                 (vars (playWelcomeSequence
                                          Scenario.calm_world []
                                          Scenario.joined_session)))))]))
    as (data & Hd & _ & Hm & _).
  - vm_compute. reflexivity.
  - exists data. split; assumption.
Defined.

(** X12.  [playOpenAITTS] on a text: an empty or blank text does
    nothing at all.  Otherwise exactly one speech request is sent.  If
    it is not answered 2xx, the text is spoken by the browser instead
    (or only logged, without speech synthesis), nothing is played, and
    the call completes.  If it is answered 2xx the audio is played and
    nothing is spoken; the call throws exactly when that playback
    fails.  No variable changes. *)
Theorem playOpenAITTS_falls_back s w h v :
  vars (playOpenAITTS (JStr s) w h v) = v
  /\ (all_white_space s = true ->
      playOpenAITTS (JStr s) w h v = (Normal JUndefined, v, []))
  /\ (all_white_space s = false ->
      fetches (events (playOpenAITTS (JStr s) w h v))
        = [(PostOpenAITTS s, fetch w h (PostOpenAITTS s))]
      /\ if succeeded (fetch w h (PostOpenAITTS s)) then
           existsb is_speech (events (playOpenAITTS (JStr s) w h v)) = false
           /\ exists ended,
                filter is_playback (events (playOpenAITTS (JStr s) w h v))
                  = [AudioPlay ended]
                /\ completion (playOpenAITTS (JStr s) w h v)
                   = if ended then Normal JUndefined else Thrown MediaError
         else
           completion (playOpenAITTS (JStr s) w h v) = Normal JUndefined
           /\ filter is_playback (events (playOpenAITTS (JStr s) w h v)) = []
           /\ existsb is_speech (events (playOpenAITTS (JStr s) w h v))
              = speechSynthesis w).
Proof.
  rewrite playOpenAITTS_run.
  destruct (all_white_space s); [now repeat split|].
  cbv zeta.
  destruct (succeeded (fetch w h (PostOpenAITTS s))) eqn:Es.
  - destruct (audio_ends w _) eqn:Ea;
      (split; [reflexivity|]); (split; [discriminate|]); intros _;
      (split; [reflexivity|]); rewrite ?Es; (split; [reflexivity|]);
      eexists; split; reflexivity.
  - split; [reflexivity|]. split; [discriminate|]. intros _.
    split; [destruct (speechSynthesis w); reflexivity|].
    rewrite ?Es. destruct (speechSynthesis w); now repeat split.
Qed.

Lemma playOpenAITTS_falls_back_witness :
  playOpenAITTS (JStr "   ") Scenario.offline [] Scenario.joined_session
  = (Normal JUndefined, Scenario.joined_session, []).
Proof.
  apply (playOpenAITTS_falls_back "   " Scenario.offline []
           Scenario.joined_session).
  reflexivity.
Defined.

(** X13.  The [beforeunload] listener does what [stopConvoAI] does:
    the same request or none, the same handle afterwards, and it never
    throws.  Its guard only saves the console line of a stop with no
    agent. *)
Theorem beforeunload_is_stop w h v :
  completion (beforeunload w h v) = Normal JUndefined
  /\ vars (beforeunload w h v) = vars (stopConvoAI w h v)
  /\ fetches (events (beforeunload w h v))
     = fetches (events (stopConvoAI w h v))
  /\ events (beforeunload w h v)
     = if truthy (agoraConvoTaskID v) then events (stopConvoAI w h v) else [].
Proof.
  unfold beforeunload, beforeunload_body. unfold_monad.
  destruct (truthy (agoraConvoTaskID v)) eqn:Et; cbn [app];
    rewrite !TeardownProps.stopConvoAI_run, Et; [|now repeat split].
  cbv zeta. destruct (succeeded _); now repeat split.
Qed.

Lemma checkAudio_never_voiced frames : forall n,
  Forall silent frames ->
  checkAudio frames false 0 n = (TimedOut, (n + List.length frames)%nat).
Proof.
  induction frames as [|d rest IH]; intros n Hs; cbn [checkAudio].
  - cbn. f_equal. lia.
  - inversion Hs as [|? ? Hd Hrest]; subst. unfold silent in Hd.
    rewrite Hd, IH by assumption. cbn [List.length]. f_equal. lia.
Qed.

Lemma checkAudio_always_voiced frames : forall vd sc n,
  Forall voiced frames ->
  checkAudio frames vd sc n = (TimedOut, (n + List.length frames)%nat).
Proof.
  induction frames as [|d rest IH]; intros vd sc n Hs; cbn [checkAudio].
  - cbn. f_equal. lia.
  - inversion Hs as [|? ? Hd Hrest]; subst. unfold voiced in Hd.
    rewrite Hd, IH by assumption. cbn [List.length]. f_equal. lia.
Qed.

(** X14.  A listening window ends on the timer, with the text
    "Response received for question n", in each of these cases: no
    microphone track is held, setting up the analyser throws, no poll
    ever reads a voice, or every poll reads a voice (speech that never
    pauses is cut off by the timer).  In the last two cases every poll
    before the timer has run.  No variable changes. *)
Theorem unheard_answer_times_out n w h v :
  localTracks v audioTrack = false
  \/ monitor_throws (listening w h) = true
  \/ Forall silent (frames (listening w h))
  \/ Forall voiced (frames (listening w h)) ->
  completion (waitForUserResponse n w h v) = Normal (timed_out_text n)
  /\ vars (waitForUserResponse n w h v) = v
  /\ exists polls,
       events (waitForUserResponse n w h v) = [Listen n TimedOut polls]
       /\ (localTracks v audioTrack = true ->
           monitor_throws (listening w h) = false ->
           polls = List.length (frames (listening w h))).
Proof.
  intros H. unfold waitForUserResponse, completion, vars, events.
  cbn [fst snd rev app]. unfold listen_window.
  destruct (localTracks v audioTrack); cbn [andb];
    [|repeat split; eexists; split; [reflexivity | discriminate]].
  destruct (monitor_throws (listening w h)); cbn [negb];
    [repeat split; eexists; split; [reflexivity | discriminate]|].
  destruct H as [H|[H|[H|H]]]; try discriminate.
  - rewrite checkAudio_never_voiced by assumption.
    repeat split. eexists. split; reflexivity.
  - rewrite checkAudio_always_voiced by assumption.
    repeat split. eexists. split; reflexivity.
Qed.

Lemma unheard_answer_times_out_witness :
  completion (waitForUserResponse 3 Scenario.calm_world []
                Scenario.joined_session)
  = Normal "Response received for question 3".
Proof.
  apply (unheard_answer_times_out 3 Scenario.calm_world []
           Scenario.joined_session).
  right. right. left. constructor.
Defined.

Lemma checkAudio_quiet_run quiet post : forall sc n,
  Forall silent quiet ->
  0 <= sc <= 50 ->
  Z.of_nat (List.length quiet) = 51 - sc ->
  checkAudio (quiet ++ post) true sc n
  = (VoiceCompleted, (n + List.length quiet)%nat).
Proof.
  induction quiet as [|d rest IH]; intros sc n Hs Hsc Hl.
  - cbn [List.length] in Hl. lia.
  - inversion Hs as [|? ? Hd Hrest]; subst. unfold silent in Hd.
    cbn [app checkAudio]. rewrite Hd.
    cbn [List.length] in Hl.
    destruct (Z.gtb_spec (sc + 1) 50) as [Hgt|Hle].
    + assert (rest = [])
        by (destruct rest; [reflexivity | cbn [List.length] in Hl; lia]).
      subst rest. cbn. f_equal. lia.
    + rewrite IH by (try assumption; lia).
      f_equal. cbn [List.length]. lia.
Qed.

Lemma checkAudio_completes pre burst quiet post : forall vd sc n,
  voice burst = true ->
  Forall silent quiet ->
  List.length quiet = 51%nat ->
  0 <= sc <= 50 ->
  fst (checkAudio (pre ++ burst :: quiet ++ post) vd sc n) = VoiceCompleted
  /\ (snd (checkAudio (pre ++ burst :: quiet ++ post) vd sc n)
      <= n + List.length pre + 52)%nat.
Proof.
  induction pre as [|d rest IH]; intros vd sc n Hb Hq Hl Hsc.
  - cbn [app checkAudio]. rewrite Hb.
    rewrite checkAudio_quiet_run by (try assumption; lia).
    cbn [fst snd List.length]. split; [reflexivity | lia].
  - cbn [app checkAudio List.length].
    destruct (voice d).
    + destruct (IH true 0 (S n) Hb Hq Hl ltac:(lia)) as [H1 H2].
      split; [exact H1 | lia].
    + destruct vd.
      * destruct (Z.gtb_spec (sc + 1) 50) as [Hgt|Hle].
        -- cbn [fst snd]. split; [reflexivity | lia].
        -- assert (Hsc' : 0 <= sc + 1 <= 50) by lia.
           destruct (IH true (sc + 1) (S n) Hb Hq Hl Hsc') as [H1 H2].
           split; [exact H1 | lia].
      * destruct (IH false sc (S n) Hb Hq Hl Hsc) as [H1 H2].
        split; [exact H1 | lia].
Qed.

(** X15.  With the microphone track held and the analyser set up, a
    poll that reads a voice followed by 51 polls in a row that do not
    ends the window with "Voice response completed for question n",
    whatever was read before and whatever would be read after; the
    window ends no later than the last of those 51 polls. *)
Theorem voice_then_silence_completes n w h v pre burst quiet post :
  localTracks v audioTrack = true ->
  monitor_throws (listening w h) = false ->
  frames (listening w h) = pre ++ burst :: quiet ++ post ->
  voiced burst ->
  Forall silent quiet ->
  List.length quiet = 51%nat ->
  completion (waitForUserResponse n w h v) = Normal (completed_text n)
  /\ exists polls,
       events (waitForUserResponse n w h v) = [Listen n VoiceCompleted polls]
       /\ (polls <= List.length pre + 52)%nat.
Proof.
  intros Ht Hm Hf Hb Hq Hl.
  unfold waitForUserResponse, completion, events, listen_window.
  cbn [fst snd rev app]. rewrite Ht, Hm, Hf. cbn [andb negb].
  assert (Hsc : 0 <= 0 <= 50) by lia.
  destruct (checkAudio_completes pre burst quiet post false 0 0%nat
              Hb Hq Hl Hsc) as [H1 H2].
  rewrite H1. split; [reflexivity|].
  eexists. split; [reflexivity | exact H2].
Qed.

Lemma voice_then_silence_completes_witness :
  completion (waitForUserResponse 1 Cases.display_rate_world []
                Scenario.joined_session)
  = Normal "Voice response completed for question 1".
Proof.
  apply (voice_then_silence_completes 1 Cases.display_rate_world []
           Scenario.joined_session
           [] (repeat 255 128%nat) (repeat (repeat 0 128%nat) 51)
           (repeat (repeat 0 128%nat) 831));
    try reflexivity.
  apply Forall_forall. intros x Hx. apply repeat_spec in Hx. subst x.
  reflexivity.
Defined.

End DialogueProps.

(** ** The summary when the analysis succeeds *)

Module SummaryMoreProps.

Import Js Conversation Observe Probe.

Lemma assoc_app k l1 l2 :
  assoc k (l1 ++ l2) = if has_key k l1 then assoc k l1 else assoc k l2.
Proof.
  induction l1 as [|[k' x] l1 IH]; cbn; [reflexivity|].
  destruct (k =? k')%string; [reflexivity | exact IH].
Qed.

(** X16.  When the analysis request is answered 2xx with a body that
    parses, [generateTriageSummary] returns the fields of that body
    together with the time, the pet and the turns, after that one
    request and nothing else.  The body is not checked: a field it
    names wins over the three the function writes itself, and a field
    it lacks (the urgency level, say) is undefined in the summary. *)
Theorem generateTriageSummary_uses_analysis w h v responses analysis :
  analysis_of (fetch w h (analysis_request responses)) = Some analysis ->
  exists t summary,
    completion (generateTriageSummary responses w h v) = Normal summary
    /\ vars (generateTriageSummary responses w h v) = v
    /\ events (generateTriageSummary responses w h v)
       = [Fetch (analysis_request responses)
            (fetch w h (analysis_request responses))]
    /\ forall k,
         get_prop summary k =
           Some (if has_key k (spread analysis)
                 then assoc k (spread analysis)
                 else assoc k (own_fields t (petInfo v) responses)).
Proof.
  unfold analysis_of, analysis_request, generateTriageSummary,
    generateTriageSummary_body, completion, vars, events.
  unfold_monad. cbn.
  destruct (fetch w h _) as [|r]; [discriminate|].
  destruct (ok r); [|discriminate]. intros ->. cbn.
  do 2 eexists. repeat split.
  intros k. cbn [get_prop]. now rewrite assoc_app.
Qed.

Lemma generateTriageSummary_uses_analysis_witness :
  exists t summary,
    completion (generateTriageSummary [] Scenario.calm_world []
                  Scenario.joined_session) = Normal summary
    /\ get_prop summary "urgencyLevel" = Some JUndefined
    /\ get_prop summary "timestamp" = Some (JNum t).
Proof.
  destruct (generateTriageSummary_uses_analysis Scenario.calm_world []
              Scenario.joined_session [] (JObj []) eq_refl)
    as (t & summary & Hc & _ & _ & Hk).
  exists t, summary. split; [exact Hc|].
  split; [exact (Hk "urgencyLevel") | exact (Hk "timestamp")].
Defined.

End SummaryMoreProps.

(** ** The token endpoint, continued *)

Module TokenMoreProps.

Import Js Observe Probe Server.

Lemma parse_digits_suffix d c rest : forall acc a,
  match acc with Some x => x | None => 0 end = a ->
  (d <> Decimal.Nil \/ acc <> None) ->
  digit_value 10 c = None ->
  parse_digits 10 (NilEmpty.string_of_uint d ++ String c rest)%string acc
  = Some (uint_value d a).
Proof.
  induction d; intros acc a Ha Hne Hc;
    cbn [NilEmpty.string_of_uint parse_digits uint_value String.append].
  1: { rewrite Hc. destruct acc; [now subst | destruct Hne; congruence]. }
  all: eval_digit; rewrite Ha; apply IHd;
    [ cbn [uint_value]; lia | right; discriminate | assumption ].
Qed.

Ltac each_char c :=
  destruct c as [[|] [|] [|] [|] [|] [|] [|] [|]].

Lemma parseInt_uint_suffix d c rest :
  d <> Decimal.Nil ->
  digit_value 10 c = None ->
  (d = Decimal.D0 Decimal.Nil -> c <> "x"%char /\ c <> "X"%char) ->
  parseInt (Some (NilEmpty.string_of_uint d ++ String c rest)%string)
  = Some (uint_value d 0).
Proof.
  intros Hd Hc Hx.
  assert (P : parse_digits 10
                (NilEmpty.string_of_uint d ++ String c rest)%string None
              = Some (uint_value d 0))
    by (apply parse_digits_suffix; [reflexivity | now left | assumption]).
  unfold parseInt.
  destruct d as [|l|l|l|l|l|l|l|l|l|l]; try congruence;
    try (cbn [NilEmpty.string_of_uint skip_white_space String.append] in *;
         eval_white_space; cbv iota beta;
         rewrite P; f_equal; lia).
  destruct l;
    cbn [NilEmpty.string_of_uint skip_white_space String.append] in *;
    eval_white_space; cbv iota beta;
    try (rewrite P; f_equal; lia).
  destruct (Hx eq_refl) as [H1 H2].
  each_char c; try congruence; cbv iota beta; rewrite P; f_equal; lia.
Qed.

(** A minus sign in front of a numeral negates what is read. *)
Lemma parseInt_minus_uint d suffix :
  d <> Decimal.Nil ->
  parseInt (Some (String "-" (NilEmpty.string_of_uint d ++ suffix)%string))
  = match parseInt (Some (NilEmpty.string_of_uint d ++ suffix)%string) with
    | Some m => Some (- m)
    | None => None
    end.
Proof.
  intros Hd. unfold parseInt.
  destruct d as [|l|l|l|l|l|l|l|l|l|l]; try congruence;
    cbn [NilEmpty.string_of_uint skip_white_space String.append];
    eval_white_space; cbv iota beta;
    try (destruct (parse_digits 10 _ None); [f_equal; lia | reflexivity]).
  destruct l;
    cbn [NilEmpty.string_of_uint skip_white_space String.append];
    cbv iota beta;
    try (destruct (parse_digits 10 _ None); [f_equal; lia | reflexivity]).
  destruct suffix as [|c rest]; cbn [String.append]; cbv iota beta;
    [reflexivity|].
  each_char c; cbv iota beta;
    match goal with
    | |- context [parse_digits ?r ?s None] =>
        destruct (parse_digits r s None); [f_equal; lia | reflexivity]
    end.
Qed.

Lemma string_of_pos p :
  string_of_Z (Zpos p) = NilEmpty.string_of_uint (Pos.to_uint p)
  /\ string_of_Z (Zneg p)
     = String "-" (NilEmpty.string_of_uint (Pos.to_uint p))
  /\ Pos.to_uint p <> Decimal.Nil
  /\ Pos.to_uint p <> Decimal.D0 Decimal.Nil
  /\ uint_value (Pos.to_uint p) 0 = Zpos p.
Proof.
  pose proof (DecimalPos.Unsigned.to_uint_nonnil p) as NN.
  pose proof (DecimalPos.Unsigned.of_to p) as OT.
  repeat split.
  - unfold string_of_Z. cbn [Z.to_int NilZero.string_of_int].
    destruct (Pos.to_uint p); [contradiction | reflexivity..].
  - unfold string_of_Z. cbn [Z.to_int NilZero.string_of_int].
    destruct (Pos.to_uint p); [contradiction | reflexivity..].
  - exact NN.
  - intros E. rewrite E in OT. discriminate.
  - rewrite <- ParseIntProps.of_uint_value, OT. reflexivity.
Qed.

Lemma parseInt_with_suffix n c rest :
  ends_number n c ->
  parseInt (Some (string_of_Z n ++ String c rest)%string) = Some n.
Proof.
  intros [Hc Hx]. destruct n as [|p|p].
  - apply (parseInt_uint_suffix (Decimal.D0 Decimal.Nil) c rest);
      [discriminate | assumption | intros _; now apply Hx].
  - destruct (string_of_pos p) as (Hs & _ & Hn & Hz & Hv).
    rewrite Hs, parseInt_uint_suffix, Hv; try assumption; [reflexivity|].
    intros E. contradiction.
  - destruct (string_of_pos p) as (_ & Hs & Hn & Hz & Hv).
    rewrite Hs. cbn [String.append].
    rewrite parseInt_minus_uint, parseInt_uint_suffix, Hv;
      try assumption; [reflexivity|].
    intros E. contradiction.
Qed.

Lemma append_empty (s : string) : (s ++ "")%string = s.
Proof. induction s as [|c s IH]; cbn; [reflexivity | now rewrite IH]. Qed.

Lemma parseInt_integer n : parseInt (Some (string_of_Z n)) = Some n.
Proof.
  destruct n as [|p|p]; [reflexivity | |].
  - apply ParseIntProps.parseInt_string_of_Z. lia.
  - destruct (string_of_pos p) as (Hp & Hs & Hn & Hz & Hv).
    rewrite Hs.
    pose proof (parseInt_minus_uint (Pos.to_uint p) "" Hn) as M.
    rewrite append_empty in M. rewrite M, <- Hp.
    rewrite ParseIntProps.parseInt_string_of_Z by lia. reflexivity.
Qed.

(** X17.  parseInt reads the decimal numeral at the start of its
    argument and ignores what follows it: an integer (below 2^53 in
    size) written in decimal, with its sign, is read back as itself,
    also when characters that are not digits come after it.  So
    [GET /api/token] takes the uid 12 from [12abc], and passes a
    negative uid on to the token builder as it is. *)
Theorem parseInt_reads_leading_number n :
  Z.abs n < 2 ^ 53 ->
  parseInt (Some (string_of_Z n)) = Some n
  /\ userUid_of (Some (string_of_Z n)) = n
  /\ forall c rest,
       ends_number n c ->
       parseInt (Some (string_of_Z n ++ String c rest)%string) = Some n
       /\ userUid_of (Some (string_of_Z n ++ String c rest)%string) = n.
Proof.
  intros _.
  split; [apply parseInt_integer|]. split.
  - unfold userUid_of. now rewrite parseInt_integer.
  - intros c rest Hc. split; [now apply parseInt_with_suffix|].
    unfold userUid_of. now rewrite parseInt_with_suffix.
Qed.

Lemma parseInt_reads_leading_number_witness :
  userUid_of (Some "12abc") = 12 /\ userUid_of (Some "-7") = -7.
Proof.
  split.
  - apply (parseInt_reads_leading_number 12); [reflexivity|].
    split; [reflexivity|]. intros E. discriminate.
  - apply (parseInt_reads_leading_number (-7)). reflexivity.
Defined.

Section Handler.

Variable buildTokenWithUid :
  string -> string -> string -> Z -> RtcRole -> Z -> string.

Lemma handler_needs_channel env now_ms q :
  present (AGORA_APPID env) = true ->
  present (AGORA_APPCERTIFICATE env) = true ->
  present (channelName q) = false ->
  token_handler buildTokenWithUid env now_ms q =
    {| status := 400; body := ErrorBody "channelName is required" |}.
Proof.
  unfold token_handler. intros -> -> ->. reflexivity.
Qed.

(** X18.  [GET /api/token] answers with one of three statuses.  It is
    200, with a token, exactly when the app id, the certificate and the
    channel name are all there; 500 exactly when the app id or the
    certificate is missing, whatever the request; 400 when only the
    channel name is missing.  The credentials are checked first, and
    the body holds a token exactly when the status is 200. *)
Theorem token_status_cases env now_ms q :
  (status (token_handler buildTokenWithUid env now_ms q) = 200
   <-> present (AGORA_APPID env) = true
       /\ present (AGORA_APPCERTIFICATE env) = true
       /\ present (channelName q) = true)
  /\ (status (token_handler buildTokenWithUid env now_ms q) = 500
      <-> present (AGORA_APPID env) = false
          \/ present (AGORA_APPCERTIFICATE env) = false)
  /\ (status (token_handler buildTokenWithUid env now_ms q) = 400
      <-> present (AGORA_APPID env) = true
          /\ present (AGORA_APPCERTIFICATE env) = true
          /\ present (channelName q) = false)
  /\ ((exists token,
         body (token_handler buildTokenWithUid env now_ms q)
         = TokenBody token)
      <-> status (token_handler buildTokenWithUid env now_ms q) = 200).
Proof.
  destruct (present (AGORA_APPID env)) eqn:Ea;
    [destruct (present (AGORA_APPCERTIFICATE env)) eqn:Ec;
     [destruct (present (channelName q)) eqn:En|]|].
  - rewrite (TokenProps.handler_mints buildTokenWithUid env now_ms q Ea Ec En)
      in *.
    cbn [status body].
    repeat split; try assumption; try discriminate; try tauto;
      try (intros; intuition discriminate); eauto.
  - rewrite (handler_needs_channel env now_ms q Ea Ec En) in *.
    cbn [status body].
    repeat split; try assumption; try discriminate; try tauto;
      try (intros; intuition discriminate);
      try (intros [? ?]; discriminate).
  - rewrite (TokenProps.handler_missing_credentials buildTokenWithUid env
               now_ms q (or_intror Ec)) in *.
    cbn [status body].
    repeat split; try assumption; try discriminate; try tauto;
      try (intros; intuition discriminate);
      try (intros [? ?]; discriminate).
  - rewrite (TokenProps.handler_missing_credentials buildTokenWithUid env
               now_ms q (or_introl Ea)) in *.
    cbn [status body].
    repeat split; try assumption; try discriminate; try tauto;
      try (intros; intuition discriminate);
      try (intros [? ?]; discriminate).
Qed.

End Handler.

End TokenMoreProps.

(** ** The call queue *)

Module VetCallProps.

Import Js Backend VetCalls ServerObserve.

Lemma same_key_spec a b :
  same_key a b = true <-> a = b /\ primitive a = true.
Proof.
  destruct a, b; cbn; try (split; [discriminate | intros [E _]; discriminate]);
    try (split; [discriminate | intros [_ E]; discriminate]);
    try (split; [now split | reflexivity]).
  - rewrite Bool.eqb_true_iff. split; [now intros -> | now intros [[= ->] _]].
  - rewrite Z.eqb_eq. split; [now intros -> | now intros [[= ->] _]].
  - rewrite String.eqb_eq. split; [now intros -> | now intros [[= ->] _]].
Qed.

Lemma same_key_refl a : primitive a = true -> same_key a a = true.
Proof. intros H. now apply same_key_spec. Qed.

Lemma same_key_string s t : same_key (JStr s) (JStr t) = (s =? t)%string.
Proof. reflexivity. Qed.

(** Two keys that are the same are found the same by any third. *)
Lemma same_key_trans a b c :
  same_key a b = true -> same_key c b = same_key c a.
Proof.
  intros H. apply same_key_spec in H. destruct H as [-> _]. reflexivity.
Qed.

Lemma same_key_sym a b : same_key a b = same_key b a.
Proof.
  destruct (same_key a b) eqn:E.
  - apply same_key_spec in E. destruct E as [<- Hp].
    symmetry. now apply same_key_refl.
  - destruct (same_key b a) eqn:F; [|reflexivity].
    apply same_key_spec in F. destruct F as [<- Hp].
    rewrite same_key_refl in E by assumption. discriminate.
Qed.

Lemma same_key_In key l :
  existsb (same_key key) l = true <-> In key l /\ primitive key = true.
Proof.
  rewrite existsb_exists. split.
  - intros (x & Hx & E). apply same_key_spec in E.
    destruct E as [-> Hp]. now split.
  - intros [H Hp]. exists key. split; [assumption | now apply same_key_refl].
Qed.

Lemma Map_get_In key q :
  Map_get key q <> None <-> In key (keys q) /\ primitive key = true.
Proof.
  rewrite <- same_key_In.
  induction q as [|[k c] q IH]; cbn; [split; [congruence | discriminate]|].
  destruct (same_key key k); cbn; [split; [reflexivity | discriminate]|].
  exact IH.
Qed.

Lemma Map_get_set key c q key' :
  Map_get key' (Map_set key c q) =
    if same_key key' key then Some c else Map_get key' q.
Proof.
  induction q as [|[k c'] q IH]; cbn.
  - destruct (same_key key' key); reflexivity.
  - destruct (same_key key k) eqn:E; cbn.
    + rewrite (same_key_trans _ _ key' E).
      destruct (same_key key' key); reflexivity.
    + rewrite IH.
      destruct (same_key key' k) eqn:F; [|reflexivity].
      rewrite (same_key_sym key' k) in F.
      rewrite (same_key_sym key' key), (same_key_trans _ _ key F), E.
      reflexivity.
Qed.

Lemma keys_set key c q :
  keys (Map_set key c q) =
    if existsb (same_key key) (keys q) then keys q else keys q ++ [key].
Proof.
  induction q as [|[k c'] q IH]; cbn; [reflexivity|].
  destruct (same_key key k); cbn; [reflexivity|].
  unfold keys in *. rewrite IH.
  destruct (existsb _ _); reflexivity.
Qed.

Lemma In_set kc key c q :
  In kc (Map_set key c q) -> snd kc = c \/ In kc q.
Proof.
  induction q as [|[k c'] q IH]; cbn.
  - intros [<-|[]]. now left.
  - destruct (same_key key k); cbn.
    + intros [<-|H]; auto.
    + intros [<-|H]; auto. destruct (IH H); auto.
Qed.

(** The entry that is set is stored under a key that is the same as
    the one given. *)
Lemma In_set_key kc key c q :
  In kc (Map_set key c q) -> In kc q \/ (kc = (key, c)) \/
  (same_key key (fst kc) = true /\ snd kc = c).
Proof.
  induction q as [|[k c'] q IH]; cbn.
  - intros [<-|[]]. auto.
  - destruct (same_key key k) eqn:E; cbn.
    + intros [<-|H]; auto.
    + intros [<-|H]; auto. destruct (IH H) as [?|[?|?]]; auto.
Qed.

Lemma well_formed_set key c q :
  well_formed q -> entry_ok (key, c) -> well_formed (Map_set key c q).
Proof.
  intros [Hn Hf] Hc. split.
  - rewrite keys_set.
    destruct (existsb _ _) eqn:E; [assumption|].
    rewrite filter_app. cbn.
    destruct (primitive key) eqn:Hp; [|now rewrite app_nil_r].
    apply NoDup_app; [assumption | repeat constructor; intros [] | ].
    intros k Hk [<-|[]].
    apply filter_In in Hk. destruct Hk as [Hk _].
    assert (F : existsb (same_key key) (keys q) = true)
      by (apply same_key_In; now split).
    congruence.
  - apply Forall_forall. intros kc Hin.
    rewrite Forall_forall in Hf.
    destruct (In_set_key _ _ _ _ Hin) as [H|[->|[Hs Hv]]];
      [auto | assumption |].
    apply same_key_spec in Hs. destruct Hs as [Hs _].
    destruct kc as [k c0]. cbn in Hs, Hv. subst. assumption.
Qed.

Lemma In_delete kc key q : In kc (Map_delete key q) -> In kc q.
Proof.
  induction q as [|[k c] q IH]; cbn; [tauto|].
  destruct (same_key key k); cbn; [auto|].
  intros [<-|H]; auto.
Qed.

Lemma keys_delete key q :
  NoDup (filter primitive (keys q)) ->
  keys (Map_delete key q) = filter (fun k => negb (same_key key k)) (keys q).
Proof.
  induction q as [|[k c] q IH]; cbn; [reflexivity|].
  intros Hn.
  destruct (same_key key k) eqn:E; cbn.
  - apply same_key_spec in E. destruct E as [<- Hp].
    rewrite Hp in Hn. inversion Hn as [|? ? Hk Hq]; subst.
    symmetry. apply forallb_filter_id. apply forallb_forall.
    intros x Hx. destruct (same_key key x) eqn:F; [|reflexivity].
    apply same_key_spec in F. destruct F as [<- _].
    exfalso. apply Hk. apply filter_In. now split.
  - f_equal. apply IH.
    destruct (primitive k); [now inversion Hn | assumption].
Qed.

Lemma NoDup_filter_filter (f g : JsVal -> bool) l :
  NoDup (filter f l) -> NoDup (filter f (filter g l)).
Proof.
  induction l as [|x l IH]; cbn; [auto|].
  destruct (f x) eqn:Ef; destruct (g x) eqn:Eg; cbn; rewrite ?Ef; auto.
  - intros Hn. inversion Hn as [|? ? Hx Hl]; subst.
    constructor; [|auto].
    intros Hin. apply Hx. apply filter_In in Hin. destruct Hin as [Hin Hfx].
    apply filter_In in Hin. destruct Hin as [Hin _].
    apply filter_In. now split.
  - intros Hn. inversion Hn; auto.
Qed.

Lemma well_formed_delete key q :
  well_formed q -> well_formed (Map_delete key q).
Proof.
  intros [Hn Hf]. split.
  - rewrite keys_delete by assumption. now apply NoDup_filter_filter.
  - apply Forall_forall. intros kc Hin. rewrite Forall_forall in Hf.
    eauto using In_delete.
Qed.

Lemma Map_get_entry key q c :
  Map_get key q = Some c -> In (key, c) q.
Proof.
  induction q as [|[k c'] q IH]; cbn; [discriminate|].
  destruct (same_key key k) eqn:E.
  - apply same_key_spec in E. destruct E as [<- _].
    intros [= ->]. now left.
  - auto.
Qed.

Lemma Map_get_delete key q key' :
  NoDup (filter primitive (keys q)) ->
  Map_get key' (Map_delete key q) =
    if same_key key' key then None else Map_get key' q.
Proof.
  induction q as [|[k c] q IH]; cbn.
  - destruct (same_key key' key); reflexivity.
  - intros Hn.
    destruct (same_key key k) eqn:E; cbn.
    + rewrite (same_key_trans _ _ key' E).
      destruct (same_key key' key) eqn:F; [|reflexivity].
      apply same_key_spec in E. destruct E as [<- Hp].
      apply same_key_spec in F. destruct F as [-> _].
      rewrite Hp in Hn. inversion Hn as [|? ? Hk Hq]; subst.
      destruct (Map_get key q) eqn:G; [|reflexivity].
      exfalso. apply Hk. apply filter_In. split; [|assumption].
      apply (Map_get_In key q). congruence.
    + rewrite IH
        by (destruct (primitive k); [now inversion Hn | assumption]).
      destruct (same_key key' k) eqn:F; [|reflexivity].
      rewrite (same_key_sym key' k) in F.
      rewrite (same_key_sym key' key), (same_key_trans _ _ key F), E.
      reflexivity.
Qed.

Lemma request_handler_cases now body q :
  (get_prop body "channelName" = None
   /\ request_handler now body q = (None, q))
  \/ (exists ch,
        get_prop body "channelName" = Some ch
        /\ truthy ch = false
        /\ request_handler now body q =
             (Some (res_status_json 400
                      (JObj [("error", JStr "Channel name required")])), q))
  \/ (exists ch call,
        get_prop body "channelName" = Some ch
        /\ truthy ch = true
        /\ request_handler now body q =
             (Some (res_json (JObj [("success", JBool true);
                                    ("channelName", ch)])),
              Map_set ch call q)
        /\ channelName call = ch
        /\ status call = "pending"
        /\ vetJoined call = false
        /\ acceptedAt call = None
        /\ (forall t, get_prop body "requestTime" = Some t ->
              requestTime call = or_now t now)).
Proof.
  unfold request_handler.
  destruct body; cbn [get_prop]; try (left; split; reflexivity); right.
  all: match goal with
       | |- context [truthy ?ch] =>
           destruct (truthy ch) eqn:Et;
             [right; do 2 eexists; split; [reflexivity|];
              split; [exact Et|]; split; [reflexivity|];
              cbn; repeat split; now intros t [= <-]
             |left; eexists; split; [reflexivity|];
              split; [exact Et | reflexivity]]
       end.
Qed.

Lemma handle_well_formed rq q :
  well_formed q -> well_formed (handle rq q).
Proof.
  intros Hq. destruct rq as [now body|now|ch|now ch|ch]; cbn;
    try assumption.
  - destruct (request_handler_cases now body q)
      as [[_ ->]|[(ch & _ & _ & ->)|
                  (ch & call & _ & Ht & -> & Hc & Hs & Hv & Ha & _)]];
      cbn; try assumption.
    apply well_formed_set; [assumption|].
    repeat split; cbn; [assumption | assumption | left; repeat split;
                                                   assumption].
  - unfold accept_handler.
    destruct (Map_get (JStr ch) q) as [c|] eqn:E; cbn; [|assumption].
    apply well_formed_set; [assumption|].
    destruct Hq as [_ Hf]. rewrite Forall_forall in Hf.
    destruct (Hf _ (Map_get_entry _ _ _ E)) as (Hc & Hk & _).
    cbn in *. repeat split; cbn; [assumption | assumption |].
    right. repeat split. discriminate.
  - now apply well_formed_delete.
Qed.

Lemma serve_snoc rqs rq :
  serve (rqs ++ [rq]) = handle rq (serve rqs).
Proof. unfold serve. now rewrite fold_left_app. Qed.

Lemma serve_well_formed rqs : well_formed (serve rqs).
Proof.
  induction rqs as [|rq rqs IH] using rev_ind.
  - split; constructor.
  - rewrite serve_snoc. now apply handle_well_formed.
Qed.

Lemma string_keys_In s q : In s (string_keys q) <-> In (JStr s) (keys q).
Proof.
  induction q as [|[k c] q IH]; cbn; [tauto|].
  destruct k; cbn; rewrite ?IH;
    try (split; [now right | intros [E|H]; [discriminate | exact H]]).
  split; intros [E|H]; auto; left; congruence.
Qed.

Lemma string_keys_NoDup q :
  NoDup (filter primitive (keys q)) -> NoDup (string_keys q).
Proof.
  induction q as [|[k c] q IH]; cbn; [constructor|].
  destruct k; cbn; intros Hn; try (inversion Hn; subst; auto); auto.
  constructor; [|auto].
  rewrite string_keys_In. intros Hin.
  match goal with H : ~ In _ _ |- _ => apply H end.
  apply filter_In. now split.
Qed.

(** *** The pending list *)

Lemma insert_perm a l : Permutation.Permutation (a :: l) (insert a l).
Proof.
  induction l as [|b l IH]; cbn; [apply Permutation.Permutation_refl|].
  destruct (_ <=? 0); [apply Permutation.Permutation_refl|].
  eapply Permutation.perm_trans;
    [apply Permutation.perm_swap | now apply Permutation.perm_skip].
Qed.

Lemma sort_perm l : Permutation.Permutation l (sort l).
Proof.
  induction l as [|a l IH]; cbn; [constructor|].
  eapply Permutation.perm_trans;
    [apply Permutation.perm_skip; exact IH | apply insert_perm].
Qed.

Lemma insert_sorted a l :
  Sorted.StronglySorted by_time l -> Sorted.StronglySorted by_time (insert a l).
Proof.
  induction 1 as [|b l Hs IH Hb]; cbn.
  - repeat constructor.
  - destruct (Z.leb_spec (pending_requestTime a - pending_requestTime b) 0).
    + constructor; [now constructor|].
      constructor; [unfold by_time; lia|].
      eapply Forall_impl; [|exact Hb]. unfold by_time. intros; lia.
    + constructor; [assumption|].
      eapply Permutation.Permutation_Forall; [apply insert_perm|].
      constructor; [unfold by_time; lia | assumption].
Qed.

Lemma sort_sorted l : Sorted.StronglySorted by_time (sort l).
Proof.
  induction l as [|a l IH]; cbn; [constructor | now apply insert_sorted].
Qed.

(** Filtering commutes with the sort: the sort is stable. *)
Lemma filter_insert f a l :
  Sorted.StronglySorted by_time l ->
  filter f (insert a l) =
    if f a then insert a (filter f l) else filter f l.
Proof.
  induction 1 as [|b l Hs IH Hb]; cbn.
  - destruct (f a); reflexivity.
  - destruct (Z.leb_spec (pending_requestTime a - pending_requestTime b) 0)
      as [Hle|Hgt]; cbn.
    + destruct (f a) eqn:Ea; [|reflexivity].
      destruct (f b) eqn:Eb; cbn.
      * destruct (Z.leb_spec (pending_requestTime a - pending_requestTime b) 0);
          [reflexivity | lia].
      * clear IH. induction l as [|c l IHl]; cbn; [reflexivity|].
        inversion Hb as [|? ? Hc Hl]; subst. inversion Hs; subst.
        destruct (f c) eqn:Ec; cbn.
        -- destruct (Z.leb_spec
                       (pending_requestTime a - pending_requestTime c) 0);
             [reflexivity | unfold by_time in Hc; lia].
        -- auto.
    + rewrite IH. destruct (f b) eqn:Eb; cbn.
      * destruct (f a); [|reflexivity].
        destruct (Z.leb_spec (pending_requestTime a - pending_requestTime b) 0);
          [lia | reflexivity].
      * reflexivity.
Qed.

Lemma filter_sort f l : filter f (sort l) = sort (filter f l).
Proof.
  induction l as [|a l IH]; cbn; [reflexivity|].
  rewrite filter_insert by apply sort_sorted.
  rewrite IH. destruct (f a); reflexivity.
Qed.

Lemma sort_same_time t l :
  Forall (fun p => pending_requestTime p = t) l -> sort l = l.
Proof.
  induction 1 as [|a l Ha Hl IH]; cbn; [reflexivity|].
  rewrite IH. destruct Hl as [|b l Hb Hl]; cbn; [reflexivity|].
  destruct (Z.leb_spec (pending_requestTime a - pending_requestTime b) 0);
    [reflexivity | lia].
Qed.

(** The list is there exactly when every pending call has a number for
    its request time. *)
Lemma pending_of_untimed now q :
  pending_of now q = None <-> existsb untimed q = true.
Proof.
  induction q as [|[k c] q IH]; cbn; [split; discriminate|].
  unfold untimed at 1. cbn [snd].
  destruct (status c =? "pending")%string; cbn; [|exact IH].
  destruct (time_of (requestTime c)); cbn; [|split; reflexivity].
  destruct (pending_of now q); [|tauto].
  split; [discriminate|]. intros H. now apply IH in H.
Qed.

Lemma pending_of_In now q : forall l p,
  pending_of now q = Some l ->
  (In p l <->
   exists call,
     In (pending_channelName p, call) q
     /\ status call = "pending"
     /\ requestTime call = JNum (pending_requestTime p)
     /\ p = {| pending_channelName := pending_channelName p;
               pending_petInfo := petInfo call;
               pending_triageSummary := triageSummary call;
               pending_requestTime := pending_requestTime p;
               waitTime := (now - pending_requestTime p) / 1000 |}).
Proof.
  induction q as [|[k c] q IH]; cbn; intros l p.
  - intros [= <-]. split; [intros [] | intros (? & [] & _)].
  - destruct (String.eqb_spec (status c) "pending") as [Es|Es]; cbn.
    + destruct (requestTime c) eqn:Et; cbn; try discriminate.
      destruct (pending_of now q) as [l0|]; [|discriminate].
      intros [= <-]. cbn. rewrite (IH l0 p eq_refl). split.
      * intros [<-|(call & Hin & Hs & Ht & Hp)].
        -- exists c. cbn. auto.
        -- exists call. auto.
      * intros (call & [[= <- <-]|Hin] & Hs & Ht & Hp).
        -- left. rewrite Hp. rewrite Et in Ht. injection Ht as <-.
           reflexivity.
        -- right. exists call. auto.
    + intros E. rewrite (IH l p E). split.
      * intros (call & Hin & Hs & Hp). exists call. auto.
      * intros (call & [[= <- <-]|Hin] & Hs & Hp); [contradiction|].
        exists call. auto.
Qed.

Lemma pending_of_keys now q l p :
  pending_of now q = Some l -> In p l -> In (pending_channelName p) (keys q).
Proof.
  intros E Hp. apply (pending_of_In now q l p E) in Hp.
  destruct Hp as (call & Hi & _). apply (in_map fst) in Hi. exact Hi.
Qed.

Lemma filter_other_than_absent now ch q l :
  pending_of now q = Some l ->
  ~ In (JStr ch) (keys q) ->
  filter (other_than ch) l = l.
Proof.
  intros E Hni. apply forallb_filter_id. apply forallb_forall.
  intros p Hp. unfold other_than.
  destruct (same_key (JStr ch) (pending_channelName p)) eqn:F; [|reflexivity].
  apply same_key_spec in F. destruct F as [F _].
  exfalso. apply Hni. rewrite F. eapply pending_of_keys; eassumption.
Qed.

Lemma NoDup_primitive_tail k c (q : Queue) :
  NoDup (filter primitive (keys ((k, c) :: q))) ->
  NoDup (filter primitive (keys q))
  /\ (primitive k = true -> ~ In k (keys q)).
Proof.
  cbn. destruct (primitive k) eqn:Hp.
  - intros Hn. inversion Hn as [|? ? Hk Hq]; subst. split; [assumption|].
    intros _ Hin. apply Hk. apply filter_In. now split.
  - intros Hn. split; [assumption | discriminate].
Qed.

(** Setting a call that is not pending where the queue holds one
    takes it from the list and leaves the others as they were. *)
Lemma pending_of_set now ch c q : forall l,
  NoDup (filter primitive (keys q)) ->
  In (JStr ch) (keys q) ->
  status c <> "pending" ->
  pending_of now q = Some l ->
  pending_of now (Map_set (JStr ch) c q) = Some (filter (other_than ch) l).
Proof.
  induction q as [|[k c'] q IH]; intros l Hn Hin Hs E; [destruct Hin|].
  destruct (NoDup_primitive_tail _ _ _ Hn) as [Hq Hk].
  cbn [Map_set]. cbn [pending_of] in E.
  destruct (same_key (JStr ch) k) eqn:F.
  - apply same_key_spec in F. destruct F as [<- _].
    specialize (Hk eq_refl).
    cbn [pending_of].
    destruct (String.eqb_spec (status c) "pending"); [contradiction|].
    destruct (status c' =? "pending")%string.
    + destruct (time_of (requestTime c')); [|discriminate].
      destruct (pending_of now q) as [l0|] eqn:E0; [|discriminate].
      injection E as <-. cbn [filter]. unfold other_than at 1.
      cbn [pending_channelName]. rewrite same_key_string, String.eqb_refl.
      cbn [negb]. f_equal. symmetry.
      eapply filter_other_than_absent; eassumption.
    + rewrite E. f_equal. symmetry.
      eapply filter_other_than_absent; eassumption.
  - destruct Hin as [Ek|Hin].
    { cbn in Ek. subst k. cbn in F. rewrite String.eqb_refl in F.
      discriminate. }
    cbn [pending_of].
    destruct (status c' =? "pending")%string.
    + destruct (time_of (requestTime c')) as [t|]; [|discriminate].
      destruct (pending_of now q) as [l0|] eqn:E0; [|discriminate].
      injection E as <-.
      rewrite (IH l0 Hq Hin Hs eq_refl).
      cbn [filter]. unfold other_than at 2. cbn [pending_channelName].
      rewrite F. reflexivity.
    + now apply IH.
Qed.

(** Cancelling takes the call from the list and leaves the others as
    they were. *)
Lemma pending_of_delete now ch q : forall l,
  NoDup (filter primitive (keys q)) ->
  pending_of now q = Some l ->
  pending_of now (Map_delete (JStr ch) q) = Some (filter (other_than ch) l).
Proof.
  induction q as [|[k c'] q IH]; intros l Hn E.
  - cbn in *. injection E as <-. reflexivity.
  - destruct (NoDup_primitive_tail _ _ _ Hn) as [Hq Hk].
    cbn [Map_delete]. cbn [pending_of] in E.
    destruct (same_key (JStr ch) k) eqn:F.
    + apply same_key_spec in F. destruct F as [<- _].
      specialize (Hk eq_refl).
      destruct (status c' =? "pending")%string.
      * destruct (time_of (requestTime c')); [|discriminate].
        destruct (pending_of now q) as [l0|] eqn:E0; [|discriminate].
        injection E as <-. cbn [filter]. unfold other_than at 1.
        cbn [pending_channelName]. rewrite same_key_string, String.eqb_refl.
        cbn [negb]. f_equal. symmetry.
        eapply filter_other_than_absent; eassumption.
      * rewrite E. f_equal. symmetry.
        eapply filter_other_than_absent; eassumption.
    + cbn [pending_of].
      destruct (status c' =? "pending")%string.
      * destruct (time_of (requestTime c')) as [t|]; [|discriminate].
        destruct (pending_of now q) as [l0|] eqn:E0; [|discriminate].
        injection E as <-.
        rewrite (IH l0 Hq eq_refl).
        cbn [filter]. unfold other_than at 2. cbn [pending_channelName].
        rewrite F. reflexivity.
      * now apply IH.
Qed.

Lemma pending_calls_Some now q l :
  pending_calls now q = Some l ->
  exists l0, pending_of now q = Some l0 /\ l = sort l0.
Proof.
  unfold pending_calls. destruct (pending_of now q) as [l0|]; [|discriminate].
  intros [= <-]. eauto.
Qed.

Lemma Map_delete_absent key q :
  existsb (same_key key) (keys q) = false -> Map_delete key q = q.
Proof.
  induction q as [|[k c] q IH]; cbn; [reflexivity|].
  destruct (same_key key k); cbn; [discriminate|].
  intros H. f_equal. auto.
Qed.

Lemma existsb_filter_none key l :
  existsb (same_key key) (filter (fun k => negb (same_key key k)) l) = false.
Proof.
  induction l as [|x l IH]; cbn; [reflexivity|].
  destruct (same_key key x) eqn:E; cbn; [exact IH|].
  now rewrite E.
Qed.

(** X19.  [GET /api/vet-calls/pending], when every pending call has a
    number for its request time, lists exactly the calls whose status
    is pending, each once, under the key it is stored with, with that
    request time and the wait in whole seconds since; the list is
    ordered by request time, oldest first, and calls with the same
    request time keep the order in which they entered the queue.  A
    pending call whose request time is not a number (a text, an array)
    is the one case in which the list is not described. *)
Theorem pending_oldest_first now q :
  (pending_calls now q = None <-> existsb untimed q = true)
  /\ (pending_handler now q = None <-> existsb untimed q = true)
  /\ forall l,
       pending_calls now q = Some l ->
       pending_handler now q
         = Some (res_json (JObj [("calls", JArr (map pending_to_js l))]))
       /\ Sorted.StronglySorted by_time l
       /\ (exists l0,
             pending_of now q = Some l0
             /\ Permutation.Permutation l0 l
             /\ forall t,
                  filter (requested_at t) l = filter (requested_at t) l0)
       /\ (forall p, In p l ->
             (exists call,
                In (pending_channelName p, call) q
                /\ status call = "pending"
                /\ requestTime call = JNum (pending_requestTime p)
                /\ pending_petInfo p = petInfo call
                /\ pending_triageSummary p = triageSummary call)
             /\ waitTime p = (now - pending_requestTime p) / 1000
             /\ 1000 * waitTime p <= now - pending_requestTime p
                  < 1000 * waitTime p + 1000)
       /\ (forall k call,
             In (k, call) q -> status call = "pending" ->
             exists p, In p l /\ pending_channelName p = k).
Proof.
  assert (Hnone : pending_calls now q = None <-> existsb untimed q = true).
  { rewrite <- (pending_of_untimed now q). unfold pending_calls.
    destruct (pending_of now q); cbn; split; congruence. }
  split; [exact Hnone|]. split.
  { rewrite <- Hnone. unfold pending_handler.
    destruct (pending_calls now q); cbn; split; congruence. }
  intros l Hl. unfold pending_handler. rewrite Hl. cbn [option_map].
  destruct (pending_calls_Some _ _ _ Hl) as (l0 & E0 & ->).
  split; [reflexivity|]. split; [apply sort_sorted|].
  split; [|split].
  - exists l0. split; [exact E0|]. split; [apply sort_perm|].
    intros t. rewrite filter_sort. apply (sort_same_time t).
    apply Forall_forall. intros p Hp. apply filter_In in Hp.
    now apply Z.eqb_eq.
  - intros p Hp.
    apply (Permutation.Permutation_in _
             (Permutation.Permutation_sym (sort_perm _))) in Hp.
    apply (pending_of_In now q l0 p E0) in Hp.
    destruct Hp as (call & Hin & Hs & Ht & Hp).
    split.
    + exists call. repeat split; try assumption; now rewrite Hp.
    + assert (Hw : waitTime p = (now - pending_requestTime p) / 1000)
        by now rewrite Hp.
      split; [exact Hw|]. rewrite Hw.
      assert (H1000 : 0 < 1000) by lia.
      pose proof (Z.mul_div_le (now - pending_requestTime p) 1000 H1000).
      pose proof (Z.mul_succ_div_gt (now - pending_requestTime p) 1000 H1000).
      lia.
  - intros k call Hin Hs.
    assert (Hu : existsb untimed q = false).
    { destruct (existsb untimed q) eqn:Eu; [|reflexivity].
      apply pending_of_untimed with (now := now) in Eu. congruence. }
    assert (Ht : exists t, requestTime call = JNum t).
    { destruct (time_of (requestTime call)) as [t|] eqn:Et.
      - exists t. destruct (requestTime call); try discriminate.
        now injection Et as ->.
      - assert (F : existsb untimed q = true).
        { apply existsb_exists. exists (k, call). split; [assumption|].
          unfold untimed. cbn [snd]. rewrite Hs, Et. reflexivity. }
        congruence. }
    destruct Ht as [t Ht].
    exists {| pending_channelName := k;
              pending_petInfo := petInfo call;
              pending_triageSummary := triageSummary call;
              pending_requestTime := t;
              waitTime := (now - t) / 1000 |}.
    split; [|reflexivity].
    apply (Permutation.Permutation_in _ (sort_perm _)).
    apply (pending_of_In now q l0 _ E0). exists call. cbn. auto.
Qed.

(** X20.  Whatever requests the server has handled since it started,
    the queue holds at most one call per channel name that is a string,
    a number or a boolean; so at most one call per channel a route can
    name.  Every call is stored under its own channel name, which is
    truthy, and is either pending (no vet joined, no accept time) or
    accepted (vet joined, accept time set).  A channel name that is an
    array or an object is the same as no key: a request with such a
    name adds an entry each time it is made. *)
Theorem queue_invariant rqs :
  NoDup (filter primitive (keys (serve rqs)))
  /\ NoDup (string_keys (serve rqs))
  /\ Forall entry_ok (serve rqs)
  /\ forall now body ch,
       get_prop body "channelName" = Some ch ->
       primitive ch = false ->
       keys (serve (rqs ++ [PostRequest now body; PostRequest now body]))
       = keys (serve rqs) ++ [ch; ch].
Proof.
  destruct (serve_well_formed rqs) as [Hn Hf].
  split; [exact Hn|]. split; [now apply string_keys_NoDup|].
  split; [exact Hf|].
  intros now body ch Hb Hp.
  assert (Hadd : forall q,
            keys (handle (PostRequest now body) q) = keys q ++ [ch]).
  { intros q. cbn [handle].
    destruct (request_handler_cases now body q)
      as [[E _]|[(ch' & E & Ht & _)|(ch' & call & E & Ht & -> & _)]];
      rewrite Hb in E; try discriminate; injection E as <-.
    - destruct ch; discriminate.
    - cbn [snd]. rewrite keys_set.
      destruct (existsb (same_key ch) (keys q)) eqn:F; [|reflexivity].
      apply same_key_In in F. destruct F as [_ F]. congruence. }
  change (rqs ++ [PostRequest now body; PostRequest now body])
    with (rqs ++ [PostRequest now body] ++ [PostRequest now body]).
  rewrite app_assoc, !serve_snoc, !Hadd, <- app_assoc. reflexivity.
Qed.

(** X21.  A request whose body is undefined or null makes the handler
    throw before it answers, and leaves the queue as it was.  A request
    whose channel name is absent or falsy (empty, 0, false, null) is
    answered 400 and leaves the queue as it was.  Any other request is
    answered 200 with its channel name, and stores a pending call whose
    request time is the one of the body when that is truthy and the
    clock reading otherwise.  When the name is a string, the status
    endpoint then reports that channel as pending with no vet joined,
    also when the channel had an accepted call before: the new request
    replaces it, in its old place in the queue; the status of every
    other channel is what it was.  When the name is not a string the
    call is stored under a key no route can name: every status request
    is answered as it was before. *)
Theorem request_then_status now body q :
  (get_prop body "channelName" = None ->
   request_handler now body q = (None, q))
  /\ forall ch,
       get_prop body "channelName" = Some ch ->
       (truthy ch = false ->
        request_handler now body q
        = (Some (res_status_json 400
                   (JObj [("error", JStr "Channel name required")])), q))
       /\ (truthy ch = true ->
           fst (request_handler now body q)
           = Some (res_json (JObj [("success", JBool true);
                                   ("channelName", ch)]))
           /\ keys (snd (request_handler now body q))
              = (if existsb (same_key ch) (keys q)
                 then keys q else keys q ++ [ch])
           /\ (exists call,
                 In (ch, call) (snd (request_handler now body q))
                 /\ channelName call = ch
                 /\ status call = "pending"
                 /\ vetJoined call = false
                 /\ (forall t, get_prop body "requestTime" = Some t ->
                       requestTime call = (if truthy t then t else JNum now))
                 /\ (primitive ch = true ->
                     Map_get ch (snd (request_handler now body q))
                     = Some call))
           /\ (forall s, ch = JStr s ->
                 status_handler s (snd (request_handler now body q))
                 = pending_status s)
           /\ (forall other, ch <> JStr other ->
                 status_handler other (snd (request_handler now body q))
                 = status_handler other q)).
Proof.
  destruct (request_handler_cases now body q)
    as [[E ->]|[(ch' & E & Ht & ->)|
                (ch' & call & E & Ht & -> & Hc & Hs & Hv & Ha & Hr)]].
  - split; [reflexivity|]. intros ch Hb. congruence.
  - split; [intros Hb; congruence|].
    intros ch Hb. rewrite E in Hb. injection Hb as <-.
    split; [reflexivity | congruence].
  - split; [intros Hb; congruence|].
    intros ch Hb. rewrite E in Hb. injection Hb as <-.
    split; [congruence|]. intros _. cbn [fst snd].
    split; [reflexivity|]. split; [apply keys_set|].
    split; [|split].
    + exists call.
      assert (Hin : In (ch', call) (Map_set ch' call q)).
      { clear. induction q as [|[k c] q IH]; cbn; [now left|].
        destruct (same_key ch' k) eqn:F; cbn; [|now right].
        apply same_key_spec in F. destruct F as [<- _]. now left. }
      split; [exact Hin|]. split; [exact Hc|]. split; [exact Hs|].
      split; [exact Hv|]. split; [exact Hr|].
      intros Hp. rewrite Map_get_set, same_key_refl by assumption.
      reflexivity.
    + intros s ->. unfold status_handler, pending_status.
      rewrite Map_get_set, same_key_refl by reflexivity.
      now rewrite Hs, Hv.
    + intros other Ho. unfold status_handler. rewrite Map_get_set.
      destruct (same_key (JStr other) ch') eqn:F; [|reflexivity].
      apply same_key_spec in F. destruct F as [F _]. congruence.
Qed.

(** X22.  Accepting a call the queue does not hold under that name is
    answered 404 and changes nothing.  Accepting a call it holds is
    answered 200; the call is then reported as accepted with the vet
    joined, and the other channels report what they did.  Where the
    pending list is described (every pending request time a number),
    the call is gone from it and the other pending calls stay listed
    in the same order. *)
Theorem accept_then_status rqs now at_ ch :
  (Map_get (JStr ch) (serve rqs) = None ->
   accept_handler now ch (serve rqs) = (not_found, serve rqs))
  /\ (Map_get (JStr ch) (serve rqs) <> None ->
      fst (accept_handler now ch (serve rqs))
      = res_json (JObj [("success", JBool true); ("channelName", JStr ch)])
      /\ status_handler ch (snd (accept_handler now ch (serve rqs)))
         = accepted_status ch
      /\ (forall other, other <> ch ->
            status_handler other (snd (accept_handler now ch (serve rqs)))
            = status_handler other (serve rqs))
      /\ keys (snd (accept_handler now ch (serve rqs))) = keys (serve rqs)
      /\ (forall l,
            pending_calls at_ (serve rqs) = Some l ->
            pending_calls at_ (snd (accept_handler now ch (serve rqs)))
            = Some (filter (other_than ch) l)))
  /\ (forall k, (forall s, k <> JStr s) ->
        Map_get k (snd (accept_handler now ch (serve rqs)))
        = Map_get k (serve rqs)).
Proof.
  destruct (serve_well_formed rqs) as [Hn _].
  unfold accept_handler. split; [|split].
  - intros ->. reflexivity.
  - intros Hsome. pose proof Hsome as Hin. apply Map_get_In in Hin.
    destruct Hin as [Hin _].
    destruct (Map_get (JStr ch) (serve rqs)) as [c|]; [|contradiction].
    cbn [fst snd]. split; [reflexivity|].
    unfold status_handler. split; [|split; [|split]].
    + rewrite Map_get_set, same_key_refl by reflexivity. reflexivity.
    + intros other Ho. rewrite Map_get_set, same_key_string.
      destruct (String.eqb_spec other ch); [contradiction | reflexivity].
    + rewrite keys_set.
      assert (F : existsb (same_key (JStr ch)) (keys (serve rqs)) = true)
        by (apply same_key_In; now split).
      now rewrite F.
    + intros l Hl.
      destruct (pending_calls_Some _ _ _ Hl) as (l0 & E0 & ->).
      unfold pending_calls.
      rewrite (pending_of_set at_ ch _ _ l0 Hn Hin) by
        (assumption || discriminate).
      cbn [option_map]. now rewrite filter_sort.
  - intros k Hk.
    destruct (Map_get (JStr ch) (serve rqs)) as [c|]; [|reflexivity].
    cbn [snd]. rewrite Map_get_set.
    destruct (same_key k (JStr ch)) eqn:F; [|reflexivity].
    apply same_key_spec in F. destruct F as [F _].
    exfalso. exact (Hk ch F).
Qed.

(** X23.  Cancelling is always answered 200 with success, whether or
    not the call was there.  Afterwards the channel is not found, the
    other channels report what they did, the calls stored under keys
    that are not strings are where they were, and cancelling again
    changes nothing.  Where the pending list is described, the call is
    gone from it and the others stay listed in the same order. *)
Theorem cancel_then_status rqs at_ ch :
  fst (cancel_handler ch (serve rqs))
    = res_json (JObj [("success", JBool true)])
  /\ status_handler ch (snd (cancel_handler ch (serve rqs))) = not_found
  /\ (forall other, other <> ch ->
        status_handler other (snd (cancel_handler ch (serve rqs)))
        = status_handler other (serve rqs))
  /\ keys (snd (cancel_handler ch (serve rqs)))
     = filter (fun k => negb (same_key (JStr ch) k)) (keys (serve rqs))
  /\ (forall l,
        pending_calls at_ (serve rqs) = Some l ->
        pending_calls at_ (snd (cancel_handler ch (serve rqs)))
        = Some (filter (other_than ch) l))
  /\ snd (cancel_handler ch (snd (cancel_handler ch (serve rqs))))
     = snd (cancel_handler ch (serve rqs)).
Proof.
  destruct (serve_well_formed rqs) as [Hn _].
  unfold cancel_handler. cbn [fst snd].
  split; [reflexivity|].
  unfold status_handler. split; [|split; [|split; [|split]]].
  - rewrite Map_get_delete, same_key_refl by (assumption || reflexivity).
    reflexivity.
  - intros other Ho. rewrite Map_get_delete, same_key_string by assumption.
    destruct (String.eqb_spec other ch); [contradiction | reflexivity].
  - now apply keys_delete.
  - intros l Hl.
    destruct (pending_calls_Some _ _ _ Hl) as (l0 & E0 & ->).
    unfold pending_calls.
    rewrite (pending_of_delete at_ ch _ l0 Hn E0).
    cbn [option_map]. now rewrite filter_sort.
  - apply Map_delete_absent. rewrite keys_delete by assumption.
    apply existsb_filter_none.
Qed.

(** A day with two calls, one of them accepted: the list holds the
    other, waiting since 500. *)
Lemma pending_oldest_first_witness :
  pending_calls 3500 (serve ServerCases.busy_day)
  = Some [{| pending_channelName := JStr "tom";
             pending_petInfo := JObj [];
             pending_triageSummary := JObj [];
             pending_requestTime := 500;
             waitTime := 3 |}]
  /\ pending_handler 3500 (serve ServerCases.busy_day)
     = Some (res_json
               (JObj [("calls",
                       JArr [JObj [("channelName", JStr "tom");
                                   ("petInfo", JObj []);
                                   ("triageSummary", JObj []);
                                   ("requestTime", JNum 500);
                                   ("waitTime", JNum 3)]])]))
  /\ existsb untimed (serve ServerCases.text_time) = true
  /\ pending_handler 5000 (serve ServerCases.text_time) = None.
Proof.
  assert (E : pending_calls 3500 (serve ServerCases.busy_day)
              = Some [{| pending_channelName := JStr "tom";
                         pending_petInfo := JObj [];
                         pending_triageSummary := JObj [];
                         pending_requestTime := 500;
                         waitTime := 3 |}]) by reflexivity.
  split; [exact E|]. split.
  - apply (proj2 (proj2 (pending_oldest_first 3500
                           (serve ServerCases.busy_day))) _ E).
  - split; [reflexivity|].
    apply (proj1 (proj2 (pending_oldest_first 5000
                           (serve ServerCases.text_time)))).
    reflexivity.
Defined.

(** A call for a channel that had an accepted call; a body with no
    channel name; no body; a call named by the number 5, which the
    route for channel 5 does not find. *)
Lemma request_then_status_witness :
  status_handler "rex"
    (snd (request_handler 4000 (ServerCases.call_for (JStr "rex") JUndefined)
            (serve ServerCases.busy_day)))
  = pending_status "rex"
  /\ request_handler 4000 ServerCases.anonymous_call
       (serve ServerCases.busy_day)
     = (Some (res_status_json 400
                (JObj [("error", JStr "Channel name required")])),
        serve ServerCases.busy_day)
  /\ request_handler 4000 JUndefined (serve ServerCases.busy_day)
     = (None, serve ServerCases.busy_day)
  /\ fst (request_handler 4000 (ServerCases.call_for (JNum 5) JUndefined)
            (serve ServerCases.busy_day))
     = Some (res_json (JObj [("success", JBool true);
                             ("channelName", JNum 5)]))
  /\ status_handler "5"
       (snd (request_handler 4000 (ServerCases.call_for (JNum 5) JUndefined)
               (serve ServerCases.busy_day)))
     = not_found.
Proof.
  split; [|split; [|split; [|split]]].
  - apply (proj2 (request_then_status 4000
                    (ServerCases.call_for (JStr "rex") JUndefined)
                    (serve ServerCases.busy_day)) (JStr "rex") eq_refl);
      reflexivity.
  - apply (proj2 (request_then_status 4000 ServerCases.anonymous_call
                    (serve ServerCases.busy_day)) JUndefined eq_refl);
      reflexivity.
  - apply (proj1 (request_then_status 4000 JUndefined
                    (serve ServerCases.busy_day))).
    reflexivity.
  - apply (proj2 (request_then_status 4000
                    (ServerCases.call_for (JNum 5) JUndefined)
                    (serve ServerCases.busy_day)) (JNum 5) eq_refl);
      reflexivity.
  - destruct (proj2 (request_then_status 4000
                       (ServerCases.call_for (JNum 5) JUndefined)
                       (serve ServerCases.busy_day)) (JNum 5) eq_refl)
      as [_ H].
    destruct (H eq_refl) as (_ & _ & _ & _ & Ho).
    rewrite (Ho "5"); [reflexivity | discriminate].
Defined.

Lemma accept_then_status_witness :
  status_handler "tom"
    (snd (accept_handler 5000 "tom" (serve ServerCases.busy_day)))
  = accepted_status "tom"
  /\ pending_calls 6000
       (snd (accept_handler 5000 "tom" (serve ServerCases.busy_day)))
     = Some []
  /\ accept_handler 5000 "5" (serve ServerCases.odd_names)
     = (not_found, serve ServerCases.odd_names).
Proof.
  destruct (accept_then_status ServerCases.busy_day 5000 6000 "tom")
    as (_ & Hacc & _).
  assert (Hsome : Map_get (JStr "tom") (serve ServerCases.busy_day) <> None)
    by discriminate.
  destruct (Hacc Hsome) as (_ & Hs & _ & _ & Hp).
  split; [exact Hs|]. split.
  - apply (Hp _ eq_refl).
  - apply (proj1 (accept_then_status ServerCases.odd_names 5000 6000 "5")).
    reflexivity.
Defined.

(** Cancelling the pending call empties the list. *)
Lemma cancel_then_status_witness :
  pending_calls 6000
    (snd (cancel_handler "tom" (serve ServerCases.busy_day)))
  = Some [].
Proof.
  destruct (cancel_then_status ServerCases.busy_day 6000 "tom")
    as (_ & _ & _ & _ & Hp & _).
  apply (Hp _ eq_refl).
Defined.

(** The number 5 and the text 5 are two names; the array is found by
    no request, and stored twice. *)
Lemma queue_invariant_witness :
  keys (serve ServerCases.odd_names)
  = [JStr "rex"; JStr "tom"; JNum 5; JArr [JStr "rex"]; JArr [JStr "rex"]]
  /\ string_keys (serve ServerCases.odd_names) = ["rex"; "tom"].
Proof.
  split; [|reflexivity].
  destruct (queue_invariant
              (ServerCases.busy_day
               ++ [PostRequest 4000
                     (ServerCases.call_for (JNum 5) JUndefined)]))
    as (_ & _ & _ & H).
  specialize (H 5000 (ServerCases.call_for (JArr [JStr "rex"]) JUndefined)
                (JArr [JStr "rex"]) eq_refl eq_refl).
  exact H.
Defined.

End VetCallProps.

(** ** The cleanup and configuration endpoints *)

Module EndpointProps.

Import Js Backend ServerObserve.

Lemma configured_check env :
  negb (is_set (env "AGORA_APPID")) || negb (is_set (env "AGORA_REST_KEY"))
  || negb (is_set (env "AGORA_REST_SECRET"))
  = negb (configured env).
Proof.
  unfold configured.
  destruct (is_set (env "AGORA_APPID")), (is_set (env "AGORA_REST_KEY")),
    (is_set (env "AGORA_REST_SECRET")); reflexivity.
Qed.

Lemma find_first ch pre x post :
  Forall (fun a => on_channel ch a = Some false) pre ->
  find ch (pre ++ x :: post) =
    match on_channel ch x with
    | None => Raised
    | Some true => FoundAgent x
    | Some false => find ch post
    end.
Proof.
  induction 1 as [|a pre Ha Hpre IH]; cbn; [reflexivity|].
  now rewrite Ha.
Qed.

(** X24.  Without the three REST credentials the cleanup endpoint
    answers 500 and calls nothing.  With them it always answers 200,
    never with an error field: it lists the agents, and it either stops
    there with cleaned false, or makes one more call, a stop request,
    and answers cleaned true with the agent's id exactly when that
    request succeeds.  A stop request that fails is answered like a
    channel with no agent. *)
Theorem cleanup_best_effort env axios ch :
  (configured env = false ->
   cleanup_handler env axios ch = (misconfigured, []))
  /\ (configured env = true ->
      statusCode (fst (cleanup_handler env axios ch)) = 200
      /\ get_prop (sent (fst (cleanup_handler env axios ch))) "error"
         = Some JUndefined
      /\ (cleanup_handler env axios ch = (not_cleaned, [list_call env])
          \/ exists agent_id,
               snd (cleanup_handler env axios ch)
                 = [list_call env; stop_call env agent_id]
               /\ fst (cleanup_handler env axios ch)
                  = match axios [list_call env] (stop_call env agent_id) with
                    | Resolved _ => cleaned agent_id
                    | Failed _ _ => not_cleaned
                    end)).
Proof.
  unfold cleanup_handler. rewrite configured_check.
  split; intros ->; cbn [negb]; [reflexivity|].
  destruct (axios [] (list_call env)) as [listData|? ?];
    [|cbn; auto].
  destruct (get_prop listData "agents") as [listed|]; [|cbn; auto].
  destruct (if truthy listed then listed else JArr []); try (cbn; now auto).
  destruct (find ch items) as [| |staleAgent]; try (cbn; now auto).
  destruct (axios [list_call env] (stop_call env (agent_id_of staleAgent)))
    eqn:E; cbn [fst snd statusCode sent res_json not_cleaned];
    (split; [reflexivity|]); (split; [reflexivity|]);
    right; exists (agent_id_of staleAgent); rewrite E; now split.
Qed.

Lemma cleanup_best_effort_witness :
  statusCode
    (fst (cleanup_handler ServerCases.rest_env ServerCases.lists_two_stale
            "vet-triage")) = 200.
Proof.
  apply (cleanup_best_effort ServerCases.rest_env ServerCases.lists_two_stale
           "vet-triage").
  reflexivity.
Defined.

(** X25.  With the credentials set and a list of agents received, the
    entries are examined in order up to the first one that is on the
    channel or is null.  The first agent on the channel is the one the
    stop request names, and the only one: agents after it are not
    looked at, so a second agent on the same channel is left running.
    A null entry ahead of it ends the cleanup with cleaned false and no
    stop request. *)
Theorem cleanup_stops_first_match env axios ch fields pre x post :
  configured env = true ->
  axios [] (list_call env) = Resolved (JObj fields) ->
  assoc "agents" fields = JArr (pre ++ x :: post) ->
  Forall (fun a => on_channel ch a = Some false) pre ->
  match on_channel ch x with
  | Some true =>
      snd (cleanup_handler env axios ch)
        = [list_call env; stop_call env (agent_id_of x)]
      /\ fst (cleanup_handler env axios ch)
         = match axios [list_call env] (stop_call env (agent_id_of x)) with
           | Resolved _ => cleaned (agent_id_of x)
           | Failed _ _ => not_cleaned
           end
  | None => cleanup_handler env axios ch = (not_cleaned, [list_call env])
  | Some false => True
  end.
Proof.
  intros Hc Hl Ha Hpre.
  unfold cleanup_handler. rewrite configured_check, Hc, Hl.
  cbn [negb get_prop]. rewrite Ha. cbn [truthy].
  rewrite (find_first ch pre x post Hpre).
  destruct (on_channel ch x) as [[|]|]; [|exact I|reflexivity].
  destruct (axios [list_call env] (stop_call env (agent_id_of x)));
    now split.
Qed.

Lemma cleanup_stops_first_match_witness :
  snd (cleanup_handler ServerCases.rest_env ServerCases.lists_two_stale
         "vet-triage")
  = [list_call ServerCases.rest_env;
     stop_call ServerCases.rest_env (JStr "a1")].
Proof.
  apply (cleanup_stops_first_match ServerCases.rest_env
           ServerCases.lists_two_stale "vet-triage"
           (fields_of ServerCases.two_stale)
           [JObj [("agent_id", JStr "a0"); ("channel", JStr "lobby")]]
           (JObj [("agent_id", JStr "a1"); ("channel", JStr "vet-triage")])
           [JObj [("agent_id", JStr "a2"); ("channel", JStr "vet-triage")]]);
    try reflexivity.
  repeat constructor.
Defined.

(** X26.  [GET /config] answers 200 with ten fields, each the value of
    the environment variable of the same name, or null when that
    variable is unset or empty.  The app certificate and the REST key
    and secret are not among them: whatever they are set to, the answer
    is the same. *)
Theorem config_hides_credentials env :
  statusCode (config_handler env) = 200
  /\ List.length (fields_of (sent (config_handler env))) = 10%nat
  /\ (forall k x, In (k, x) (fields_of (sent (config_handler env))) ->
        x = or_null (env k) /\ ~ In k secrets)
  /\ (forall k x, In k secrets ->
        config_handler (with_variable k x env) = config_handler env).
Proof.
  split; [reflexivity|]. split; [reflexivity|]. split.
  - intros k x Hin. cbn in Hin.
    repeat (destruct Hin as [[= <- <-]|Hin];
            [split; [reflexivity | cbn; intuition discriminate]|]).
    destruct Hin.
  - intros k x Hin. cbn in Hin.
    repeat (destruct Hin as [<-|Hin]; [reflexivity|]).
    destruct Hin.
Qed.

End EndpointProps.

(** ** The page against this server *)

Module DeploymentProps.

Import Js Conversation Observe Probe Deployment.

Section Served.

Variable buildTokenWithUid :
  string -> string -> string -> Z -> Server.RtcRole -> Z -> string.
Variable stringify : JsVal -> string.
Variable reason : Z -> string.
Variable body_of : RequestData -> JsVal.
Variable env : Backend.ProcessEnv.
Variable clock : list Event -> Z.
Variable axios : list Event -> Backend.Axios.
Variable elsewhere : list Event -> Request -> FetchResult.

Local Notation "'route'" :=
  (served_fetch buildTokenWithUid stringify reason body_of env clock axios
     elsewhere) (only parsing).
Local Notation "'deployed'" :=
  (served buildTokenWithUid stringify reason body_of env clock axios
     elsewhere) (only parsing).
Local Notation "'agent_token'" :=
  (Deployment.agent_token buildTokenWithUid env clock) (only parsing).

Lemma token_route channel h :
  channel <> "" ->
  token_of (route h (GetToken channel "10001" "publisher"))
  = Some (agent_token channel h).
Proof.
  intros Hne. unfold agent_token. cbn [served_fetch].
  destruct (Server.present (env "AGORA_APPID")) eqn:Ea;
    [destruct (Server.present (env "AGORA_APPCERTIFICATE")) eqn:Ec|].
  - rewrite TokenProps.handler_mints; try assumption.
    + reflexivity.
    + cbn. destruct (String.eqb_spec channel ""); [contradiction|].
      reflexivity.
  - rewrite TokenProps.handler_missing_credentials by (now right).
    reflexivity.
  - rewrite TokenProps.handler_missing_credentials by (now left).
    reflexivity.
Qed.

Lemma response_of_ok r :
  ok (response_of stringify reason r)
  = (200 <=? Backend.statusCode r) && (Backend.statusCode r <=? 299).
Proof. reflexivity. Qed.

Lemma cleanup_route_ok channel h :
  succeeded (route h (PostCleanup channel)) = ServerObserve.configured env.
Proof.
  cbn [served_fetch succeeded]. rewrite response_of_ok.
  unfold Backend.cleanup_handler.
  rewrite EndpointProps.configured_check.
  destruct (ServerObserve.configured env); cbn [negb]; [|reflexivity].
  destruct (axios h [] (Backend.list_call env)) as [listData|? ?];
    [|reflexivity].
  destruct (get_prop listData "agents") as [listed|]; [|reflexivity].
  destruct (if truthy listed then listed else JArr []); try reflexivity.
  destruct (Backend.find channel items); try reflexivity.
  destruct (axios h _ _); reflexivity.
Qed.

Lemma start_route_status d h :
  route h (PostStart d)
  = Responded
      (response_of stringify reason
         (if ServerObserve.configured env
          then Backend.relay (axios h [] (Backend.join_call env (body_of d)))
          else Backend.misconfigured)).
Proof.
  cbn [served_fetch]. unfold Backend.start_handler.
  rewrite EndpointProps.configured_check.
  destruct (ServerObserve.configured env); reflexivity.
Qed.

Lemma leave_route_status agentId h :
  route h (PostAgentLeave agentId)
  = Responded
      (response_of stringify reason
         (if ServerObserve.configured env
          then Backend.relay (axios h [] (Backend.leave_call env agentId))
          else Backend.misconfigured)).
Proof.
  cbn [served_fetch]. unfold Backend.leave_handler.
  rewrite EndpointProps.configured_check.
  destruct (ServerObserve.configured env); reflexivity.
Qed.

Lemma relay_ok r :
  ok (response_of stringify reason (Backend.relay r)) = accepted r.
Proof. destruct r as [d|[[s d]|] m]; reflexivity. Qed.

(** The requests of a start against this server. *)
Lemma served_start_requests w h v ch :
  client v = true ->
  options_channel v = Some ch ->
  ch <> "" ->
  exists h0 h1 h2 rest,
    fetches (events (startVetConvoAI (deployed w) h v)) =
      (GetToken ch "10001" "publisher",
       route h0 (GetToken ch "10001" "publisher"))
      :: (PostCleanup ch, route h1 (PostCleanup ch))
      :: (PostStart (requestData_of ch (agent_token ch h0)),
          route h2 (PostStart (requestData_of ch (agent_token ch h0))))
      :: rest
    /\ slept 1000 (events (startVetConvoAI (deployed w) h v))
       = ServerObserve.configured env
    /\ (is_conflict
          (route h2 (PostStart (requestData_of ch (agent_token ch h0))))
        = false ->
        rest = []
        /\ completion (startVetConvoAI (deployed w) h v) =
             Normal
               (JBool
                  (is_some
                     (retry_handle
                        (route h2
                           (PostStart
                              (requestData_of ch (agent_token ch h0)))))))).
Proof.
  intros Hc Hch Hne.
  assert (Hp : present (options_channel v) = true).
  { rewrite Hch. cbn. destruct (String.eqb_spec ch ""); [contradiction|].
    reflexivity. }
  destruct (StartRunProps.startVetConvoAI_requests (deployed w) h v Hc Hp)
    as (_ & Hby & tok_res & after & Hf & Hrest).
  rewrite Hch in Hf, Hrest. cbn [value] in Hf, Hrest.
  unfold answered_by in Hby. rewrite Hf in Hby.
  destruct (Forall_inv Hby) as [h0 H0]. cbn [fst snd] in H0.
  apply Forall_inv_tail in Hby.
  change (fetch (deployed w)) with route in H0.
  rewrite H0 in Hrest. rewrite (token_route _ h0 Hne) in Hrest.
  destruct Hrest as (cl_res & res1 & rest & Ha & Hs & Hfirst).
  rewrite Ha in Hby.
  destruct (Forall_inv Hby) as [h1 H1]. cbn [fst snd] in H1.
  apply Forall_inv_tail in Hby.
  destruct (Forall_inv Hby) as [h2 H2]. cbn [fst snd] in H2.
  change (fetch (deployed w)) with route in H1, H2.
  exists h0, h1, h2, rest.
  split; [rewrite Hf, Ha, H0, H1, H2; reflexivity|]. split.
  - rewrite Hs, H1. apply cleanup_route_ok.
  - rewrite <- H2. intros Hn.
    destruct (Hfirst Hn) as (Hr & Hcompl & _). now split.
Qed.


(** X28.  Against this server with its REST credentials set, the
    cleanup request is always answered 200, so the start waits 1000 ms
    before the create request in every run, whether or not an agent
    was cleaned up.  With a credential missing the cleanup and the
    create request are both answered 500: the start does not wait,
    sends nothing after the create request, and returns false. *)
Theorem served_start_waits w h v ch :
  client v = true ->
  options_channel v = Some ch ->
  ch <> "" ->
  slept 1000 (events (startVetConvoAI (deployed w) h v))
  = ServerObserve.configured env
  /\ (ServerObserve.configured env = false ->
      List.length (fetches (events (startVetConvoAI (deployed w) h v)))
      = 3%nat
      /\ completion (startVetConvoAI (deployed w) h v)
         = Normal (JBool false)).
Proof.
  intros Hc Hch Hne.
  destruct (served_start_requests w h v ch Hc Hch Hne)
    as (h0 & h1 & h2 & rest & Hf & Hs & Hfirst).
  split; [exact Hs|]. intros Hn.
  rewrite start_route_status, Hn in Hfirst.
  destruct (Hfirst eq_refl) as (-> & Hcompl).
  rewrite Hf, Hcompl. split; reflexivity.
Qed.

(** X29.  Against this server, the answer to the create request is a
    conflict for the page exactly when the REST credentials are set and
    the Agora API answered the call with status 409; the proxy passes
    the status on.  It counts as accepted exactly when the credentials
    are set and the API answered with a 2xx status. *)
Theorem served_conflict_is_upstream d h :
  (is_conflict (route h (PostStart d)) = true <->
   ServerObserve.configured env = true
   /\ exists body message,
        axios h [] (Backend.join_call env (body_of d))
        = Backend.Failed (Some (409, body)) message)
  /\ succeeded (route h (PostStart d))
     = ServerObserve.configured env
       && accepted (axios h [] (Backend.join_call env (body_of d))).
Proof.
  rewrite start_route_status.
  destruct (ServerObserve.configured env).
  - split.
    + cbn [is_conflict]. rewrite relay_ok.
      destruct (axios h [] _) as [x|[[s x]|] m]; cbn.
      * split; [discriminate | intros (_ & ? & ? & ?); discriminate].
      * split.
        -- intros H. apply andb_prop in H. destruct H as [_ H].
           apply Z.eqb_eq in H. subst s. split; [reflexivity | eauto].
        -- intros (_ & b & m' & [= -> _ _]). reflexivity.
      * split; [discriminate | intros (_ & ? & ? & ?); discriminate].
    + cbn [succeeded]. now rewrite relay_ok.
  - split; [|reflexivity].
    split; [discriminate | intros [? _]; discriminate].
Qed.

(** X30.  Against this server, [stopConvoAI] clears the handle exactly
    when there is a handle, the REST credentials are set and the Agora
    API accepted the leave call for it; otherwise the handle stays. *)
Theorem served_stop_clears w h v :
  agoraConvoTaskID (vars (stopConvoAI (deployed w) h v)) =
    if truthy (agoraConvoTaskID v)
       && ServerObserve.configured env
       && accepted
            (axios (ConsoleLog "Stopping Convo AI..." :: h) []
               (Backend.leave_call env (to_string (agoraConvoTaskID v))))
    then JStr ""
    else agoraConvoTaskID v.
Proof.
  rewrite TeardownProps.stopConvoAI_run.
  destruct (truthy (agoraConvoTaskID v)); [|reflexivity].
  cbv zeta. change (fetch (deployed w)) with route.
  rewrite leave_route_status. cbn [succeeded andb].
  destruct (ServerObserve.configured env); [|reflexivity].
  rewrite relay_ok. destruct (accepted _); reflexivity.
Qed.

End Served.


Lemma served_start_waits_witness :
  slept 1000
    (events (startVetConvoAI ServerCases.deployed_calm []
               Scenario.joined_session)) = true.
Proof.
  apply (served_start_waits Scenario.show_token (fun _ => "")
           (fun _ => "") (fun _ => JObj []) ServerCases.rest_env
           (fun _ => 0) (fun _ => ServerCases.lists_two_stale)
           (fun _ _ => NetworkError) Scenario.calm_world []
           Scenario.joined_session "vet-triage" eq_refl eq_refl).
  discriminate.
Defined.

End DeploymentProps.
